(** * voice-server: the Twilio <-> ElevenLabs bridge of [server.js]

    A shallow embedding of the per-call WebSocket bridge that [server.js]
    installs in [wss.on("connection", ...)], for the revisions of the file
    kept in the repository:

    - revision 1 (lines 1-274): the AI socket is opened by
      [connectElevenLabs], called from the telephony [start] case;
    - revision 2 (lines 275-563) and revision 4 (lines 564-930): the AI
      socket is opened by the asynchronous [setupElevenLabs], called when the
      telephony socket is accepted.  The connection handler of revision 2
      (lines 390-555) and of revision 4 (lines 755-920) are the same text,
      so one module, [Rev4], embeds both.

    The draft of the handler that is kept beside the README is not
    embedded.  The HTTP routes ([/], [/debug], [/voice], [/call]) take no
    part in a call once its socket is accepted; they are embedded apart, in
    the module [Http], as revision 4 has them.

    The handlers are closures over the variables [streamSid], [callSid],
    [elevenWs] (and [conversationId]); they are embedded as computations over
    a [session] record in a small state-and-exception monad.  What the
    program does to the outside world is recorded as a list of [action]s. *)

From Stdlib Require Import String Ascii List Arith Lia Bool ZArith Zify ZifyNat.
From Stdlib Require Import DecimalString.
From stdpp Require Import base list.
Import ListNotations.
Local Open Scope string_scope.
Local Open Scope list_scope.

(** ** JavaScript values *)

(** The values the handlers see: what [JSON.parse] returns, plus
    [undefined], which a property read yields for a missing property.
    Strings are sequences of 8-bit characters (the frames carry ASCII
    identifiers and base64 text); numbers are the integer literals (the
    handlers only test a number for truthiness and copy it).  An object
    lists its properties in order; a parsed object has distinct keys. *)
#[warnings="-register-all"]
Inductive jsval : Type :=
| JUndefined
| JNull
| JBool (b : bool)
| JNum (n : Z)
| JStr (s : string)
| JArr (items : list jsval)
| JObj (fields : list (string * jsval)).

(** [o[k]] on the own properties of an object. *)
Fixpoint lookup_field (k : string) (fields : list (string * jsval)) : jsval :=
  match fields with
  | [] => JUndefined
  | (k', v) :: rest => if String.eqb k k' then v else lookup_field k rest
  end.

(** [v.k]: [None] stands for the [TypeError] thrown when [v] is [null] or
    [undefined].  None of the property names read by the program
    ([type], [audio], [chunk], [event], [start], [media], [payload], ...) is
    defined on a string, number, boolean or array, so these read as
    [undefined]. *)
Definition prop (v : jsval) (k : string) : option jsval :=
  match v with
  | JUndefined | JNull => None
  | JObj fields => Some (lookup_field k fields)
  | _ => Some JUndefined
  end.

(** [v?.k] *)
Definition opt_chain (v : jsval) (k : string) : jsval :=
  match prop v k with
  | Some x => x
  | None => JUndefined
  end.

(** Truthiness, as tested by [if (v)], [!v] and [v || w]. *)
Definition truthy (v : jsval) : bool :=
  match v with
  | JUndefined | JNull => false
  | JBool b => b
  | JNum n => negb (Z.eqb n 0)
  | JStr s => negb (String.eqb s "")
  | JArr _ | JObj _ => true
  end.

(** [v || w] *)
Definition js_or (v w : jsval) : jsval := if truthy v then v else w.

(** [v === "lit"], the test of a [switch] on string labels. *)
Definition is_label (v : jsval) (lit : string) : bool :=
  match v with
  | JStr s => String.eqb s lit
  | _ => false
  end.

(** [typeof v === "string" && v.length > 0] *)
Definition nonempty_string (v : jsval) : bool :=
  match v with
  | JStr s => negb (String.eqb s "")
  | _ => false
  end.

(** [JSON.stringify]: the text written to a socket is represented by the
    value it denotes.  A property whose value is [undefined] is left out of
    an object, and [undefined] in an array is written [null]. *)
Fixpoint JSON_stringify (v : jsval) : jsval :=
  match v with
  | JArr items =>
      JArr (List.map (fun x => match JSON_stringify x with
                               | JUndefined => JNull
                               | y => y
                               end) items)
  | JObj fields =>
      JObj ((fix go (fs : list (string * jsval)) : list (string * jsval) :=
               match fs with
               | [] => []
               | (k, x) :: rest =>
                   match JSON_stringify x with
                   | JUndefined => go rest
                   | y => (k, y) :: go rest
                   end
               end) fields)
  | _ => v
  end.

(** Whether [String(v)], the conversion made by a template literal
    [`${v}`], completes.  A parsed object is converted by
    [Object.prototype.toString] unless it has a property of its own named
    [toString], which is not callable and makes the conversion throw a
    [TypeError]; an array converts its elements, [null] apart. *)
Fixpoint to_string_ok (v : jsval) : bool :=
  match v with
  | JArr items => forallb to_string_ok items
  | JObj fields => negb (existsb (fun kv => String.eqb (fst kv) "toString") fields)
  | _ => true
  end.

(** ** Base64, as [Buffer.from(s, "base64")] and [buf.toString("base64")]

    The two [Buffer] methods belong to the Node.js runtime.  They are
    embedded after its documented behaviour: decoding accepts the standard
    and the URL-safe alphabet, ignores every character outside them
    (whitespace included), stops at the first [=], and turns a trailing group
    of two or three characters into one or two bytes; encoding writes the
    standard alphabet with [=] padding.  A byte is a number below 256. *)

Definition b64chars : string :=
  "ABCDEFGHIJKLMNOPQRSTUVWXYZabcdefghijklmnopqrstuvwxyz0123456789+/".

Definition b64char (n : nat) : ascii :=
  match String.get n b64chars with
  | Some c => c
  | None => "="%char
  end.

Definition unbase64 (c : ascii) : option nat :=
  let n := nat_of_ascii c in
  (if (65 <=? n) && (n <=? 90) then Some (n - 65)
   else if (97 <=? n) && (n <=? 122) then Some (n - 71)
   else if (48 <=? n) && (n <=? 57) then Some (n + 4)
   else if (n =? 43) || (n =? 45) then Some 62
   else if (n =? 47) || (n =? 95) then Some 63
   else None)%nat.

(** The six-bit groups of the characters before the first [=]. *)
Fixpoint sextets (s : string) : list nat :=
  match s with
  | EmptyString => []
  | String c rest =>
      if Ascii.eqb c "=" then []
      else match unbase64 c with
           | Some v => v :: sextets rest
           | None => sextets rest
           end
  end.

Fixpoint bytes_of_sextets (l : list nat) : list nat :=
  match l with
  | s1 :: s2 :: s3 :: s4 :: rest =>
      (s1 * 4 + s2 / 16) :: ((s2 mod 16) * 16 + s3 / 4)
        :: ((s3 mod 4) * 64 + s4) :: bytes_of_sextets rest
  | [s1; s2; s3] => [s1 * 4 + s2 / 16; (s2 mod 16) * 16 + s3 / 4]
  | [s1; s2] => [s1 * 4 + s2 / 16]
  | _ => []
  end.

Definition base64_decode (s : string) : list nat := bytes_of_sextets (sextets s).

Fixpoint base64_encode (bytes : list nat) : string :=
  match bytes with
  | [] => ""
  | [a] =>
      String (b64char (a / 4)) (String (b64char ((a mod 4) * 16)) "==")
  | [a; b] =>
      String (b64char (a / 4))
        (String (b64char ((a mod 4) * 16 + b / 16))
           (String (b64char ((b mod 16) * 4)) "="))
  | a :: b :: c :: rest =>
      String (b64char (a / 4))
        (String (b64char ((a mod 4) * 16 + b / 16))
           (String (b64char ((b mod 16) * 4 + c / 64))
              (String (b64char (c mod 64)) (base64_encode rest))))
  end.



(** ** The [ws] sockets *)

(** [WebSocket.readyState] *)
Inductive readyState : Type := CONNECTING | OPEN | CLOSING | CLOSED.

Definition is_open (r : readyState) : bool :=
  match r with OPEN => true | _ => false end.

(** What the server does to the outside world.  An AI socket is named by
    the order of its creation.  [TwilioSend] and [ElevenSend] carry the value
    whose JSON text is written; [TwilioClose] and [ElevenClose] are calls of
    [close()]; [GetSignedUrl] is the request sent by [getSignedUrl];
    [Uncaught] is an exception that leaves a handler, which ends the Node
    process. *)
Inductive action : Type :=
| TwilioSend (text : jsval)
| TwilioClose
| GetSignedUrl
| ElevenNew (k : nat)
| ElevenSend (k : nat) (text : jsval)
| ElevenClose (k : nat)
| Uncaught.

(** The variables of one [wss.on("connection")] closure, with the state of
    the sockets they refer to: [twilioWs] is the [readyState] of the
    telephony socket, [sockets] the [readyState] of every AI socket
    created so far, [elevenWs] the socket the variable refers to ([None] for
    [null]).  [pending] holds while [setupElevenLabs] waits for
    [getSignedUrl]; [crashed] once an exception has ended the process. *)
Record session : Type := mkSession {
  streamSid : jsval;
  callSid : jsval;
  elevenWs : option nat;
  conversationId : jsval;
  twilioWs : readyState;
  sockets : list readyState;
  pending : bool;
  crashed : bool
}.

Definition set_streamSid (v : jsval) (s : session) : session :=
  mkSession v (callSid s) (elevenWs s) (conversationId s) (twilioWs s)
    (sockets s) (pending s) (crashed s).
Definition set_callSid (v : jsval) (s : session) : session :=
  mkSession (streamSid s) v (elevenWs s) (conversationId s) (twilioWs s)
    (sockets s) (pending s) (crashed s).
Definition set_elevenWs (w : option nat) (s : session) : session :=
  mkSession (streamSid s) (callSid s) w (conversationId s) (twilioWs s)
    (sockets s) (pending s) (crashed s).
Definition set_conversationId (v : jsval) (s : session) : session :=
  mkSession (streamSid s) (callSid s) (elevenWs s) v (twilioWs s)
    (sockets s) (pending s) (crashed s).
Definition set_twilioWs (r : readyState) (s : session) : session :=
  mkSession (streamSid s) (callSid s) (elevenWs s) (conversationId s) r
    (sockets s) (pending s) (crashed s).
Definition set_sockets (l : list readyState) (s : session) : session :=
  mkSession (streamSid s) (callSid s) (elevenWs s) (conversationId s)
    (twilioWs s) l (pending s) (crashed s).
Definition set_pending (b : bool) (s : session) : session :=
  mkSession (streamSid s) (callSid s) (elevenWs s) (conversationId s)
    (twilioWs s) (sockets s) b (crashed s).
Definition set_crashed (b : bool) (s : session) : session :=
  mkSession (streamSid s) (callSid s) (elevenWs s) (conversationId s)
    (twilioWs s) (sockets s) (pending s) b.

(** [readyState] of AI socket [k]. *)
Definition ready (s : session) (k : nat) : readyState :=
  match sockets s !! k with
  | Some r => r
  | None => CLOSED
  end.

(** ** Handler computations

    A handler runs on the session, may throw, and emits actions.  The
    assignments and writes made before an exception stay. *)
Definition js (A : Type) : Type := session -> option A * session * list action.

Definition ret {A} (a : A) : js A := fun s => (Some a, s, []).
Definition throw {A} : js A := fun s => (None, s, []).
Definition bind {A B} (m : js A) (f : A -> js B) : js B :=
  fun s =>
    match m s with
    | (Some a, s1, acts1) =>
        match f a s1 with
        | (r, s2, acts2) => (r, s2, acts1 ++ acts2)
        end
    | (None, s1, acts1) => (None, s1, acts1)
    end.
Definition read {A} (f : session -> A) : js A := fun s => (Some (f s), s, []).
Definition assign (f : session -> session) : js unit := fun s => (Some tt, f s, []).
Definition emit (a : action) : js unit := fun s => (Some tt, s, [a]).
(** [try { m } catch (err) { log(...) }] *)
Definition try_catch (m : js unit) : js unit :=
  fun s => match m s with (_, s1, acts) => (Some tt, s1, acts) end.
(** a property read or library call that may throw *)
Definition lift {A} (o : option A) : js A :=
  match o with
  | Some a => ret a
  | None => throw
  end.
Definition when (b : bool) (m : js unit) : js unit := if b then m else ret tt.
(** [log(`... ${v} ...`)] where something follows the call: the template
    literal may throw.  The log itself is not part of the model: [log] only
    appends to [logBuffer], which no handler reads. *)
Definition log_template (vs : list jsval) : js unit :=
  if forallb to_string_ok vs then ret tt else throw.

Notation "'let*' x ':=' m 'in' k" := (bind m (fun x => k))
  (at level 10, x name, m at level 100, k at level 200).
Notation "m ';;' k" := (bind m (fun _ => k))
  (at level 100, k at level 200, right associativity).

(** [new WebSocket(url)] once the constructor has accepted the URL: the
    socket starts in [CONNECTING]. *)
Definition ws_new : js nat :=
  let* socks := read sockets in
  assign (set_sockets (socks ++ [CONNECTING])) ;;
  emit (ElevenNew (length socks)) ;;
  ret (length socks).

(** [ws.send(JSON.stringify(v))] on AI socket [k]: [ws] throws while the
    socket is [CONNECTING], writes when it is [OPEN], and otherwise drops
    the data (no callback is passed). *)
Definition ws_send (k : nat) (v : jsval) : js unit :=
  let* r := read (fun s => ready s k) in
  match r with
  | CONNECTING => throw
  | OPEN => emit (ElevenSend k (JSON_stringify v))
  | CLOSING | CLOSED => ret tt
  end.

(** [ws.close()] on AI socket [k]: an [OPEN] or [CONNECTING] socket becomes
    [CLOSING]. *)
Definition ws_close (k : nat) : js unit :=
  let* r := read (fun s => ready s k) in
  emit (ElevenClose k) ;;
  match r with
  | CONNECTING | OPEN =>
      let* socks := read sockets in
      assign (set_sockets (<[k := CLOSING]> socks))
  | CLOSING | CLOSED => ret tt
  end.

(** [twilioWs.send(JSON.stringify(v))]; a socket accepted by the server is
    never [CONNECTING]. *)
Definition twilio_send (v : jsval) : js unit :=
  let* r := read twilioWs in
  match r with
  | CONNECTING => throw
  | OPEN => emit (TwilioSend (JSON_stringify v))
  | CLOSING | CLOSED => ret tt
  end.

(** [elevenWs.m(...)]: a [TypeError] when the variable is [null]. *)
Definition the_elevenWs : js nat :=
  let* w := read elevenWs in lift w.

(** [elevenWs && elevenWs.readyState === WebSocket.OPEN] *)
Definition elevenWs_open (s : session) : bool :=
  match elevenWs s with
  | Some k => is_open (ready s k)
  | None => false
  end.

(** [streamSid && twilioWs.readyState === WebSocket.OPEN] *)
Definition twilio_ready (s : session) : bool :=
  truthy (streamSid s) && is_open (twilioWs s).

(** The process environment read at start-up.  [agent_url_accepted] tells
    whether [new WebSocket] accepts the URL that revision 1 builds from the
    agent id (the constructor throws a [SyntaxError] otherwise). *)
Record environment : Type := mkEnv {
  ELEVENLABS_API_KEY : option string;
  ELEVENLABS_AGENT_ID : option string;
  agent_url_accepted : bool
}.

(** [!X] for an environment variable *)
Definition missing (x : option string) : bool :=
  match x with
  | Some s => String.eqb s ""
  | None => true
  end.

(** ** The event loop *)

(** What reaches the closure from outside: frames and socket events of the
    two [ws] sockets, and the settling of [getSignedUrl].  A message carries
    the result of [JSON.parse(data.toString())], [None] when it throws.
    [SignedUrlResolved accepted] carries whether [new WebSocket(signedUrl)]
    accepts the URL. *)
Inductive event : Type :=
| TwilioMessage (data : option jsval)
| TwilioClosed
| TwilioError
| SignedUrlResolved (accepted : bool)
| SignedUrlRejected
| ElevenOpen (k : nat)
| ElevenMessage (k : nat) (data : option jsval)
| ElevenClosed (k : nat)
| ElevenError (k : nat).

(** The callbacks one revision registers.  The two [error] callbacks only
    log. *)
Record handlers : Type := mkHandlers {
  onTwilioMessage : option jsval -> js unit;
  onTwilioClose : js unit;
  onSignedUrl : option bool -> js unit;
  onElevenOpen : js unit;
  onElevenMessage : option jsval -> js unit;
  onElevenClose : js unit
}.

(** A callback run by the event loop: an exception that leaves it ends
    the process. *)
Definition invoke (m : js unit) (s : session) : session * list action :=
  match m s with
  | (Some _, s1, acts) => (s1, acts)
  | (None, s1, acts) => (set_crashed true s1, acts ++ [Uncaught])
  end.

(** One event.  [ws] moves the [readyState] before it calls the callback:
    [open] leaves [CONNECTING] for [OPEN], an error leaves the socket
    [CLOSING], [close] leaves it [CLOSED]; frames are delivered on an open
    socket, and on an AI socket that is closing after [close()].  An event
    that [ws] cannot emit in the current state is skipped. *)
Definition step (h : handlers) (s : session) (e : event) : session * list action :=
  if crashed s then (s, [])
  else
    match e with
    | TwilioMessage data =>
        match twilioWs s with
        | OPEN => invoke (onTwilioMessage h data) s
        | _ => (s, [])
        end
    | TwilioClosed =>
        match twilioWs s with
        | CLOSED => (s, [])
        | _ => invoke (onTwilioClose h) (set_twilioWs CLOSED s)
        end
    | TwilioError =>
        match twilioWs s with
        | CLOSED => (s, [])
        | _ => (set_twilioWs CLOSING s, [])
        end
    | SignedUrlResolved accepted =>
        if pending s then invoke (onSignedUrl h (Some accepted)) (set_pending false s)
        else (s, [])
    | SignedUrlRejected =>
        if pending s then invoke (onSignedUrl h None) (set_pending false s)
        else (s, [])
    | ElevenOpen k =>
        match sockets s !! k with
        | Some CONNECTING =>
            invoke (onElevenOpen h) (set_sockets (<[k := OPEN]> (sockets s)) s)
        | _ => (s, [])
        end
    | ElevenMessage k data =>
        match sockets s !! k with
        | Some OPEN | Some CLOSING => invoke (onElevenMessage h data) s
        | _ => (s, [])
        end
    | ElevenClosed k =>
        match sockets s !! k with
        | Some CONNECTING | Some OPEN | Some CLOSING =>
            invoke (onElevenClose h) (set_sockets (<[k := CLOSED]> (sockets s)) s)
        | _ => (s, [])
        end
    | ElevenError k =>
        match sockets s !! k with
        | Some CONNECTING | Some OPEN | Some CLOSING =>
            (set_sockets (<[k := CLOSING]> (sockets s)) s, [])
        | _ => (s, [])
        end
    end.

Fixpoint run (h : handlers) (s : session) (evs : list event) : session * list action :=
  match evs with
  | [] => (s, [])
  | e :: rest =>
      let (s1, acts1) := step h s e in
      let (s2, acts2) := run h s1 rest in
      (s2, acts1 ++ acts2)
  end.

(** The closure variables when the telephony socket is accepted. *)
Definition initial : session :=
  mkSession JNull JNull None JNull OPEN [] false false.

(** The message written to the AI socket for a telephony [media] frame,
    the object literal of lines 237-239 and 890-892. *)
Definition user_audio_frame (payload : jsval) : jsval :=
  JObj [("user_audio_chunk", payload)].

(** [if (streamSid && twilioWs.readyState === WebSocket.OPEN)
      twilioWs.send(JSON.stringify({ event: "clear", streamSid }))],
    the [interruption] case of every revision. *)
Definition send_clear : js unit :=
  let* ok := read twilio_ready in
  when ok
    (let* sid := read streamSid in
     twilio_send (JObj [("event", JStr "clear"); ("streamSid", sid)])).

(** [if (elevenWs && elevenWs.readyState === WebSocket.OPEN) elevenWs.close()],
    the [stop] case and the telephony [close] callback of every revision. *)
Definition close_eleven : js unit :=
  let* ok := read elevenWs_open in
  when ok (let* k := the_elevenWs in ws_close k).

(** ** Revision 1 *)
Module Rev1.
Section Closure.
Variable env : environment.

(** [elevenWs.on("open", ...)], lines 128-137 *)
Definition onOpen : js unit :=
  let* k := the_elevenWs in
  ws_send k (JObj [("type", JStr "conversation_initiation_client_data")]).

(** [case "audio"], lines 150-168 *)
Definition onAudio (msg : jsval) : js unit :=
  let* ok := read twilio_ready in
  when ok
    (let* audio := lift (prop msg "audio") in
     let* audio_event := lift (prop msg "audio_event") in
     let payload :=
       js_or (js_or (opt_chain audio "chunk")
                    (opt_chain audio_event "audio_base_64")) audio in
     when (nonempty_string payload)
       (let* sid := read streamSid in
        twilio_send
          (JObj [("event", JStr "media"); ("streamSid", sid);
                 ("media", JObj [("payload", payload)])]))).

(** [case "ping"], lines 185-192 *)
Definition onPing (msg : jsval) : js unit :=
  let* ping_event := lift (prop msg "ping_event") in
  let event_id := opt_chain ping_event "event_id" in
  let pong :=
    if truthy event_id
    then JObj [("type", JStr "pong"); ("event_id", event_id)]
    else JObj [("type", JStr "pong")] in
  let* k := the_elevenWs in
  ws_send k pong.

(** [elevenWs.on("message", ...)], lines 139-205.  The cases
    [agent_response], [user_transcript], [error] and [default] only log. *)
Definition onMessage (data : option jsval) : js unit :=
  try_catch
    (let* msg := lift data in
     let* type := lift (prop msg "type") in
     log_template [type] ;;
     if is_label type "conversation_initiation_metadata" then
       let* cid := lift (prop msg "conversation_id") in
       assign (set_conversationId cid)
     else if is_label type "audio" then onAudio msg
     else if is_label type "interruption" then send_clear
     else if is_label type "ping" then onPing msg
     else ret tt).

(** [elevenWs.on("close", ...)], lines 207-210 *)
Definition onClose : js unit := assign (set_elevenWs None).

(** [connectElevenLabs], lines 108-215 *)
Definition connectElevenLabs : js unit :=
  if missing (ELEVENLABS_API_KEY env) then ret tt
  else if missing (ELEVENLABS_AGENT_ID env) then ret tt
  else if agent_url_accepted env then
    let* k := ws_new in
    assign (set_elevenWs (Some k))
  else throw.

(** [case "media"], lines 233-242 *)
Definition onMedia (msg : jsval) : js unit :=
  let* ok := read elevenWs_open in
  when ok
    (let* k := the_elevenWs in
     let* media := lift (prop msg "media") in
     let* payload := lift (prop media "payload") in
     ws_send k (user_audio_frame payload)).

(** [twilioWs.on("message", ...)], lines 217-254 *)
Definition onTwilio (data : option jsval) : js unit :=
  try_catch
    (let* msg := lift data in
     let* ev := lift (prop msg "event") in
     if is_label ev "connected" then ret tt
     else if is_label ev "start" then
       let* start := lift (prop msg "start") in
       let* sid := lift (prop start "streamSid") in
       assign (set_streamSid sid) ;;
       let* cid := lift (prop start "callSid") in
       assign (set_callSid cid) ;;
       log_template [sid; cid] ;;
       connectElevenLabs
     else if is_label ev "media" then onMedia msg
     else if is_label ev "stop" then close_eleven
     else ret tt).

Definition callbacks : handlers :=
  mkHandlers onTwilio close_eleven (fun _ => ret tt) onOpen onMessage onClose.

(** the run of one call from the accepted telephony socket *)
Definition session_run (evs : list event) : session * list action :=
  run callbacks initial evs.
End Closure.
End Rev1.

(** ** Revisions 2 and 4 *)
Module Rev4.
Section Closure.
Variable env : environment.
(** [Buffer.from(v, "base64")] on an array or an object, where Node reads
    the argument as an array of bytes or throws; no handler depends on
    which. *)
Variable Buffer_from_object : jsval -> option (list nat).

(** [Buffer.from(v, "base64")]: a [TypeError] on [undefined], [null], a
    boolean or a number. *)
Definition Buffer_from (v : jsval) : option (list nat) :=
  match v with
  | JStr s => Some (base64_decode s)
  | JArr _ | JObj _ => Buffer_from_object v
  | _ => None
  end.

Definition initMsg : jsval :=
  JObj [("type", JStr "conversation_initiation_client_data");
        ("conversation_config_override",
         JObj [("agent",
                JObj [("prompt",
                       JObj [("prompt", JStr "Ты — Гоша, Growth Agent. Говоришь кратко, по-русски, прямым стилем. Помогаешь с бизнесом, ростом и стратегией.")]);
                      ("first_message", JStr "Привет, Арташес. Гоша на связи. Что будем растить сегодня?")])])].

(** [elevenWs.on("open", ...)], lines 774-791 *)
Definition onOpen : js unit :=
  let* k := the_elevenWs in
  ws_send k initMsg.

(** [case "audio"], lines 802-818 *)
Definition onAudio (msg : jsval) : js unit :=
  let* ok := read twilio_ready in
  when ok
    (let* audio := lift (prop msg "audio") in
     let* audio_event := lift (prop msg "audio_event") in
     let payload :=
       js_or (opt_chain audio "chunk") (opt_chain audio_event "audio_base_64") in
     when (truthy payload)
       (let* sid := read streamSid in
        twilio_send
          (JObj [("event", JStr "media"); ("streamSid", sid);
                 ("media", JObj [("payload", payload)])]))).

(** [case "ping"], lines 835-841 *)
Definition onPing (msg : jsval) : js unit :=
  let* ping_event := lift (prop msg "ping_event") in
  let event_id := opt_chain ping_event "event_id" in
  when (truthy event_id)
    (let* k := the_elevenWs in
     ws_send k (JObj [("type", JStr "pong"); ("event_id", event_id)])).

(** [elevenWs.on("message", ...)], lines 793-854.  The cases
    [conversation_initiation_metadata], [agent_response],
    [user_transcript], [error] and [default] only log. *)
Definition onMessage (data : option jsval) : js unit :=
  try_catch
    (let* msg := lift data in
     let* type := lift (prop msg "type") in
     if is_label type "audio" then onAudio msg
     else if is_label type "interruption" then send_clear
     else if is_label type "ping" then onPing msg
     else ret tt).

(** [elevenWs.on("close", ...)], lines 856-859 *)
Definition onClose : js unit := assign (set_elevenWs None).

(** [setupElevenLabs], lines 762-867, up to [await getSignedUrl()] *)
Definition setupElevenLabs : js unit :=
  if missing (ELEVENLABS_API_KEY env) || missing (ELEVENLABS_AGENT_ID env)
  then ret tt
  else emit GetSignedUrl ;; assign (set_pending true).

(** [setupElevenLabs] from the [await] on: [None] when [getSignedUrl]
    throws, [Some accepted] when it returns a URL. *)
Definition setupElevenLabs_resume (signedUrl : option bool) : js unit :=
  try_catch
    (let* accepted := lift signedUrl in
     if accepted : bool then
       let* k := ws_new in
       assign (set_elevenWs (Some k))
     else throw).

(** [case "media"], lines 887-896 *)
Definition onMedia (msg : jsval) : js unit :=
  let* ok := read elevenWs_open in
  when ok
    (let* media := lift (prop msg "media") in
     let* payload := lift (prop media "payload") in
     let* buf := lift (Buffer_from payload) in
     let* k := the_elevenWs in
     ws_send k (user_audio_frame (JStr (base64_encode buf)))).

(** [twilioWs.on("message", ...)], lines 872-908 *)
Definition onTwilio (data : option jsval) : js unit :=
  try_catch
    (let* msg := lift data in
     let* ev := lift (prop msg "event") in
     if is_label ev "connected" then ret tt
     else if is_label ev "start" then
       let* start := lift (prop msg "start") in
       let* sid := lift (prop start "streamSid") in
       assign (set_streamSid sid) ;;
       let* cid := lift (prop start "callSid") in
       assign (set_callSid cid)
     else if is_label ev "media" then onMedia msg
     else if is_label ev "stop" then close_eleven
     else ret tt).

Definition callbacks : handlers :=
  mkHandlers onTwilio close_eleven setupElevenLabs_resume onOpen onMessage onClose.

(** the closure once [wss.on("connection")] has returned: the variables
    are initialised and [setupElevenLabs()] has run up to its [await] *)
Definition accepted : session * list action := invoke setupElevenLabs initial.

(** the run of one call from the accepted telephony socket *)
Definition session_run (evs : list event) : session * list action :=
  let (s0, acts0) := accepted in
  let (s1, acts1) := run callbacks s0 evs in
  (s1, acts0 ++ acts1).
End Closure.
End Rev4.

(** ** Frames of the two protocols, as the peers send them *)

Definition start_msg (sid cid : string) : jsval :=
  JObj [("event", JStr "start");
        ("start", JObj [("streamSid", JStr sid); ("callSid", JStr cid)])].
Definition media_msg (payload : jsval) : jsval :=
  JObj [("event", JStr "media"); ("media", JObj [("payload", payload)])].
Definition stop_msg : jsval := JObj [("event", JStr "stop")].
Definition audio_msg (chunk : jsval) : jsval :=
  JObj [("type", JStr "audio"); ("audio", JObj [("chunk", chunk)])].
Definition audio_event_msg (audio_base_64 : jsval) : jsval :=
  JObj [("type", JStr "audio");
        ("audio_event", JObj [("audio_base_64", audio_base_64)])].
Definition interruption_msg : jsval := JObj [("type", JStr "interruption")].
Definition ping_msg (event_id : jsval) : jsval :=
  JObj [("type", JStr "ping"); ("ping_event", JObj [("event_id", event_id)])].

Definition env_ok : environment := mkEnv (Some "key") (Some "agent") true.
Definition no_objects : jsval -> option (list nat) := fun _ => None.

(** ** The vocabulary of the properties *)

(** *** Frames and states *)

(** [msg] is a telephony [media] frame carrying the string [payload]. *)
Definition is_media (msg : jsval) (payload : string) : Prop :=
  prop msg "event" = Some (JStr "media") /\
  exists media, prop msg "media" = Some media /\
                prop media "payload" = Some (JStr payload).

(** [msg] is an AI [audio] event whose chunk is the non-empty string
    [chunk], under [audio.chunk] or, when that key holds nothing, under
    [audio_event.audio_base_64]. *)
Definition is_audio_chunk (msg : jsval) (chunk : string) : Prop :=
  prop msg "type" = Some (JStr "audio") /\ chunk <> "" /\
  (opt_chain (opt_chain msg "audio") "chunk" = JStr chunk \/
   (truthy (opt_chain (opt_chain msg "audio") "chunk") = false /\
    opt_chain (opt_chain msg "audio_event") "audio_base_64" = JStr chunk)).

(** [msg] is a telephony [start] frame carrying [sid] and [cid]. *)
Definition is_start_frame (msg sid cid : jsval) : Prop :=
  prop msg "event" = Some (JStr "start") /\
  exists start, prop msg "start" = Some start /\
                prop start "streamSid" = Some sid /\
                prop start "callSid" = Some cid.

(** [data] is a telephony frame of the [start] case. *)
Definition is_start (data : option jsval) : bool :=
  match data with
  | Some msg => is_label (opt_chain msg "event") "start"
  | None => false
  end.

Definition is_start_event (e : event) : bool :=
  match e with
  | TwilioMessage data => is_start data
  | _ => false
  end.

(** the [event_id] a ping carries *)
Definition ping_id (msg : jsval) : jsval :=
  opt_chain (opt_chain msg "ping_event") "event_id".

Definition pong_frame (event_id : jsval) : jsval :=
  JObj [("type", JStr "pong"); ("event_id", event_id)].

(** The two commands of the telephony side, as the specification words
    them: [PlayAudio], [{"event":"media", "streamSid": sid, "media":
    {"payload": payload}}], and [ClearBuffer], [{"event":"clear",
    "streamSid": sid}].  No handler is written with them; the properties
    compare what the handlers write with them. *)
Definition media_frame (sid payload : jsval) : jsval :=
  JObj [("event", JStr "media"); ("streamSid", sid);
        ("media", JObj [("payload", payload)])].
Definition clear_frame (sid : jsval) : jsval :=
  JObj [("event", JStr "clear"); ("streamSid", sid)].

(** the payload selected by [case "audio"] of revision 1 *)
Definition Rev1_selected (msg : jsval) : jsval :=
  js_or (js_or (opt_chain (opt_chain msg "audio") "chunk")
               (opt_chain (opt_chain msg "audio_event") "audio_base_64"))
        (opt_chain msg "audio").

(** the payload selected by [case "audio"] of revisions 2 and 4 *)
Definition Rev4_selected (msg : jsval) : jsval :=
  js_or (opt_chain (opt_chain msg "audio") "chunk")
        (opt_chain (opt_chain msg "audio_event") "audio_base_64").

(** what a frame written to the telephony socket during the handling of
    [msg] can be *)
Definition written_for (selected : jsval -> jsval) (s : session) (msg frame : jsval) : Prop :=
  (prop msg "type" = Some (JStr "interruption") /\
   frame = JSON_stringify (clear_frame (streamSid s))) \/
  (prop msg "type" = Some (JStr "audio") /\
   frame = JSON_stringify (media_frame (streamSid s) (selected msg))).

(** AI socket [k] can deliver a frame. *)
Definition delivers (s : session) (k : nat) : Prop :=
  sockets s !! k = Some OPEN \/ sockets s !! k = Some CLOSING.

(** a call in progress: [start] has been processed and the AI socket is
    open *)
Definition active : session :=
  mkSession (JStr "MZ1") (JStr "CA1") (Some 0) JNull OPEN [OPEN] false false.

Definition env_no_key : environment := mkEnv None (Some "agent") true.

(** *** What one callback can do *)

(** [s'] differs from [s] in [streamSid], [callSid] and [conversationId]
    at most. *)
Definition same_sockets (s s' : session) : Prop :=
  sockets s' = sockets s /\ twilioWs s' = twilioWs s /\
  elevenWs s' = elevenWs s /\ pending s' = pending s /\ crashed s' = crashed s.

(** The outcomes of an AI [message] callback: nothing but assignments to
    the identifiers, one frame to the telephony socket, or one frame to the
    socket [elevenWs] refers to. *)
Inductive message_effect (s : session) : session -> list action -> Prop :=
| me_quiet s' : same_sockets s s' -> message_effect s s' []
| me_twilio frame :
    twilio_ready s = true -> message_effect s s [TwilioSend frame]
| me_eleven k frame :
    elevenWs s = Some k -> ready s k = OPEN ->
    message_effect s s [ElevenSend k frame].

(** The outcomes of the other callbacks: assignments to the identifiers,
    one frame to the AI socket, [close()] on the open AI socket, a new AI
    socket (only where [connect] allows it), or [elevenWs = null]. *)
Inductive control_effect (connect : bool) (s : session) :
  session -> list action -> Prop :=
| ce_quiet s' : same_sockets s s' -> control_effect connect s s' []
| ce_eleven k frame :
    elevenWs s = Some k -> ready s k = OPEN ->
    control_effect connect s s [ElevenSend k frame]
| ce_close k :
    elevenWs s = Some k -> ready s k = OPEN ->
    control_effect connect s
      (set_sockets (<[k := CLOSING]> (sockets s)) s) [ElevenClose k]
| ce_new s1 :
    connect = true -> same_sockets s s1 ->
    control_effect connect s
      (set_elevenWs (Some (length (sockets s)))
         (set_sockets (sockets s ++ [CONNECTING]) s1))
      [ElevenNew (length (sockets s))]
| ce_null : control_effect connect s (set_elevenWs None s) [].

Definition url_accepted (signedUrl : option bool) : bool :=
  match signedUrl with
  | Some true => true
  | _ => false
  end.

(** the environment lets revision 1 create the AI socket *)
Definition can_connect (env : environment) : bool :=
  negb (missing (ELEVENLABS_API_KEY env)) &&
  negb (missing (ELEVENLABS_AGENT_ID env)) && agent_url_accepted env.

(** *** What one step of the event loop can do *)

(** What [ws] and the event loop do to the session before a callback
    runs. *)
Inductive pre_step (s : session) : session -> Prop :=
| pre_same : pre_step s s
| pre_twilio r : r <> OPEN -> pre_step s (set_twilioWs r s)
| pre_settled : pre_step s (set_pending false s)
| pre_opened k :
    sockets s !! k = Some CONNECTING ->
    pre_step s (set_sockets (<[k := OPEN]> (sockets s)) s)
| pre_ended k r :
    is_Some (sockets s !! k) -> r = CLOSING \/ r = CLOSED ->
    pre_step s (set_sockets (<[k := r]> (sockets s)) s).

(** The callbacks of a revision keep to the shapes above; [connects_on]
    and [connects_url] tell on which telephony frames and on which outcomes
    of [getSignedUrl] an AI socket may be created. *)
Record disciplined (h : handlers) (connects_on : option jsval -> bool)
    (connects_url : option bool -> bool) : Prop := mkDisciplined {
  d_twilio : forall data s, exists s' acts,
      onTwilioMessage h data s = (Some tt, s', acts) /\
      control_effect (connects_on data) s s' acts;
  d_twilio_close : forall s, exists s' acts,
      onTwilioClose h s = (Some tt, s', acts) /\ control_effect false s s' acts;
  d_url : forall signedUrl s, exists s' acts,
      onSignedUrl h signedUrl s = (Some tt, s', acts) /\
      control_effect (connects_url signedUrl) s s' acts;
  d_open : forall s, exists r s' acts,
      onElevenOpen h s = (r, s', acts) /\ control_effect false s s' acts;
  d_message : forall data s, exists s' acts,
      onElevenMessage h data s = (Some tt, s', acts) /\ message_effect s s' acts;
  d_close : forall s, onElevenClose h s = (Some tt, set_elevenWs None s, [])
}.

(** [e] may create an AI socket in state [s]. *)
Definition connects (connects_on : option jsval -> bool)
    (connects_url : option bool -> bool) (s : session) (e : event) : bool :=
  match e with
  | TwilioMessage data => connects_on data
  | SignedUrlResolved accepted => pending s && connects_url (Some accepted)
  | SignedUrlRejected => pending s && connects_url None
  | _ => false
  end.

(** One step seen from outside: the move [ws] makes, then one callback of a
    known shape, then the end of the process if the callback threw. *)
Inductive step_shape (connect : bool) (s : session) : session -> list action -> Prop :=
| shape_control s0 s1 acts :
    pre_step s s0 -> control_effect connect s0 s1 acts ->
    step_shape connect s s1 acts
| shape_thrown k s1 acts :
    sockets s !! k = Some CONNECTING ->
    control_effect false (set_sockets (<[k := OPEN]> (sockets s)) s) s1 acts ->
    step_shape connect s (set_crashed true s1) (acts ++ [Uncaught])
| shape_message k s1 acts :
    is_Some (sockets s !! k) -> message_effect s s1 acts ->
    step_shape connect s s1 acts.

(** *** Runs *)

Definition is_close (k : nat) (a : action) : bool :=
  match a with
  | ElevenClose j => Nat.eqb j k
  | _ => false
  end.

(** the number of calls of [close()] on AI socket [k] *)
Definition closes (k : nat) (acts : list action) : nat :=
  length (List.filter (is_close k) acts).

(** the number of calls of [close()] on the telephony socket *)
Definition twilio_closes (acts : list action) : nat :=
  length (List.filter (fun a => match a with TwilioClose => true | _ => false end) acts).

(** AI socket [k] has left the [OPEN] state for good. *)
Definition past (s : session) (k : nat) : Prop :=
  sockets s !! k = Some CLOSING \/ sockets s !! k = Some CLOSED.

(** no AI socket has been created *)
Definition no_ai (s : session) : Prop :=
  sockets s = [] /\ elevenWs s = None /\ crashed s = false.

(** the outcome of [getSignedUrl]: the first settling event *)
Fixpoint handshake (evs : list event) : option bool :=
  match evs with
  | [] => None
  | SignedUrlResolved accepted :: _ => Some accepted
  | SignedUrlRejected :: _ => Some false
  | _ :: rest => handshake rest
  end.

Definition is_settle (e : event) : bool :=
  match e with
  | SignedUrlResolved _ | SignedUrlRejected => true
  | _ => false
  end.

(** the telephony socket closes or fails *)
Definition telephony_ends (e : event) : bool :=
  match e with
  | TwilioClosed | TwilioError => true
  | _ => false
  end.

(** ** More vocabulary: deliveries and what is written to the AI socket *)

(** The callback that [step] runs for [e] in state [s], with the session
    it runs on, when [ws] delivers the event and a callback is registered
    that does more than log. *)
Definition delivery (h : handlers) (s : session) (e : event) : option (js unit * session) :=
  if crashed s then None
  else
    match e with
    | TwilioMessage data =>
        match twilioWs s with
        | OPEN => Some (onTwilioMessage h data, s)
        | _ => None
        end
    | TwilioClosed =>
        match twilioWs s with
        | CLOSED => None
        | _ => Some (onTwilioClose h, set_twilioWs CLOSED s)
        end
    | TwilioError => None
    | SignedUrlResolved accepted =>
        if pending s then Some (onSignedUrl h (Some accepted), set_pending false s)
        else None
    | SignedUrlRejected =>
        if pending s then Some (onSignedUrl h None, set_pending false s) else None
    | ElevenOpen k =>
        match sockets s !! k with
        | Some CONNECTING =>
            Some (onElevenOpen h, set_sockets (<[k := OPEN]> (sockets s)) s)
        | _ => None
        end
    | ElevenMessage k data =>
        match sockets s !! k with
        | Some OPEN | Some CLOSING => Some (onElevenMessage h data, s)
        | _ => None
        end
    | ElevenClosed k =>
        match sockets s !! k with
        | Some CONNECTING | Some OPEN | Some CLOSING =>
            Some (onElevenClose h, set_sockets (<[k := CLOSED]> (sockets s)) s)
        | _ => None
        end
    | ElevenError k => None
    end.

(** The frame [frame] is one the server writes to the AI socket for the
    event [e]: the initiation message [init] when the socket opens, a
    [user_audio_chunk] message for a telephony [media] frame, whose payload
    [recode] turns into what is sent, or the reply [pong] makes to the
    [event_id] of a [ping]. *)
Definition ai_frame (init : jsval) (recode pong : jsval -> option jsval)
    (e : event) (frame : jsval) : Prop :=
  match e with
  | ElevenOpen _ => frame = JSON_stringify init
  | TwilioMessage (Some msg) =>
      prop msg "event" = Some (JStr "media") /\
      exists media payload sent,
        prop msg "media" = Some media /\ prop media "payload" = Some payload /\
        recode payload = Some sent /\
        frame = JSON_stringify (user_audio_frame sent)
  | ElevenMessage _ (Some msg) =>
      prop msg "type" = Some (JStr "ping") /\
      exists reply, pong (ping_id msg) = Some reply /\ frame = JSON_stringify reply
  | _ => False
  end.

Definition Rev1_init : jsval :=
  JObj [("type", JStr "conversation_initiation_client_data")].

(** revision 1 replies to every ping, with the [event_id] when it is
    truthy *)
Definition Rev1_pong (event_id : jsval) : option jsval :=
  Some (if truthy event_id then pong_frame event_id
        else JObj [("type", JStr "pong")]).

(** revisions 2 and 4 reply only to a ping with a truthy [event_id] *)
Definition Rev4_pong (event_id : jsval) : option jsval :=
  if truthy event_id then Some (pong_frame event_id) else None.

(** revisions 2 and 4 send the payload decoded and encoded again *)
Definition Rev4_recode (Buffer_from_object : jsval -> option (list nat))
    (payload : jsval) : option jsval :=
  match Rev4.Buffer_from Buffer_from_object payload with
  | Some buf => Some (JStr (base64_encode buf))
  | None => None
  end.

(** *** One AI socket per call (revisions 2 and 4) *)

Definition is_new (a : action) : bool :=
  match a with
  | ElevenNew _ => true
  | _ => false
  end.

(** the number of AI sockets created *)
Definition news (acts : list action) : nat := length (List.filter is_new acts).

Definition is_eleven_send (a : action) : bool :=
  match a with
  | ElevenSend _ _ => true
  | _ => false
  end.

(** the messages written to the AI sockets, in order *)
Definition eleven_sends (acts : list action) : list action :=
  List.filter is_eleven_send acts.

(** What holds of a session of revisions 2 and 4 at every moment: the
    process is running; there is no AI socket, or there is one, the request
    for the signed URL has settled, and [elevenWs] refers to the socket until
    it has closed. *)
Definition rev4_inv (s : session) : Prop :=
  crashed s = false /\
  match sockets s with
  | [] => elevenWs s = None
  | [r] =>
      pending s = false /\
      elevenWs s = match r with CLOSED => None | _ => Some 0 end
  | _ => False
  end.

(** the messages written to the AI sockets begin with the initiation
    message of revisions 2 and 4, which is not written again *)
Definition init_first (acts : list action) : Prop :=
  match eleven_sends acts with
  | [] => True
  | a :: rest =>
      a = ElevenSend 0 (JSON_stringify Rev4.initMsg) /\
      forall k, ~ In (ElevenSend k (JSON_stringify Rev4.initMsg)) rest
  end.

(** *** Frames no case handles *)

(** the labels of the telephony [switch] that do something *)
Definition twilio_case (ev : jsval) : bool :=
  is_label ev "start" || is_label ev "media" || is_label ev "stop".

(** the labels of the AI [switch] that do more than log, in revisions 2
    and 4 and in revision 1 *)
Definition Rev4_case (type : jsval) : bool :=
  is_label type "audio" || is_label type "interruption" || is_label type "ping".
Definition Rev1_case (type : jsval) : bool :=
  is_label type "conversation_initiation_metadata" || Rev4_case type.

(** [data] does not parse, is [null], or holds under [field] none of the
    labels [cases] *)
Definition unhandled (field : string) (cases : jsval -> bool) (data : option jsval) : bool :=
  match data with
  | None => true
  | Some msg =>
      match prop msg field with
      | None => true
      | Some label => negb (cases label)
      end
  end.

(** ** The HTTP side of [server.js] (revision 4, lines 564-748)

    The routes are embedded as functions from the settings read from
    [process.env] and the parts of the request they read to the response
    they send.  A string stands for its UTF-8 text, so a character outside
    ASCII takes several of the 8-bit characters.  The lines a route passes
    to [log] are not part of its response; [log] itself and the buffer
    [/debug] prints are embedded first. *)
Module Http.

(** *** [log] and [/debug] *)

Definition MAX_LOGS : nat := 200.

(** [log(msg)], lines 584-589 (the same text at lines 18-23 and 292-297):
    [now] is [new Date().toISOString()], the result is [logBuffer] after
    the call. *)
Definition log (now msg : string) (logBuffer : list string) : list string :=
  let line := (now ++ " " ++ msg)%string in
  let logBuffer := (logBuffer ++ [line])%list in
  if (MAX_LOGS <? length logBuffer)%nat then List.tl logBuffer else logBuffer.

(** the buffer after a series of calls, each with its time and message *)
Definition logged (calls : list (string * string)) (logBuffer : list string) : list string :=
  List.fold_left (fun buffer call => log (fst call) (snd call) buffer) calls logBuffer.

(** [a.join(sep)] on an array of strings *)
Fixpoint Array_join (sep : string) (a : list string) : string :=
  match a with
  | [] => ""
  | [x] => x
  | x :: rest => (x ++ sep ++ Array_join sep rest)%string
  end.

Definition newline : string := String (ascii_of_nat 10) "".

(** what is sent to the client *)
Inductive response : Type :=
| Json (status : nat) (body : jsval)
| Send (status : nat) (type : string) (body : string).

(** the handler of [GET /debug], lines 688-690 *)
Definition debug (logBuffer : list string) : response :=
  let text := Array_join newline logBuffer in
  Send 200 "text/plain" (if String.eqb text "" then "(no logs yet)" else text).

(** *** Settings and requests *)

(** the constants read from [process.env], lines 571-578; [eleven] holds
    [ELEVENLABS_API_KEY] and [ELEVENLABS_AGENT_ID] *)
Record settings : Type := mkSettings {
  TWILIO_SID : option string;
  TWILIO_TOKEN : option string;
  eleven : environment;
  CALL_TO : option string;
  TWILIO_NUMBER : option string;
  VOICE_API_KEY : option string;
  ALLOWED_HOST : option string
}.

(** What the routes read of a request.  A header is [None] when the
    request does not carry it; [body] is [req.body] as the body parsers
    leave it. *)
Record request : Type := mkRequest {
  path : string;
  originalUrl : string;
  x_api_key : option string;
  authorization : option string;
  x_twilio_signature : option string;
  x_forwarded_proto : option string;
  host : option string;
  body : jsval
}.

(** [req.headers[name]] as a value *)
Definition header (h : option string) : jsval :=
  match h with
  | Some s => JStr s
  | None => JUndefined
  end.

(** [X || fallback] for a setting or a header, in a template literal *)
Definition or_else (x : option string) (fallback : string) : string :=
  match x with
  | Some s => if String.eqb s "" then fallback else s
  | None => fallback
  end.

(** what a middleware does: [next()] or a response *)
Inductive verdict : Type :=
| next
| reply (r : response).

(** *** [safeEqual] and [requireAuth] *)

Fixpoint bytes_eqb (a b : list ascii) : bool :=
  match a, b with
  | [], [] => true
  | x :: a', y :: b' => Ascii.eqb x y && bytes_eqb a' b'
  | _, _ => false
  end.

(** [crypto.timingSafeEqual(a, b)]: a [RangeError] ([None]) when the
    lengths differ *)
Definition timingSafeEqual (a b : list ascii) : option bool :=
  if (length a =? length b)%nat then Some (bytes_eqb a b) else None.

Section SafeEqual.
(** [Buffer.from(s)] on a string, a builtin of Node: the bytes of the
    UTF-8 encoding of [s].  It does not tell all strings apart: a surrogate
    without its pair has no UTF-8 encoding and is written EF BF BD,
    whichever surrogate it is.  [safeEqual] is embedded over the builtin,
    whatever it does. *)
Variable Buffer_from : string -> list ascii.

(** [safeEqual], lines 611-617 *)
Definition safeEqual (a b : jsval) : option bool :=
  match a, b with
  | JStr a, JStr b =>
      let bufA := Buffer_from a in
      let bufB := Buffer_from b in
      if negb (length bufA =? length bufB)%nat then Some false
      else timingSafeEqual bufA bufB
  | _, _ => Some false
  end.
End SafeEqual.

(** [Buffer.from] on the two strings [requireAuth] compares: a header
    value, which Node decodes from the bytes of the request as Latin-1, and
    [VOICE_API_KEY], which it decodes from the UTF-8 bytes of the
    environment.  Neither holds a surrogate, so the bytes are those of the
    UTF-8 text the string stands for. *)
Definition Buffer_from_text (s : string) : list ascii := list_ascii_of_string s.

(** a letter of a pattern under the flag [i]: the letter or its capital *)
Definition letter_i (lower : ascii) (c : ascii) : bool :=
  Ascii.eqb c lower || (nat_of_ascii c + 32 =? nat_of_ascii lower)%nat.

(** The text left when the characters of the class [\s] at the head of
    the string are removed: tab, line feed, vertical tab, form feed,
    carriage return, space, and in UTF-8 the no-break space (C2 A0), U+1680
    (E1 9A 80), U+2000 to U+200A (E2 80 80 to 8A), U+2028, U+2029, U+202F
    (E2 80 A8, A9, AF), U+205F (E2 81 9F), U+3000 (E3 80 80) and U+FEFF
    (EF BB BF). *)
Fixpoint skip_spaces (s : string) : string :=
  match s with
  | String c1 r1 =>
      let n1 := nat_of_ascii c1 in
      if (((9 <=? n1) && (n1 <=? 13)) || (n1 =? 32))%nat then skip_spaces r1
      else
        match r1 with
        | String c2 r2 =>
            let n2 := nat_of_ascii c2 in
            if ((n1 =? 194) && (n2 =? 160))%nat then skip_spaces r2
            else
              match r2 with
              | String c3 r3 =>
                  let n3 := nat_of_ascii c3 in
                  if (((n1 =? 225) && (n2 =? 154) && (n3 =? 128))
                      || ((n1 =? 226) && (n2 =? 128) &&
                          (((128 <=? n3) && (n3 <=? 138)) || (n3 =? 168) ||
                           (n3 =? 169) || (n3 =? 175)))
                      || ((n1 =? 226) && (n2 =? 129) && (n3 =? 159))
                      || ((n1 =? 227) && (n2 =? 128) && (n3 =? 128))
                      || ((n1 =? 239) && (n2 =? 187) && (n3 =? 191)))%nat
                  then skip_spaces r3
                  else s
              | EmptyString => s
              end
        | EmptyString => s
        end
  | EmptyString => s
  end.

(** [s.replace(/^Bearer\s+/i, "")] *)
Definition strip_bearer (s : string) : string :=
  match s with
  | String b (String e (String a (String r (String e' (String r' rest))))) =>
      if letter_i "b" b && letter_i "e" e && letter_i "a" a &&
         letter_i "r" r && letter_i "e" e' && letter_i "r" r'
      then
        let rest' := skip_spaces rest in
        if (String.length rest' <? String.length rest)%nat then rest' else s
      else s
  | _ => s
  end.

(** the credential a request presents, lines 601-603 *)
Definition provided (req : request) : jsval :=
  js_or (header (x_api_key req))
        (match authorization req with
         | Some a => JStr (strip_bearer a)
         | None => JUndefined
         end).

(** [requireAuth], lines 592-609; [None] if it throws *)
Definition requireAuth (cfg : settings) (req : request) : option verdict :=
  if String.eqb (path req) "/voice" then Some next
  else if missing (VOICE_API_KEY cfg) then
    Some (reply (Json 503 (JObj [("error", JStr "Server not configured")])))
  else
    let unauthorized := reply (Json 401 (JObj [("error", JStr "Unauthorized")])) in
    if negb (truthy (provided req)) then Some unauthorized
    else
      match safeEqual Buffer_from_text (provided req) (header (VOICE_API_KEY cfg)) with
      | Some true => Some next
      | Some false => Some unauthorized
      | None => None
      end.

(** *** [getValidatedHost] and [/voice] *)

(** a character of the class [[a-zA-Z0-9._:-]] *)
Definition host_char (c : ascii) : bool :=
  let n := nat_of_ascii c in
  (((97 <=? n) && (n <=? 122)) || ((65 <=? n) && (n <=? 90)) ||
   ((48 <=? n) && (n <=? 57)) ||
   (n =? 46) || (n =? 95) || (n =? 58) || (n =? 45))%nat.

(** [/^[a-zA-Z0-9._:-]+$/.test(s)] *)
Definition host_pattern (s : string) : bool :=
  negb (String.eqb s "") && forallb host_char (list_ascii_of_string s).

(** [getValidatedHost], lines 639-649; [None] is [null] *)
Definition getValidatedHost (cfg : settings) (req : request) : option string :=
  if negb (missing (ALLOWED_HOST cfg)) then ALLOWED_HOST cfg
  else
    let host := or_else (host req) "" in
    if negb (host_pattern host) then None else Some host.

Definition quote : string := String (ascii_of_nat 34) "".

(** the TwiML of lines 703-708 *)
Definition twiml (wsUrl : string) : string :=
  ("<?xml version=" ++ quote ++ "1.0" ++ quote ++ " encoding=" ++ quote ++ "UTF-8"
     ++ quote ++ "?>" ++ newline ++
   "<Response>" ++ newline ++
   "  <Connect>" ++ newline ++
   "    <Stream url=" ++ quote ++ wsUrl ++ quote ++ " />" ++ newline ++
   "  </Connect>" ++ newline ++
   "</Response>")%string.

(** the handler of [POST /voice], lines 694-711 *)
Definition voice (cfg : settings) (req : request) : response :=
  let host := getValidatedHost cfg req in
  if missing host then Send 400 "text/html" "Bad Request"
  else
    let wsUrl := ("wss://" ++ or_else host "" ++ "/twilio-stream")%string in
    Send 200 "text/xml" (twiml wsUrl).

(** *** [/call] *)

(** [String(v)]: [None] for the [TypeError] of an object that has a
    property of its own named [toString]. *)
Fixpoint ToString (v : jsval) : option string :=
  match v with
  | JUndefined => Some "undefined"
  | JNull => Some "null"
  | JBool b => Some (if b then "true" else "false")
  | JNum n => Some (NilZero.string_of_int (Z.to_int n))
  | JStr s => Some s
  | JArr items =>
      (fix elements (l : list jsval) : option string :=
         match l with
         | [] => Some ""
         | x :: rest =>
             match (match x with
                    | JUndefined | JNull => Some ""
                    | _ => ToString x
                    end), elements rest with
             | Some a, Some b =>
                 Some (match rest with
                       | [] => a
                       | _ => (a ++ "," ++ b)%string
                       end)
             | _, _ => None
             end
         end) items
  | JObj fields =>
      if existsb (fun kv => String.eqb (fst kv) "toString") fields then None
      else Some "[object Object]"
  end.

(** a character of the class [\d] *)
Definition digit (c : ascii) : bool :=
  ((48 <=? nat_of_ascii c) && (nat_of_ascii c <=? 57))%nat.

(** [/^\+[1-9]\d{6,14}$/.test(s)] *)
Definition e164 (s : string) : bool :=
  match s with
  | String plus (String d rest) =>
      Ascii.eqb plus "+" &&
      ((49 <=? nat_of_ascii d) && (nat_of_ascii d <=? 57))%nat &&
      forallb digit (list_ascii_of_string rest) &&
      ((6 <=? String.length rest) && (String.length rest <=? 14))%nat
  | _ => false
  end.

(** what the handler of [/call] does: a response at once, or a request
    to Twilio for a call and the response that follows its outcome;
    [throws] is an exception that leaves the [async] handler *)
Inductive call_outcome : Type :=
| responds (r : response)
| creates (to : jsval) (from url : string) (r : response)
| throws.

Section Routes.
(** [twilio.validateRequest(authToken, signature, url, params)] *)
Variable validateRequest : string -> string -> string -> jsval -> bool.
(** [twilio(TWILIO_SID, TWILIO_TOKEN).calls.create({to, from, url})], the
    two statements of lines 735-740: the [sid] of the call, or [None] when
    the constructor throws or the promise rejects, with an [Error] *)
Variable calls_create : string -> string -> jsval -> string -> string -> option string.

(** [validateTwilioRequest], lines 620-636 *)
Definition validateTwilioRequest (cfg : settings) (req : request) : verdict :=
  match TWILIO_TOKEN cfg with
  | None => next
  | Some token =>
      if String.eqb token "" then next
      else
        let forbidden := reply (Send 403 "text/html" "Forbidden") in
        match x_twilio_signature req with
        | None => forbidden
        | Some twilioSignature =>
            if String.eqb twilioSignature "" then forbidden
            else
              let proto := or_else (x_forwarded_proto req) "https" in
              let host :=
                if negb (missing (ALLOWED_HOST cfg))
                then or_else (ALLOWED_HOST cfg) ""
                else match host req with
                     | Some h => h
                     | None => "undefined"
                     end in
              let url := (proto ++ "://" ++ host ++ originalUrl req)%string in
              let valid :=
                validateRequest token twilioSignature url
                  (js_or (body req) (JObj [])) in
              if negb valid then forbidden else next
        end
  end.

(** [app.post("/voice", validateTwilioRequest, ...)], line 694 *)
Definition voice_route (cfg : settings) (req : request) : response :=
  match validateTwilioRequest cfg req with
  | next => voice cfg req
  | reply r => r
  end.

(** the handler of [POST /call], lines 714-748 *)
Definition call (cfg : settings) (req : request) : call_outcome :=
  if missing (TWILIO_SID cfg) || missing (TWILIO_TOKEN cfg) then
    responds (Json 500 (JObj [("error", JStr "Twilio credentials not configured")]))
  else if missing (TWILIO_NUMBER cfg) then
    responds (Json 500 (JObj [("error", JStr "TWILIO_NUMBER not configured")]))
  else
    let to := js_or (opt_chain (body req) "to") (header (CALL_TO cfg)) in
    let invalid :=
      responds (Json 400 (JObj [("error", JStr "Invalid phone number. Must be E.164 format (e.g. +14155551234)")])) in
    if negb (truthy to) then invalid
    else
      match ToString to with
      | None => throws
      | Some text =>
          if negb (e164 text) then invalid
          else
            let host := getValidatedHost cfg req in
            if missing host then
              responds (Json 400 (JObj [("error", JStr "Invalid host")]))
            else
              let voiceUrl := ("https://" ++ or_else host "" ++ "/voice")%string in
              let from := or_else (TWILIO_NUMBER cfg) "" in
              match calls_create (or_else (TWILIO_SID cfg) "")
                      (or_else (TWILIO_TOKEN cfg) "") to from voiceUrl with
              | Some sid =>
                  creates to from voiceUrl
                    (Json 200 (JObj [("ok", JBool true); ("callSid", JStr sid)]))
              | None =>
                  creates to from voiceUrl
                    (Json 500 (JObj [("error", JStr "Failed to create call")]))
              end
      end.

(** a route behind [requireAuth]: [None] if the middleware throws *)
Definition behind_auth {A} (cfg : settings) (req : request) (handler : A) (sent : response -> A) : option A :=
  match requireAuth cfg req with
  | Some next => Some handler
  | Some (reply r) => Some (sent r)
  | None => None
  end.

(** [app.post("/call", requireAuth, ...)], line 714 *)
Definition call_route (cfg : settings) (req : request) : option call_outcome :=
  behind_auth cfg req (call cfg req) responds.
End Routes.

(** *** [/] *)

Definition set_or_MISSING (x : option string) : jsval :=
  JStr (if missing x then "MISSING" else "set").

(** the handler of [GET /], lines 672-685 *)
Definition health (cfg : settings) : response :=
  Json 200
    (JObj [("status", JStr "ok");
           ("service", JStr "voice-server");
           ("env",
            JObj [("TWILIO_SID", set_or_MISSING (TWILIO_SID cfg));
                  ("TWILIO_TOKEN", set_or_MISSING (TWILIO_TOKEN cfg));
                  ("TWILIO_NUMBER", set_or_MISSING (TWILIO_NUMBER cfg));
                  ("ELEVENLABS_API_KEY", set_or_MISSING (ELEVENLABS_API_KEY (eleven cfg)));
                  ("ELEVENLABS_AGENT_ID", set_or_MISSING (ELEVENLABS_AGENT_ID (eleven cfg)));
                  ("CALL_TO", set_or_MISSING (CALL_TO cfg))])]).

(** [app.get("/", requireAuth, ...)] and [app.get("/debug", requireAuth, ...)] *)
Definition health_route (cfg : settings) (req : request) : option response :=
  behind_auth cfg req (health cfg) (fun r => r).
Definition debug_route (cfg : settings) (req : request) (logBuffer : list string) : option response :=
  behind_auth cfg req (debug logBuffer) (fun r => r).

(** *** [getSignedUrl] *)

(** the characters [encodeURIComponent] leaves as they are *)
Definition unreserved (c : ascii) : bool :=
  let n := nat_of_ascii c in
  (((97 <=? n) && (n <=? 122)) || ((65 <=? n) && (n <=? 90)) ||
   ((48 <=? n) && (n <=? 57)) ||
   (n =? 45) || (n =? 95) || (n =? 46) || (n =? 33) || (n =? 126) ||
   (n =? 42) || (n =? 39) || (n =? 40) || (n =? 41))%nat.

Definition hex_digit (n : nat) : ascii :=
  match String.get n "0123456789ABCDEF" with
  | Some c => c
  | None => "0"%char
  end.

(** the escape of one byte *)
Definition percent (c : ascii) : string :=
  let n := nat_of_ascii c in
  String "%" (String (hex_digit (n / 16)) (String (hex_digit (n mod 16)) "")).

(** [encodeURIComponent(s)]: every byte of the UTF-8 text of a character
    that is not unreserved is escaped *)
Fixpoint encodeURIComponent (s : string) : string :=
  match s with
  | EmptyString => ""
  | String c rest =>
      ((if unreserved c then String c "" else percent c) ++ encodeURIComponent rest)%string
  end.

(** the URL [getSignedUrl] fetches, lines 653-654 *)
Definition signed_url_request (cfg : settings) : string :=
  ("https://api.elevenlabs.io/v1/convai/conversation/get_signed_url?agent_id="
     ++ encodeURIComponent (match ELEVENLABS_AGENT_ID (eleven cfg) with
                            | Some id => id
                            | None => "undefined"
                            end))%string.
End Http.

(** *** Vocabulary for the properties of the HTTP side *)

(** a string with its capital ASCII letters made small *)
Definition lower_char (c : ascii) : ascii :=
  let n := nat_of_ascii c in
  if ((65 <=? n) && (n <=? 90))%nat then ascii_of_nat (n + 32) else c.

Fixpoint lower (s : string) : string :=
  match s with
  | EmptyString => EmptyString
  | String c rest => String (lower_char c) (lower rest)
  end.

(** [w] is made of characters of the class [\s] only *)
Definition spaces (w : string) : Prop := Http.skip_spaces w = "".

(** ** [getSignedUrl] and the handshake (revisions 2 and 4) *)

(** what [fetch] resolved to: [response.ok], and the outcome of
    [response.json()], [None] when the body is not JSON *)
Record fetched : Type := mkFetched {
  response_ok : bool;
  response_json : option jsval
}.

(** [getSignedUrl], lines 652-665 (and 300-313), from the outcome of
    [fetch] ([None] when it rejects): the value returned, or [None] when the
    function throws *)
Definition getSignedUrl (response : option fetched) : option jsval :=
  match response with
  | None => None
  | Some r =>
      if negb (response_ok r) then None
      else
        match response_json r with
        | None => None
        | Some data => prop data "signed_url"
        end
  end.

(** the event with which [setupElevenLabs] resumes after its [await];
    [accepts] tells whether [new WebSocket] takes a value as its URL *)
Definition settlement (response : option fetched) (accepts : jsval -> bool) : event :=
  match getSignedUrl response with
  | Some signedUrl => SignedUrlResolved (accepts signedUrl)
  | None => SignedUrlRejected
  end.

(** * Properties *)

(** ** The base64 codec *)

Section ListBy3.
Variables (A : Type) (P : list A -> Prop).
Hypothesis P0 : P [].
Hypothesis P1 : forall a, P [a].
Hypothesis P2 : forall a b, P [a; b].
Hypothesis P3 : forall a b c l, P l -> P (a :: b :: c :: l).

End ListBy3.




Ltac Zify.zify_post_hook ::= Z.to_euclidean_division_equations.



(** ** Symbolic execution of the handlers *)

Ltac unfold_js :=
  repeat progress unfold try_catch, when, log_template, send_clear, close_eleven,
    twilio_send, ws_send, ws_close, ws_new, the_elevenWs, lift, bind, ret, throw,
    read, assign, emit, elevenWs_open, twilio_ready in *.

Ltac atomic x :=
  lazymatch x with
  | context [match _ with _ => _ end] => fail
  | context [if _ then _ else _] => fail
  | _ => idtac
  end.

(** Symbolic execution of a handler: reduce, use the equations at hand,
    and split on the next test. *)
Ltac exec_step :=
  first
    [ progress cbn [fst snd app is_open negb andb orb]
    | match goal with
      | H : ?x = _ |- context [match ?x with _ => _ end] => rewrite H
      | H : ?x = _ |- context [if ?x then _ else _] => rewrite H
      | |- context [andb ?a _] => atomic a; destruct a eqn:?
      | |- context [orb ?a _] => atomic a; destruct a eqn:?
      | |- context [match ?x with _ => _ end] => atomic x; destruct x eqn:?
      | |- context [if ?x then _ else _] => atomic x; destruct x eqn:?
      end ].

Ltac exec :=
  repeat exec_step;
  try (cbn [is_open negb andb orb] in *; discriminate).

Lemma prop_opt_chain v k x : prop v k = Some x -> opt_chain v k = x.
Proof. unfold opt_chain. now intros ->. Qed.

Lemma truthy_nonempty c : c <> "" -> truthy (JStr c) = true.
Proof.
  intros Hc. cbn. destruct (String.eqb_spec c ""); [contradiction | reflexivity].
Qed.

Lemma close_eleven_eq s :
  close_eleven s =
  match elevenWs s with
  | Some k =>
      if is_open (ready s k)
      then (Some tt, set_sockets (<[k := CLOSING]> (sockets s)) s, [ElevenClose k])
      else (Some tt, s, [])
  | None => (Some tt, s, [])
  end.
Proof. unfold_js. exec; reflexivity. Qed.

Lemma send_clear_eq s :
  send_clear s =
  if twilio_ready s
  then (Some tt, s, [TwilioSend (JSON_stringify (clear_frame (streamSid s)))])
  else (Some tt, s, []).
Proof. unfold_js. exec; reflexivity. Qed.

(** ** The shape of each callback *)

Lemma same_sockets_refl s : same_sockets s s.
Proof. repeat split. Qed.

Lemma is_open_OPEN r : is_open r = true -> r = OPEN.
Proof. now destruct r. Qed.

Ltac solve_effect :=
  first
    [ apply me_quiet; repeat split; reflexivity
    | apply me_twilio; unfold twilio_ready;
      repeat match goal with H : ?x = _ |- context [?x] => rewrite H end;
      reflexivity
    | eapply me_eleven; eauto using is_open_OPEN
    | apply ce_quiet; repeat split; reflexivity
    | eapply ce_eleven; eauto using is_open_OPEN
    | eapply ce_close; eauto using is_open_OPEN
    | apply ce_null ].

Lemma Rev1_onMessage_effect data s :
  exists s' acts,
    Rev1.onMessage data s = (Some tt, s', acts) /\ message_effect s s' acts.
Proof.
  unfold Rev1.onMessage, Rev1.onAudio, Rev1.onPing. unfold_js.
  exec; eexists _, _; (split; [reflexivity|]); solve_effect.
Qed.

Lemma Rev4_onMessage_effect data s :
  exists s' acts,
    Rev4.onMessage data s = (Some tt, s', acts) /\ message_effect s s' acts.
Proof.
  unfold Rev4.onMessage, Rev4.onAudio, Rev4.onPing. unfold_js.
  exec; eexists _, _; (split; [reflexivity|]); solve_effect.
Qed.

Lemma ce_new' connect s s1 s' n :
  connect = true -> same_sockets s s1 -> n = length (sockets s) ->
  s' = set_elevenWs (Some n) (set_sockets (sockets s ++ [CONNECTING]) s1) ->
  control_effect connect s s' [ElevenNew n].
Proof. intros ? ? -> ->. now apply ce_new. Qed.

Lemma Rev1_onTwilio_effect env data s :
  exists s' acts,
    Rev1.onTwilio env data s = (Some tt, s', acts) /\
    control_effect (is_start data && can_connect env) s s' acts.
Proof.
  unfold Rev1.onTwilio, Rev1.onMedia, Rev1.connectElevenLabs. unfold_js.
  exec; eexists _, _; (split; [reflexivity|]); try solve_effect.
  all: eapply (ce_new' _ _ (set_callSid _ (set_streamSid _ s)));
    [ | repeat split | reflexivity | reflexivity ].
  all: subst data; unfold is_start, can_connect in *;
    try match goal with
        | H : is_label (opt_chain _ _) _ = _, Hp : prop _ _ = Some _ |- _ =>
            rewrite (prop_opt_chain _ _ _ Hp) in H
        end;
    try erewrite prop_opt_chain by eassumption;
    repeat match goal with H : _ = _ |- _ => rewrite H end;
    first [reflexivity | congruence].
Qed.

Lemma Rev4_onTwilio_effect bfo data s :
  exists s' acts,
    Rev4.onTwilio bfo data s = (Some tt, s', acts) /\
    control_effect false s s' acts.
Proof.
  unfold Rev4.onTwilio, Rev4.onMedia. unfold_js.
  exec; eexists _, _; (split; [reflexivity|]); solve_effect.
Qed.

Lemma close_eleven_effect s :
  exists s' acts,
    close_eleven s = (Some tt, s', acts) /\ control_effect false s s' acts.
Proof.
  unfold_js. exec; eexists _, _; (split; [reflexivity|]); solve_effect.
Qed.

Lemma Rev4_resume_effect signedUrl s :
  exists s' acts,
    Rev4.setupElevenLabs_resume signedUrl s = (Some tt, s', acts) /\
    control_effect (url_accepted signedUrl) s s' acts.
Proof.
  unfold Rev4.setupElevenLabs_resume. unfold_js.
  exec; eexists _, _; (split; [reflexivity|]); try solve_effect.
  eapply (ce_new' _ _ s); [ subst; reflexivity | repeat split | reflexivity | reflexivity ].
Qed.

Lemma Rev1_onOpen_effect s :
  exists r s' acts,
    Rev1.onOpen s = (r, s', acts) /\ control_effect false s s' acts.
Proof.
  unfold Rev1.onOpen. unfold_js.
  exec; eexists _, _, _; (split; [reflexivity|]); solve_effect.
Qed.

Lemma Rev4_onOpen_effect s :
  exists r s' acts,
    Rev4.onOpen s = (r, s', acts) /\ control_effect false s s' acts.
Proof.
  unfold Rev4.onOpen. unfold_js.
  exec; eexists _, _, _; (split; [reflexivity|]); solve_effect.
Qed.

(** ** The event loop over callbacks of these shapes *)

Lemma Rev1_disciplined env :
  disciplined (Rev1.callbacks env)
    (fun data => is_start data && can_connect env) (fun _ => false).
Proof.
  split; cbn [Rev1.callbacks onTwilioMessage onTwilioClose onSignedUrl
              onElevenOpen onElevenMessage onElevenClose].
  - apply Rev1_onTwilio_effect.
  - apply close_eleven_effect.
  - intros _ s. exists s, []. split; [reflexivity | solve_effect].
  - apply Rev1_onOpen_effect.
  - apply Rev1_onMessage_effect.
  - reflexivity.
Qed.

Lemma Rev4_disciplined bfo :
  disciplined (Rev4.callbacks bfo) (fun _ => false) url_accepted.
Proof.
  split; cbn [Rev4.callbacks onTwilioMessage onTwilioClose onSignedUrl
              onElevenOpen onElevenMessage onElevenClose].
  - apply Rev4_onTwilio_effect.
  - apply close_eleven_effect.
  - apply Rev4_resume_effect.
  - apply Rev4_onOpen_effect.
  - apply Rev4_onMessage_effect.
  - reflexivity.
Qed.

Section EventLoop.
Variables (h : handlers) (connects_on : option jsval -> bool)
          (connects_url : option bool -> bool).
Hypothesis Hd : disciplined h connects_on connects_url.

Lemma control_effect_mono s s' acts c :
  control_effect false s s' acts -> control_effect c s s' acts.
Proof.
  intros H; inversion H; subst; try discriminate;
    eauto using control_effect.
Qed.

Lemma step_has_shape s e :
  let r := step h s e in
  step_shape (connects connects_on connects_url s e) s (fst r) (snd r).
Proof.
  assert (Hskip : forall c, step_shape c s s []).
  { intros c. eapply shape_control; [apply pre_same | apply ce_quiet, same_sockets_refl]. }
  unfold step. destruct (crashed s) eqn:Hc; [apply Hskip|].
  destruct e as [data| | |a| |k|k data|k|k]; cbn [connects].
  - destruct (twilioWs s); try apply Hskip.
    destruct (d_twilio _ _ _ Hd data s) as (s' & acts & Heq & Heff).
    unfold invoke. rewrite Heq. cbn.
    eapply shape_control; [apply pre_same | exact Heff].
  - assert (Hgo : forall r, r <> OPEN -> let r := invoke (onTwilioClose h) (set_twilioWs CLOSED s) in
              step_shape false s (fst r) (snd r)).
    { intros _ _.
      destruct (d_twilio_close _ _ _ Hd (set_twilioWs CLOSED s)) as (s' & acts & Heq & Heff).
      unfold invoke. rewrite Heq. cbn.
      eapply shape_control; [apply (pre_twilio _ CLOSED); discriminate | exact Heff]. }
    destruct (twilioWs s); try apply Hskip; apply (Hgo CLOSED); discriminate.
  - destruct (twilioWs s); try apply Hskip;
      (eapply shape_control;
       [apply (pre_twilio _ CLOSING); discriminate | apply ce_quiet, same_sockets_refl]).
  - destruct (pending s) eqn:Hp; [|apply Hskip].
    destruct (d_url _ _ _ Hd (Some a) (set_pending false s)) as (s' & acts & Heq & Heff).
    unfold invoke. rewrite Heq. cbn.
    eapply shape_control; [apply pre_settled | exact Heff].
  - destruct (pending s) eqn:Hp; [|apply Hskip].
    destruct (d_url _ _ _ Hd None (set_pending false s)) as (s' & acts & Heq & Heff).
    unfold invoke. rewrite Heq. cbn.
    eapply shape_control; [apply pre_settled | exact Heff].
  - destruct (sockets s !! k) as [[]|] eqn:Hk; try apply Hskip.
    destruct (d_open _ _ _ Hd (set_sockets (<[k:=OPEN]> (sockets s)) s))
      as (r & s' & acts & Heq & Heff).
    unfold invoke. rewrite Heq. destruct r; cbn.
    + eapply shape_control; [apply pre_opened, Hk | exact Heff].
    + eapply shape_thrown; [exact Hk | exact Heff].
  - assert (Hgo : is_Some (sockets s !! k) ->
              let r := invoke (onElevenMessage h data) s in
              step_shape false s (fst r) (snd r)).
    { intros Hk.
      destruct (d_message _ _ _ Hd data s) as (s' & acts & Heq & Heff).
      unfold invoke. rewrite Heq. cbn.
      eapply shape_message; [exact Hk | exact Heff]. }
    destruct (sockets s !! k) as [[]|] eqn:Hk; try apply Hskip; apply Hgo; eauto.
  - assert (Hgo : is_Some (sockets s !! k) ->
              let r := invoke (onElevenClose h) (set_sockets (<[k:=CLOSED]> (sockets s)) s) in
              step_shape false s (fst r) (snd r)).
    { intros Hk. unfold invoke. rewrite (d_close _ _ _ Hd). cbn.
      eapply shape_control; [apply (pre_ended _ k CLOSED); auto | apply ce_null]. }
    destruct (sockets s !! k) as [[]|] eqn:Hk; try apply Hskip; apply Hgo; eauto.
  - assert (Hgo : is_Some (sockets s !! k) ->
              step_shape false s (set_sockets (<[k:=CLOSING]> (sockets s)) s) []).
    { intros Hk.
      eapply shape_control; [apply (pre_ended _ k CLOSING); auto | apply ce_quiet, same_sockets_refl]. }
    destruct (sockets s !! k) as [[]|] eqn:Hk; try apply Hskip; apply Hgo; eauto.
Qed.
End EventLoop.

(** ** Counting calls of [close()] *)

Lemma closes_app k a b : closes k (a ++ b) = closes k a + closes k b.
Proof. unfold closes. now rewrite List.filter_app, length_app. Qed.

Lemma twilio_closes_app a b :
  twilio_closes (a ++ b) = twilio_closes a + twilio_closes b.
Proof. unfold twilio_closes. now rewrite List.filter_app, length_app. Qed.

Lemma ready_OPEN s k : ready s k = OPEN -> sockets s !! k = Some OPEN.
Proof. unfold ready. destruct (sockets s !! k) as [r|]; congruence. Qed.

Lemma past_insert_other s k j r :
  j <> k -> past s k -> past (set_sockets (<[j := r]> (sockets s)) s) k.
Proof.
  unfold past. cbn [sockets set_sockets]. intros Hne.
  now rewrite list_lookup_insert_ne.
Qed.

Lemma past_insert_same s k r :
  is_Some (sockets s !! k) -> r = CLOSING \/ r = CLOSED ->
  past (set_sockets (<[k := r]> (sockets s)) s) k.
Proof.
  unfold past. cbn [sockets set_sockets]. intros [r0 Hk] Hr.
  rewrite list_lookup_insert_eq by (eapply lookup_lt_Some; eauto).
  destruct Hr; subst; auto.
Qed.

Lemma past_pre_step s s0 k : pre_step s s0 -> past s k -> past s0 k.
Proof.
  intros Hpre Hp. inversion Hpre; subst; try exact Hp.
  - apply past_insert_other; [|exact Hp].
    intros ->. destruct Hp; congruence.
  - destruct (decide (k0 = k)) as [->|Hne].
    + now apply past_insert_same.
    + now apply past_insert_other.
Qed.

Lemma control_effect_closes c s s' acts k :
  control_effect c s s' acts ->
  closes k acts <= 1 /\
  (closes k acts = 1 -> past s' k) /\
  (past s k -> past s' k /\ closes k acts = 0).
Proof.
  intros H; inversion H as [s1 Hs| | j Hj Hr | s1 Hc Hs | ]; subst; cbn.
  - destruct Hs as (Hs & _). unfold past. rewrite Hs.
    split; [lia | split]; [lia | auto].
  - split; [lia | split]; [lia | auto].
  - apply ready_OPEN in Hr. unfold closes. cbn.
    destruct (Nat.eqb_spec j k) as [->|Hne]; cbn.
    + split; [lia | split].
      * intros _. apply past_insert_same; eauto.
      * intros [Hp|Hp]; congruence.
    + split; [lia | split]; [lia |].
      intros Hp. split; [now apply past_insert_other | reflexivity].
  - destruct Hs as (Hs & _). unfold past. cbn [sockets set_elevenWs set_sockets].
    split; [lia | split]; [lia |].
    intros Hp. split; [|reflexivity].
    destruct Hp as [Hp|Hp]; [left|right];
      (rewrite lookup_app_l; rewrite ?Hs; eauto using lookup_lt_Some).
  - split; [lia | split]; [lia | auto].
Qed.

Lemma message_effect_closes s s' acts k :
  message_effect s s' acts ->
  closes k acts = 0 /\ (past s k -> past s' k).
Proof.
  intros H; inversion H as [s1 Hs| | ]; subst; cbn; split; auto.
  destruct Hs as (Hs & _). unfold past. now rewrite Hs.
Qed.

Lemma step_shape_closes c s s' acts k :
  step_shape c s s' acts ->
  closes k acts <= 1 /\
  (closes k acts = 1 -> past s' k) /\
  (past s k -> past s' k /\ closes k acts = 0).
Proof.
  intros H; inversion H as [s0 s1 a Hpre Heff | j s1 a Hj Heff | j s1 a Hj Heff]; subst.
  - destruct (control_effect_closes _ _ _ _ k Heff) as (H1 & H2 & H3).
    split; [exact H1 | split]; [exact H2 |].
    intros Hp. apply H3. eapply past_pre_step; eauto.
  - destruct (control_effect_closes _ _ _ _ k Heff) as (H1 & H2 & H3).
    rewrite closes_app. cbn. rewrite Nat.add_0_r.
    split; [exact H1 | split]; [exact H2 |].
    intros Hp. apply H3.
    eapply past_pre_step; [apply pre_opened; eauto | exact Hp].
  - destruct (message_effect_closes _ _ _ k Heff) as (H1 & H2).
    rewrite H1. split; [lia | split]; [lia | auto].
Qed.

Lemma control_effect_quiet c s s' acts :
  control_effect c s s' acts -> c = false -> elevenWs s = None ->
  acts = [] /\ sockets s' = sockets s /\ elevenWs s' = None /\
  pending s' = pending s /\ crashed s' = crashed s /\ twilioWs s' = twilioWs s.
Proof.
  intros H Hc Hn; inversion H as [s1 Hs| | | | ]; subst; try congruence.
  - destruct Hs as (? & ? & ? & ? & ?). repeat split; congruence.
  - repeat split; auto.
Qed.

Lemma step_shape_no_ai s s' acts :
  step_shape false s s' acts -> no_ai s ->
  acts = [] /\ no_ai s' /\ (pending s' = true -> pending s = true).
Proof.
  intros H (Hs & He & Hc).
  inversion H as [s0 s1 a Hpre Heff | j s1 a Hj Heff | j s1 a [r Hj] Heff]; subst.
  - assert (Hpre' : sockets s0 = [] /\ elevenWs s0 = None /\ crashed s0 = false /\
                    (pending s0 = true -> pending s = true)).
    { inversion Hpre as [ | | | k Hk | k r [r0 Hk] Hr]; subst; cbn;
        repeat split; auto; try discriminate; rewrite Hs in Hk; discriminate. }
    destruct Hpre' as (Hs0 & He0 & Hc0 & Hp0).
    destruct (control_effect_quiet _ _ _ _ Heff eq_refl He0) as (-> & ? & ? & ? & ? & ?).
    repeat split; try congruence.
    intros Hp1. apply Hp0. congruence.
  - rewrite Hs in Hj. discriminate.
  - rewrite Hs in Hj. discriminate.
Qed.

Lemma control_effect_twilio_closes c s s' acts :
  control_effect c s s' acts -> twilio_closes acts = 0.
Proof. intros H; inversion H; reflexivity. Qed.

Lemma step_shape_twilio_closes c s s' acts :
  step_shape c s s' acts -> twilio_closes acts = 0.
Proof.
  intros H; inversion H as [s0 s1 a _ Heff | j s1 a _ Heff | j s1 a _ Heff]; subst.
  - eapply control_effect_twilio_closes; eauto.
  - rewrite twilio_closes_app.
    erewrite control_effect_twilio_closes by eauto. reflexivity.
  - inversion Heff; reflexivity.
Qed.

Section Runs.
Variables (h : handlers) (connects_on : option jsval -> bool)
          (connects_url : option bool -> bool).
Hypothesis Hd : disciplined h connects_on connects_url.

Lemma run_cons s e rest :
  run h s (e :: rest) =
  (fst (run h (fst (step h s e)) rest),
   snd (step h s e) ++ snd (run h (fst (step h s e)) rest)).
Proof.
  cbn [run]. destruct (step h s e) as [s1 acts1].
  cbn [fst snd]. now destruct (run h s1 rest).
Qed.

Lemma run_closes_past evs : forall s k,
  past s k -> closes k (snd (run h s evs)) = 0.
Proof.
  induction evs as [|e rest IH]; intros s k Hp; [reflexivity|].
  rewrite run_cons. cbn [snd]. rewrite closes_app.
  pose proof (step_has_shape _ _ _ Hd s e) as Hshape. cbn zeta in Hshape.
  destruct (step_shape_closes _ _ _ _ k Hshape) as (_ & _ & H3).
  destruct (H3 Hp) as (Hp' & ->).
  now rewrite IH.
Qed.

Lemma run_closes evs : forall s k, closes k (snd (run h s evs)) <= 1.
Proof.
  induction evs as [|e rest IH]; intros s k; [cbn; lia|].
  rewrite run_cons. cbn [snd]. rewrite closes_app.
  pose proof (step_has_shape _ _ _ Hd s e) as Hshape. cbn zeta in Hshape.
  destruct (step_shape_closes _ _ _ _ k Hshape) as (H1 & H2 & _).
  destruct (closes k (snd (step h s e))) as [|[|n]] eqn:Hn; [| |lia].
  - apply IH.
  - rewrite run_closes_past by auto. lia.
Qed.

Lemma run_twilio_closes evs : forall s, twilio_closes (snd (run h s evs)) = 0.
Proof.
  induction evs as [|e rest IH]; intros s; [reflexivity|].
  rewrite run_cons. cbn [snd]. rewrite twilio_closes_app, IH.
  pose proof (step_has_shape _ _ _ Hd s e) as Hshape. cbn zeta in Hshape.
  now rewrite (step_shape_twilio_closes _ _ _ _ Hshape).
Qed.
End Runs.

Lemma Rev4_accepted_eq env :
  Rev4.accepted env =
  if missing (ELEVENLABS_API_KEY env) || missing (ELEVENLABS_AGENT_ID env)
  then (initial, [])
  else (set_pending true initial, [GetSignedUrl]).
Proof.
  unfold Rev4.accepted, Rev4.setupElevenLabs, invoke. unfold_js.
  destruct (missing (ELEVENLABS_API_KEY env) || missing (ELEVENLABS_AGENT_ID env));
    reflexivity.
Qed.

Lemma Rev4_session_run_eq env bfo evs :
  Rev4.session_run env bfo evs =
  (fst (run (Rev4.callbacks bfo) (fst (Rev4.accepted env)) evs),
   snd (Rev4.accepted env) ++ snd (run (Rev4.callbacks bfo) (fst (Rev4.accepted env)) evs)).
Proof.
  unfold Rev4.session_run. destruct (Rev4.accepted env) as [s0 acts0].
  cbn [fst snd]. now destruct (run (Rev4.callbacks bfo) s0 evs).
Qed.

(** ** C5: [close()] at most once per socket *)

(** C5.  In every revision and for every sequence of events of a call (any
    interleaving of telephony [stop] frames, telephony [close] events and AI
    [close] events among them), [close()] is called at most once on each
    AI socket and at most once (in fact never) on the telephony socket. *)
Theorem C5_close_at_most_once :
  forall (env : environment) (Buffer_from_object : jsval -> option (list nat))
         (evs : list event) (k : nat),
    closes k (snd (Rev1.session_run env evs)) <= 1 /\
    twilio_closes (snd (Rev1.session_run env evs)) <= 1 /\
    closes k (snd (Rev4.session_run env Buffer_from_object evs)) <= 1 /\
    twilio_closes (snd (Rev4.session_run env Buffer_from_object evs)) <= 1.
Proof.
  intros env bfo evs k.
  assert (H4a : closes k (snd (Rev4.accepted env)) = 0 /\
                twilio_closes (snd (Rev4.accepted env)) = 0).
  { rewrite Rev4_accepted_eq.
    destruct (missing (ELEVENLABS_API_KEY env) || missing (ELEVENLABS_AGENT_ID env));
      split; reflexivity. }
  destruct H4a as (Ha & Hb).
  unfold Rev1.session_run. rewrite Rev4_session_run_eq. cbn [snd].
  rewrite closes_app, twilio_closes_app, Ha, Hb.
  rewrite (run_twilio_closes _ _ _ (Rev1_disciplined env)).
  rewrite (run_twilio_closes _ _ _ (Rev4_disciplined bfo)).
  pose proof (run_closes _ _ _ (Rev1_disciplined env) evs initial k).
  pose proof (run_closes _ _ _ (Rev4_disciplined bfo) evs (fst (Rev4.accepted env)) k).
  lia.
Qed.

(** A call that ends with [stop], the telephony [close] and the AI [close]:
    one [close()] on the AI socket. *)
Example stop_then_close_rev4 :
  closes 0 (snd (Rev4.session_run env_ok no_objects
    [SignedUrlResolved true; ElevenOpen 0;
     TwilioMessage (Some (start_msg "MZ1" "CA1"));
     TwilioMessage (Some stop_msg); TwilioClosed; ElevenClosed 0])) = 1.
Proof. reflexivity. Qed.

(** ** C1: telephony audio to the AI socket *)

Example active_rev1 :
  fst (Rev1.session_run env_ok
         [TwilioMessage (Some (start_msg "MZ1" "CA1")); ElevenOpen 0]) = active.
Proof. reflexivity. Qed.

Example active_rev4 :
  fst (Rev4.session_run env_ok no_objects
         [SignedUrlResolved true; ElevenOpen 0;
          TwilioMessage (Some (start_msg "MZ1" "CA1"))]) = active.
Proof. reflexivity. Qed.

Ltac labels :=
  cbn [is_label String.eqb Ascii.eqb Bool.eqb forallb to_string_ok andb].











(** ** The AI [message] callback, case by case *)

Lemma prop_defined msg k x k' :
  prop msg k = Some x -> prop msg k' = Some (opt_chain msg k').
Proof. destruct msg; cbn; try discriminate; reflexivity. Qed.

Lemma js_or_truthy v w : truthy v = true -> js_or v w = v.
Proof. unfold js_or. now intros ->. Qed.

Lemma js_or_falsy v w : truthy v = false -> js_or v w = w.
Proof. unfold js_or. now intros ->. Qed.

Lemma nonempty_string_JStr c : c <> "" -> nonempty_string (JStr c) = true.
Proof. apply truthy_nonempty. Qed.

Lemma nonempty_string_truthy v : nonempty_string v = true -> truthy v = true.
Proof. destruct v; cbn; congruence. Qed.

Lemma eleven_message_step h s k data :
  crashed s = false -> delivers s k ->
  step h s (ElevenMessage k data) = invoke (onElevenMessage h data) s.
Proof.
  intros Hc Hd. unfold step. rewrite Hc. destruct Hd as [-> | ->]; reflexivity.
Qed.

Lemma Rev1_audio_message msg s :
  prop msg "type" = Some (JStr "audio") ->
  invoke (Rev1.onMessage (Some msg)) s =
  (s, if twilio_ready s && nonempty_string (Rev1_selected msg)
      then [TwilioSend (JSON_stringify (media_frame (streamSid s) (Rev1_selected msg)))]
      else []).
Proof.
  intros Ht.
  pose proof (prop_defined _ _ _ "audio" Ht) as Ha.
  pose proof (prop_defined _ _ _ "audio_event" Ht) as He.
  unfold invoke, Rev1.onMessage, Rev1.onAudio, Rev1_selected. unfold_js.
  cbn beta iota. rewrite Ht. labels. cbn beta iota.
  destruct (truthy (streamSid s)); [|reflexivity].
  destruct (twilioWs s) eqn:Htw; cbn beta iota delta [is_open andb]; try reflexivity.
  rewrite Ha, He. cbn beta iota.
  destruct (nonempty_string _); [|reflexivity].
  cbn beta iota. rewrite Htw. reflexivity.
Qed.

Lemma Rev4_audio_message msg s :
  prop msg "type" = Some (JStr "audio") ->
  invoke (Rev4.onMessage (Some msg)) s =
  (s, if twilio_ready s && truthy (Rev4_selected msg)
      then [TwilioSend (JSON_stringify (media_frame (streamSid s) (Rev4_selected msg)))]
      else []).
Proof.
  intros Ht.
  pose proof (prop_defined _ _ _ "audio" Ht) as Ha.
  pose proof (prop_defined _ _ _ "audio_event" Ht) as He.
  unfold invoke, Rev4.onMessage, Rev4.onAudio, Rev4_selected. unfold_js.
  cbn beta iota. rewrite Ht. labels. cbn beta iota.
  destruct (truthy (streamSid s)); [|reflexivity].
  destruct (twilioWs s) eqn:Htw; cbn beta iota delta [is_open andb]; try reflexivity.
  rewrite Ha, He. cbn beta iota.
  destruct (truthy _); [|reflexivity].
  cbn beta iota. rewrite Htw. reflexivity.
Qed.

Lemma selected_chunk msg chunk :
  is_audio_chunk msg chunk ->
  Rev1_selected msg = JStr chunk /\ Rev4_selected msg = JStr chunk.
Proof.
  intros (_ & Hne & Hsel). unfold Rev1_selected, Rev4_selected.
  pose proof (truthy_nonempty _ Hne) as Htr.
  destruct Hsel as [-> | [Hf ->]].
  - rewrite !(js_or_truthy (JStr chunk)) by exact Htr. split; reflexivity.
  - rewrite (js_or_falsy _ _ Hf).
    rewrite !(js_or_truthy (JStr chunk)) by exact Htr. split; reflexivity.
Qed.

(** ** C2: AI audio to the telephony socket *)

(** C2 (as amended).  An AI audio event that carries the non-empty string
    [chunk], received while [streamSid] is known (truthy) and the telephony
    socket is open, writes exactly one frame to the telephony socket: the
    text of [{event: "media", streamSid, media: {payload: chunk}}] with the
    current value of [streamSid] and the chunk unchanged; when [streamSid]
    is the string [sid], that is the frame with [sid] and [chunk] as they
    are.  Received while [streamSid] is not known, the event writes nothing
    and leaves the session as it was, so nothing is kept for later.  An
    audio event whose chunk is the empty string and that has no
    [audio_base_64] writes no frame in any state. *)
Theorem C2_audio_chunk_relay :
  forall (env : environment) (Buffer_from_object : jsval -> option (list nat))
         (s : session) (k : nat) (msg : jsval) (chunk : string),
    crashed s = false -> delivers s k -> is_audio_chunk msg chunk ->
    (truthy (streamSid s) = true -> twilioWs s = OPEN ->
       step (Rev1.callbacks env) s (ElevenMessage k (Some msg))
       = (s, [TwilioSend (JSON_stringify (media_frame (streamSid s) (JStr chunk)))]) /\
       step (Rev4.callbacks Buffer_from_object) s (ElevenMessage k (Some msg))
       = (s, [TwilioSend (JSON_stringify (media_frame (streamSid s) (JStr chunk)))])) /\
    (forall sid, streamSid s = JStr sid -> sid <> "" -> twilioWs s = OPEN ->
       step (Rev1.callbacks env) s (ElevenMessage k (Some msg))
       = (s, [TwilioSend (media_frame (JStr sid) (JStr chunk))]) /\
       step (Rev4.callbacks Buffer_from_object) s (ElevenMessage k (Some msg))
       = (s, [TwilioSend (media_frame (JStr sid) (JStr chunk))])) /\
    (truthy (streamSid s) = false ->
       step (Rev1.callbacks env) s (ElevenMessage k (Some msg)) = (s, []) /\
       step (Rev4.callbacks Buffer_from_object) s (ElevenMessage k (Some msg)) = (s, []) /\
       forall rest,
         run (Rev1.callbacks env) s (ElevenMessage k (Some msg) :: rest)
         = run (Rev1.callbacks env) s rest /\
         run (Rev4.callbacks Buffer_from_object) s (ElevenMessage k (Some msg) :: rest)
         = run (Rev4.callbacks Buffer_from_object) s rest) /\
    (forall empty : jsval,
       prop empty "type" = Some (JStr "audio") ->
       opt_chain (opt_chain empty "audio") "chunk" = JStr "" ->
       truthy (opt_chain (opt_chain empty "audio_event") "audio_base_64") = false ->
       step (Rev1.callbacks env) s (ElevenMessage k (Some empty)) = (s, []) /\
       step (Rev4.callbacks Buffer_from_object) s (ElevenMessage k (Some empty)) = (s, [])).
Proof.
  intros env bfo s k msg chunk Hc Hd Hchunk.
  assert (Hempty : forall empty : jsval,
            prop empty "type" = Some (JStr "audio") ->
            opt_chain (opt_chain empty "audio") "chunk" = JStr "" ->
            truthy (opt_chain (opt_chain empty "audio_event") "audio_base_64") = false ->
            step (Rev1.callbacks env) s (ElevenMessage k (Some empty)) = (s, []) /\
            step (Rev4.callbacks bfo) s (ElevenMessage k (Some empty)) = (s, [])).
  { intros empty Ht Hch Hab.
    rewrite !eleven_message_step by assumption.
    cbn [Rev1.callbacks Rev4.callbacks onElevenMessage].
    rewrite Rev1_audio_message, Rev4_audio_message by assumption.
    unfold Rev1_selected, Rev4_selected. rewrite Hch.
    rewrite !(js_or_falsy (JStr "")) by reflexivity.
    rewrite (js_or_falsy _ _ Hab), Hab.
    assert (Hobj : nonempty_string (opt_chain empty "audio") = false).
    { destruct (opt_chain empty "audio"); try reflexivity; discriminate Hch. }
    rewrite Hobj, !andb_false_r. split; reflexivity. }
  destruct (selected_chunk _ _ Hchunk) as (Hs1 & Hs4).
  pose proof Hchunk as (Ht & Hne & _).
  cbn [run].
  rewrite !eleven_message_step by assumption.
  cbn [Rev1.callbacks Rev4.callbacks onElevenMessage].
  rewrite Rev1_audio_message, Rev4_audio_message by assumption.
  rewrite Hs1, Hs4. unfold twilio_ready.
  split; [|split; [|split; [|exact Hempty]]].
  - intros Hsid Htw. rewrite Hsid, Htw.
    cbn [nonempty_string truthy is_open andb].
    destruct (String.eqb_spec chunk ""); [contradiction|].
    split; reflexivity.
  - intros sid Hsid Hsne Htw. rewrite Hsid, Htw.
    cbn [nonempty_string truthy is_open].
    destruct (String.eqb_spec sid ""); [contradiction|].
    destruct (String.eqb_spec chunk ""); [contradiction|].
    split; reflexivity.
  - intros ->. cbn [andb]. repeat split.
    + now destruct (run (Rev1.callbacks env) s rest).
    + now destruct (run (Rev4.callbacks bfo) s rest).
Qed.

Lemma is_audio_chunk_audio_msg chunk :
  chunk <> "" -> is_audio_chunk (audio_msg (JStr chunk)) chunk.
Proof. intros Hne. split; [reflexivity|]. split; [exact Hne|]. now left. Qed.

Lemma C2_audio_chunk_relay_witness :
  step (Rev1.callbacks env_ok) active (ElevenMessage 0 (Some (audio_msg (JStr "BBB="))))
  = (active, [TwilioSend (JObj [("event", JStr "media"); ("streamSid", JStr "MZ1");
                                ("media", JObj [("payload", JStr "BBB=")])])]) /\
  step (Rev4.callbacks no_objects) active (ElevenMessage 0 (Some (audio_msg (JStr "BBB="))))
  = (active, [TwilioSend (JObj [("event", JStr "media"); ("streamSid", JStr "MZ1");
                                ("media", JObj [("payload", JStr "BBB=")])])]).
Proof.
  assert (Hne : "BBB=" <> "") by discriminate.
  assert (Hsid : "MZ1" <> "") by discriminate.
  destruct (C2_audio_chunk_relay env_ok no_objects active 0 _ "BBB="
              eq_refl (or_introl eq_refl) (is_audio_chunk_audio_msg _ Hne))
    as (_ & Hknown & _).
  exact (Hknown "MZ1" eq_refl Hsid eq_refl).
Defined.

(** C2 as stated fails for an event without audio: [if (payload)] (and
    [payload.length > 0] in revision 1) guards the write, so an audio event
    whose chunk is the empty string, received while [streamSid] is known and
    the telephony socket is open, writes no frame. *)
Lemma C2_counterexample :
  step (Rev1.callbacks env_ok) active (ElevenMessage 0 (Some (audio_msg (JStr ""))))
  = (active, []) /\
  step (Rev4.callbacks no_objects) active (ElevenMessage 0 (Some (audio_msg (JStr ""))))
  = (active, []).
Proof. split; reflexivity. Qed.

(** The chunk that arrives before [start] in revision 4 is dropped, and
    not played once [start] has arrived. *)
Example chunk_before_start_rev4 :
  snd (Rev4.session_run env_ok no_objects
         [SignedUrlResolved true; ElevenOpen 0;
          ElevenMessage 0 (Some (audio_msg (JStr "BBB=")));
          TwilioMessage (Some (start_msg "MZ1" "CA1"))])
  = [GetSignedUrl; ElevenNew 0; ElevenSend 0 Rev4.initMsg].
Proof. reflexivity. Qed.

(** ** C10: the precedence of the audio keys *)

(** C10 (as amended).  On an AI [audio] event received while [streamSid]
    is known and the telephony socket is open, the payload is taken from
    [audio.chunk] when that is truthy, otherwise from
    [audio_event.audio_base_64] when that is truthy, and in revision 1
    otherwise from the [audio] field itself; an empty-string chunk is falsy
    and falls through to the next key.  Revision 1 writes the selected
    payload only when it is a non-empty string.  Revisions 2 and 4 write
    whatever truthy value was selected, string or not, and write nothing
    when both keys are falsy. *)
Theorem C10_audio_key_precedence :
  forall (env : environment) (Buffer_from_object : jsval -> option (list nat))
         (s : session) (k : nat) (msg : jsval),
    crashed s = false -> delivers s k -> twilio_ready s = true ->
    prop msg "type" = Some (JStr "audio") ->
    let chunk := opt_chain (opt_chain msg "audio") "chunk" in
    let audio_base_64 := opt_chain (opt_chain msg "audio_event") "audio_base_64" in
    let write payload :=
      [TwilioSend (JSON_stringify (media_frame (streamSid s) payload))] in
    step (Rev1.callbacks env) s (ElevenMessage k (Some msg))
    = (s, if truthy chunk then
            if nonempty_string chunk then write chunk else []
          else if truthy audio_base_64 then
            if nonempty_string audio_base_64 then write audio_base_64 else []
          else if nonempty_string (opt_chain msg "audio")
               then write (opt_chain msg "audio") else []) /\
    step (Rev4.callbacks Buffer_from_object) s (ElevenMessage k (Some msg))
    = (s, if truthy chunk then write chunk
          else if truthy audio_base_64 then write audio_base_64
          else []).
Proof.
  intros env bfo s k msg Hc Hd Hready Ht chunk ab64 write.
  rewrite !eleven_message_step by assumption.
  cbn [Rev1.callbacks Rev4.callbacks onElevenMessage].
  rewrite Rev1_audio_message, Rev4_audio_message by assumption.
  rewrite Hready. cbn [andb].
  unfold Rev1_selected, Rev4_selected, js_or. fold chunk ab64.
  destruct (truthy chunk) eqn:Hchunk.
  - rewrite ?Hchunk. split; reflexivity.
  - destruct (truthy ab64) eqn:Hab; rewrite ?Hab; split; reflexivity.
Qed.

Lemma C10_audio_key_precedence_witness :
  step (Rev1.callbacks env_ok) active
    (ElevenMessage 0 (Some (JObj [("type", JStr "audio");
                                  ("audio", JObj [("chunk", JStr "")]);
                                  ("audio_event", JObj [("audio_base_64", JStr "CCC=")])])))
  = (active, [TwilioSend (JObj [("event", JStr "media"); ("streamSid", JStr "MZ1");
                                ("media", JObj [("payload", JStr "CCC=")])])]) /\
  step (Rev4.callbacks no_objects) active
    (ElevenMessage 0 (Some (JObj [("type", JStr "audio");
                                  ("audio", JObj [("chunk", JStr "")]);
                                  ("audio_event", JObj [("audio_base_64", JStr "CCC=")])])))
  = (active, [TwilioSend (JObj [("event", JStr "media"); ("streamSid", JStr "MZ1");
                                ("media", JObj [("payload", JStr "CCC=")])])]).
Proof.
  exact (C10_audio_key_precedence env_ok no_objects active 0
           (JObj [("type", JStr "audio");
                  ("audio", JObj [("chunk", JStr "")]);
                  ("audio_event", JObj [("audio_base_64", JStr "CCC=")])])
           eq_refl (or_introl eq_refl) eq_refl eq_refl).
Defined.

(** C10 as stated fails in revisions 2 and 4: a selected payload that is
    not a string, here the number 5, is written to the telephony socket. *)
Lemma C10_counterexample :
  snd (Rev4.session_run env_ok no_objects
         [SignedUrlResolved true; ElevenOpen 0;
          TwilioMessage (Some (start_msg "MZ1" "CA1"));
          ElevenMessage 0 (Some (audio_msg (JNum 5)))])
  = [GetSignedUrl; ElevenNew 0; ElevenSend 0 Rev4.initMsg;
     TwilioSend (JObj [("event", JStr "media"); ("streamSid", JStr "MZ1");
                       ("media", JObj [("payload", JNum 5)])])].
Proof. reflexivity. Qed.

(** Revision 1 on the same event: nothing is written. *)
Example number_chunk_rev1 :
  snd (Rev1.session_run env_ok
         [TwilioMessage (Some (start_msg "MZ1" "CA1")); ElevenOpen 0;
          ElevenMessage 0 (Some (audio_msg (JNum 5)))])
  = [ElevenNew 0;
     ElevenSend 0 (JObj [("type", JStr "conversation_initiation_client_data")])].
Proof. reflexivity. Qed.

(** Revision 1 falls back to the [audio] field when it is a string. *)
Example audio_string_rev1 :
  snd (step (Rev1.callbacks env_ok) active
         (ElevenMessage 0 (Some (JObj [("type", JStr "audio"); ("audio", JStr "DDD=")]))))
  = [TwilioSend (JObj [("event", JStr "media"); ("streamSid", JStr "MZ1");
                       ("media", JObj [("payload", JStr "DDD=")])])].
Proof. reflexivity. Qed.

(** ** C7: interruption *)

Lemma Rev1_interruption_message msg s :
  prop msg "type" = Some (JStr "interruption") ->
  invoke (Rev1.onMessage (Some msg)) s =
  (s, if twilio_ready s
      then [TwilioSend (JSON_stringify (clear_frame (streamSid s)))]
      else []).
Proof.
  intros Ht. unfold invoke, Rev1.onMessage, log_template, try_catch, lift, bind, ret.
  cbn beta iota. rewrite Ht. labels. cbn beta iota.
  rewrite send_clear_eq. now destruct (twilio_ready s).
Qed.

Lemma Rev4_interruption_message msg s :
  prop msg "type" = Some (JStr "interruption") ->
  invoke (Rev4.onMessage (Some msg)) s =
  (s, if twilio_ready s
      then [TwilioSend (JSON_stringify (clear_frame (streamSid s)))]
      else []).
Proof.
  intros Ht. unfold invoke, Rev4.onMessage, try_catch, lift, bind, ret.
  cbn beta iota. rewrite Ht. labels. cbn beta iota.
  rewrite send_clear_eq. now destruct (twilio_ready s).
Qed.

Lemma is_label_true v lit : is_label v lit = true -> v = JStr lit.
Proof.
  destruct v; cbn; try discriminate.
  intros H. apply String.eqb_eq in H. now subst.
Qed.

Lemma Rev1_onMessage_writes data s frame :
  In (TwilioSend frame) (snd (Rev1.onMessage data s)) ->
  exists msg, data = Some msg /\ written_for Rev1_selected s msg frame.
Proof.
  destruct data as [msg|]; [|intros []].
  destruct (prop msg "type") as [type|] eqn:Ht;
    [|unfold Rev1.onMessage, try_catch, lift, bind, throw; cbn; rewrite Ht; intros []].
  intros Hin. exists msg. split; [reflexivity|].
  pose proof (prop_defined _ _ _ "audio" Ht) as Ha.
  pose proof (prop_defined _ _ _ "audio_event" Ht) as He.
  revert Hin.
  unfold written_for, Rev1_selected, Rev1.onMessage, Rev1.onAudio, Rev1.onPing.
  unfold_js. cbn beta iota. rewrite Ht. cbn beta iota.
  exec; cbn [snd In]; intros Hin;
    repeat (destruct Hin as [Hin|Hin]; try discriminate Hin); try contradiction;
    injection Hin as <-;
    repeat match goal with
           | H : is_label _ _ = true |- _ => apply is_label_true in H; subst
           end; auto.
Qed.

Lemma Rev4_onMessage_writes data s frame :
  In (TwilioSend frame) (snd (Rev4.onMessage data s)) ->
  exists msg, data = Some msg /\ written_for Rev4_selected s msg frame.
Proof.
  destruct data as [msg|]; [|intros []].
  destruct (prop msg "type") as [type|] eqn:Ht;
    [|unfold Rev4.onMessage, try_catch, lift, bind, throw; cbn; rewrite Ht; intros []].
  intros Hin. exists msg. split; [reflexivity|].
  pose proof (prop_defined _ _ _ "audio" Ht) as Ha.
  pose proof (prop_defined _ _ _ "audio_event" Ht) as He.
  revert Hin.
  unfold written_for, Rev4_selected, Rev4.onMessage, Rev4.onAudio, Rev4.onPing.
  unfold_js. cbn beta iota. rewrite Ht. cbn beta iota.
  exec; cbn [snd In]; intros Hin;
    repeat (destruct Hin as [Hin|Hin]; try discriminate Hin); try contradiction;
    injection Hin as <-;
    repeat match goal with
           | H : is_label _ _ = true |- _ => apply is_label_true in H; subst
           end; auto.
Qed.

Lemma control_effect_no_send c s s' acts frame :
  control_effect c s s' acts -> ~ In (TwilioSend frame) acts.
Proof.
  intros H Hin; inversion H; subst; cbn in Hin;
    repeat (destruct Hin as [Hin|Hin]; try discriminate Hin); contradiction.
Qed.

Lemma invoke_snd_in m s a :
  In a (snd (invoke m s)) -> a = Uncaught \/ In a (snd (m s)).
Proof.
  unfold invoke. destruct (m s) as [[[u|] s1] acts]; cbn [snd]; auto.
  rewrite in_app_iff. cbn. intuition.
Qed.

Lemma invoke_no_send m s c frame :
  (exists r s' acts, m s = (r, s', acts) /\ control_effect c s s' acts) ->
  ~ In (TwilioSend frame) (snd (invoke m s)).
Proof.
  intros (r & s' & acts & Heq & Heff) Hin.
  apply invoke_snd_in in Hin as [Hin|Hin]; [discriminate|].
  rewrite Heq in Hin. eapply control_effect_no_send; eauto.
Qed.

Section Writes.
Variables (h : handlers) (connects_on : option jsval -> bool)
          (connects_url : option bool -> bool).
Hypothesis Hd : disciplined h connects_on connects_url.

(** Only the AI [message] callback writes to the telephony socket. *)
Lemma step_twilio_send s e frame :
  In (TwilioSend frame) (snd (step h s e)) ->
  exists k data, e = ElevenMessage k data /\
                 In (TwilioSend frame) (snd (onElevenMessage h data s)).
Proof.
  unfold step. destruct (crashed s); [intros []|].
  destruct e as [data| | |a| |k|k data|k|k].
  - destruct (twilioWs s); try (intros []).
    intros Hin; exfalso; revert Hin. eapply invoke_no_send.
    destruct (d_twilio _ _ _ Hd data s) as (s' & acts & H); eauto.
  - intros Hin; exfalso; revert Hin.
    destruct (twilioWs s); try (intros []);
      (eapply invoke_no_send;
       destruct (d_twilio_close _ _ _ Hd (set_twilioWs CLOSED s)) as (s' & acts & H); eauto).
  - destruct (twilioWs s); intros [].
  - destruct (pending s); [|intros []].
    intros Hin; exfalso; revert Hin. eapply invoke_no_send.
    destruct (d_url _ _ _ Hd (Some a) (set_pending false s)) as (s' & acts & H); eauto.
  - destruct (pending s); [|intros []].
    intros Hin; exfalso; revert Hin. eapply invoke_no_send.
    destruct (d_url _ _ _ Hd None (set_pending false s)) as (s' & acts & H); eauto.
  - destruct (sockets s !! k) as [[]|]; try (intros []).
    intros Hin; exfalso; revert Hin. eapply invoke_no_send.
    apply (d_open _ _ _ Hd).
  - intros Hin. exists k, data. split; [reflexivity|].
    destruct (sockets s !! k) as [[]|]; try (destruct Hin);
      (apply invoke_snd_in in Hin as [Hin|Hin]; [discriminate | exact Hin]).
  - intros Hin; exfalso; revert Hin.
    destruct (sockets s !! k) as [[]|]; try (intros []);
      (eapply (invoke_no_send _ _ false); rewrite (d_close _ _ _ Hd);
       eexists _, _, _; split; [reflexivity | apply ce_null]).
  - destruct (sockets s !! k) as [[]|]; intros [].
Qed.
End Writes.

(** C7 (as amended).  An AI [interruption] event received while
    [streamSid] is known (truthy) and the telephony socket is open writes
    exactly one frame to the telephony socket, the text of
    [{event: "clear", streamSid}] with the current value of [streamSid];
    when [streamSid] is the string [sid], that is the frame with [sid] as it
    is.  Received while [streamSid] is not known or the telephony socket is
    not open, it writes nothing.  Whatever the state and the event, a frame
    written to
    the telephony socket is written while an AI message is handled, and is
    either the clear frame of that interruption or the media frame carrying
    the payload of that very audio event: no chunk received earlier is
    written later. *)
Theorem C7_interruption_clear :
  forall (env : environment) (Buffer_from_object : jsval -> option (list nat))
         (s : session) (k : nat) (msg : jsval),
    crashed s = false -> delivers s k ->
    prop msg "type" = Some (JStr "interruption") ->
    (twilio_ready s = true ->
       step (Rev1.callbacks env) s (ElevenMessage k (Some msg))
       = (s, [TwilioSend (JSON_stringify (clear_frame (streamSid s)))]) /\
       step (Rev4.callbacks Buffer_from_object) s (ElevenMessage k (Some msg))
       = (s, [TwilioSend (JSON_stringify (clear_frame (streamSid s)))])) /\
    (forall sid, streamSid s = JStr sid -> sid <> "" -> twilioWs s = OPEN ->
       step (Rev1.callbacks env) s (ElevenMessage k (Some msg))
       = (s, [TwilioSend (clear_frame (JStr sid))]) /\
       step (Rev4.callbacks Buffer_from_object) s (ElevenMessage k (Some msg))
       = (s, [TwilioSend (clear_frame (JStr sid))])) /\
    (twilio_ready s = false ->
       step (Rev1.callbacks env) s (ElevenMessage k (Some msg)) = (s, []) /\
       step (Rev4.callbacks Buffer_from_object) s (ElevenMessage k (Some msg)) = (s, [])) /\
    (forall (s' : session) (e : event) (frame : jsval),
       (In (TwilioSend frame) (snd (step (Rev1.callbacks env) s' e)) ->
        exists k' msg', e = ElevenMessage k' (Some msg') /\
                        written_for Rev1_selected s' msg' frame) /\
       (In (TwilioSend frame) (snd (step (Rev4.callbacks Buffer_from_object) s' e)) ->
        exists k' msg', e = ElevenMessage k' (Some msg') /\
                        written_for Rev4_selected s' msg' frame)).
Proof.
  intros env bfo s k msg Hc Hd Ht.
  rewrite !eleven_message_step by assumption.
  cbn [Rev1.callbacks Rev4.callbacks onElevenMessage].
  rewrite Rev1_interruption_message, Rev4_interruption_message by assumption.
  split; [|split; [|split]].
  - intros ->. split; reflexivity.
  - intros sid Hsid Hne Htw. unfold twilio_ready. rewrite Hsid, Htw.
    rewrite (truthy_nonempty _ Hne). split; reflexivity.
  - intros ->. split; reflexivity.
  - intros s' e frame. split; intros Hin.
    + apply (step_twilio_send _ _ _ (Rev1_disciplined env)) in Hin
        as (k' & data & -> & Hin).
      apply Rev1_onMessage_writes in Hin as (msg' & -> & Hw). eauto.
    + apply (step_twilio_send _ _ _ (Rev4_disciplined bfo)) in Hin
        as (k' & data & -> & Hin).
      apply Rev4_onMessage_writes in Hin as (msg' & -> & Hw). eauto.
Qed.

Lemma C7_interruption_clear_witness :
  step (Rev1.callbacks env_ok) active (ElevenMessage 0 (Some interruption_msg))
  = (active, [TwilioSend (JObj [("event", JStr "clear"); ("streamSid", JStr "MZ1")])]) /\
  step (Rev4.callbacks no_objects) active (ElevenMessage 0 (Some interruption_msg))
  = (active, [TwilioSend (JObj [("event", JStr "clear"); ("streamSid", JStr "MZ1")])]).
Proof.
  assert (Hsid : "MZ1" <> "") by discriminate.
  destruct (C7_interruption_clear env_ok no_objects active 0 interruption_msg
              eq_refl (or_introl eq_refl) eq_refl) as (_ & Hknown & _).
  exact (Hknown "MZ1" eq_refl Hsid eq_refl).
Defined.

(** C7 as stated fails: in revisions 2 and 4 the AI socket is open before
    [start], and an interruption received then is followed by no clear
    frame, neither at once nor after [start]. *)
Lemma C7_counterexample :
  snd (Rev4.session_run env_ok no_objects
         [SignedUrlResolved true; ElevenOpen 0;
          ElevenMessage 0 (Some interruption_msg);
          TwilioMessage (Some (start_msg "MZ1" "CA1"))])
  = [GetSignedUrl; ElevenNew 0; ElevenSend 0 Rev4.initMsg].
Proof. reflexivity. Qed.

(** ** C8: keepalive *)

Lemma Rev1_ping_message msg s j :
  prop msg "type" = Some (JStr "ping") ->
  elevenWs s = Some j -> ready s j = OPEN ->
  invoke (Rev1.onMessage (Some msg)) s =
  (s, [ElevenSend j (JSON_stringify
                       (if truthy (ping_id msg) then pong_frame (ping_id msg)
                        else JObj [("type", JStr "pong")]))]).
Proof.
  intros Ht He Hr.
  pose proof (prop_defined _ _ _ "ping_event" Ht) as Hp.
  unfold invoke, Rev1.onMessage, Rev1.onPing, ping_id, pong_frame. unfold_js.
  cbn beta iota. rewrite Ht. labels. cbn beta iota.
  rewrite Hp. cbn beta iota. rewrite He. cbn beta iota. rewrite Hr.
  reflexivity.
Qed.

Lemma Rev4_ping_message msg s j :
  prop msg "type" = Some (JStr "ping") ->
  elevenWs s = Some j -> ready s j = OPEN ->
  invoke (Rev4.onMessage (Some msg)) s =
  (s, if truthy (ping_id msg)
      then [ElevenSend j (JSON_stringify (pong_frame (ping_id msg)))]
      else []).
Proof.
  intros Ht He Hr.
  pose proof (prop_defined _ _ _ "ping_event" Ht) as Hp.
  unfold invoke, Rev4.onMessage, Rev4.onPing, ping_id, pong_frame. unfold_js.
  cbn beta iota. rewrite Ht. labels. cbn beta iota.
  rewrite Hp. cbn beta iota.
  destruct (truthy _); [|reflexivity].
  cbn beta iota. rewrite He. cbn beta iota. rewrite Hr.
  reflexivity.
Qed.

(** C8 (as amended).  A [ping] received while [elevenWs] refers to an open
    socket and carrying a truthy [event_id] is answered by exactly one
    [{type: "pong", event_id}] with the same [event_id], written to that
    socket while the ping is handled, hence before anything written for a
    later event.  When the [event_id] is missing or falsy (0, the empty
    string), revision 1 writes a pong without [event_id] and revisions 2
    and 4 write nothing. *)
Theorem C8_keepalive_reply :
  forall (env : environment) (Buffer_from_object : jsval -> option (list nat))
         (s : session) (k j : nat) (msg : jsval),
    crashed s = false -> delivers s k ->
    prop msg "type" = Some (JStr "ping") ->
    elevenWs s = Some j -> ready s j = OPEN ->
    let ping := ElevenMessage k (Some msg) in
    let pong := ElevenSend j (JSON_stringify (pong_frame (ping_id msg))) in
    (truthy (ping_id msg) = true ->
       step (Rev1.callbacks env) s ping = (s, [pong]) /\
       step (Rev4.callbacks Buffer_from_object) s ping = (s, [pong]) /\
       forall rest,
         snd (run (Rev1.callbacks env) s (ping :: rest))
         = pong :: snd (run (Rev1.callbacks env) s rest) /\
         snd (run (Rev4.callbacks Buffer_from_object) s (ping :: rest))
         = pong :: snd (run (Rev4.callbacks Buffer_from_object) s rest)) /\
    (truthy (ping_id msg) = false ->
       step (Rev1.callbacks env) s ping
       = (s, [ElevenSend j (JObj [("type", JStr "pong")])]) /\
       step (Rev4.callbacks Buffer_from_object) s ping = (s, [])).
Proof.
  intros env bfo s k j msg Hc Hd Ht He Hr ping pong. subst ping pong.
  cbn [run].
  rewrite !eleven_message_step by assumption.
  cbn [Rev1.callbacks Rev4.callbacks onElevenMessage].
  rewrite (Rev1_ping_message _ _ j), (Rev4_ping_message _ _ j) by assumption.
  split; intros ->.
  - repeat split.
    + now destruct (run (Rev1.callbacks env) s rest).
    + now destruct (run (Rev4.callbacks bfo) s rest).
  - split; reflexivity.
Qed.

Lemma C8_keepalive_reply_witness :
  step (Rev1.callbacks env_ok) active (ElevenMessage 0 (Some (ping_msg (JNum 7))))
  = (active, [ElevenSend 0 (pong_frame (JNum 7))]) /\
  step (Rev4.callbacks no_objects) active (ElevenMessage 0 (Some (ping_msg (JNum 7))))
  = (active, [ElevenSend 0 (pong_frame (JNum 7))]).
Proof.
  destruct (C8_keepalive_reply env_ok no_objects active 0 0 (ping_msg (JNum 7))
              eq_refl (or_introl eq_refl) eq_refl eq_refl eq_refl) as (Htruthy & _).
  destruct (Htruthy eq_refl) as (H1 & H4 & _).
  split; [exact H1 | exact H4].
Defined.

(** C8 as stated fails.  A ping whose [event_id] is 0 gets no reply in
    revisions 2 and 4 and a reply without [event_id] in revision 1; and a
    ping that arrives after [stop], when [close()] has been called on the
    AI socket, gets no reply written. *)
Lemma C8_counterexample :
  snd (Rev4.session_run env_ok no_objects
         [SignedUrlResolved true; ElevenOpen 0;
          ElevenMessage 0 (Some (ping_msg (JNum 0)))])
  = [GetSignedUrl; ElevenNew 0; ElevenSend 0 Rev4.initMsg] /\
  snd (Rev1.session_run env_ok
         [TwilioMessage (Some (start_msg "MZ1" "CA1")); ElevenOpen 0;
          ElevenMessage 0 (Some (ping_msg (JNum 0)))])
  = [ElevenNew 0;
     ElevenSend 0 (JObj [("type", JStr "conversation_initiation_client_data")]);
     ElevenSend 0 (JObj [("type", JStr "pong")])] /\
  snd (Rev4.session_run env_ok no_objects
         [SignedUrlResolved true; ElevenOpen 0;
          TwilioMessage (Some (start_msg "MZ1" "CA1"));
          TwilioMessage (Some stop_msg);
          ElevenMessage 0 (Some (ping_msg (JNum 7)))])
  = [GetSignedUrl; ElevenNew 0; ElevenSend 0 Rev4.initMsg; ElevenClose 0].
Proof. repeat split. Qed.

(** ** Sessions without an AI socket *)

Lemma control_effect_pending c s s' acts :
  control_effect c s s' acts -> pending s' = pending s.
Proof.
  intros H; inversion H as [s1 Hs| | | s1 _ Hs | ]; subst; try reflexivity;
    destruct Hs as (_ & _ & _ & Hp & _); exact Hp.
Qed.

Section Quiet.
Variables (h : handlers) (connects_on : option jsval -> bool)
          (connects_url : option bool -> bool).
Hypothesis Hd : disciplined h connects_on connects_url.

Lemma step_no_ai s e :
  no_ai s -> connects connects_on connects_url s e = false ->
  snd (step h s e) = [] /\ no_ai (fst (step h s e)) /\
  (pending (fst (step h s e)) = true -> pending s = true).
Proof.
  intros Hn Hc.
  pose proof (step_has_shape _ _ _ Hd s e) as Hshape. cbn zeta in Hshape.
  rewrite Hc in Hshape. now apply step_shape_no_ai.
Qed.

Lemma step_settle s e :
  crashed s = false -> is_settle e = true -> pending (fst (step h s e)) = false.
Proof.
  intros Hc He. unfold step. rewrite Hc.
  assert (Hgo : forall r, pending s = true ->
            pending (fst (invoke (onSignedUrl h r) (set_pending false s))) = false).
  { intros r _. destruct (d_url _ _ _ Hd r (set_pending false s)) as (s' & acts & Heq & Heff).
    unfold invoke. rewrite Heq. cbn [fst].
    now rewrite (control_effect_pending _ _ _ _ Heff). }
  destruct e; try discriminate He;
    (destruct (pending s) eqn:Hp; [now apply Hgo | exact Hp]).
Qed.

(** Without an AI socket, a run of events none of which may create one
    writes nothing. *)
Lemma run_no_ai evs : forall s,
  no_ai s ->
  (forall s' e, In e evs -> connects connects_on connects_url s' e = false) ->
  snd (run h s evs) = [] /\ no_ai (fst (run h s evs)).
Proof.
  induction evs as [|e rest IH]; intros s Hn Hc; [split; [reflexivity | exact Hn]|].
  rewrite (run_cons h). cbn [fst snd].
  destruct (step_no_ai s e Hn (Hc s e (or_introl eq_refl))) as (-> & Hn1 & _).
  apply IH; [exact Hn1|]. intros s' e' Hin. apply Hc. now right.
Qed.
End Quiet.

Lemma no_ai_initial : no_ai initial.
Proof. repeat split. Qed.

Lemma Rev1_run_before_start env evs :
  forallb (fun e => negb (is_start_event e)) evs = true ->
  snd (Rev1.session_run env evs) = [] /\ no_ai (fst (Rev1.session_run env evs)).
Proof.
  intros Hall. unfold Rev1.session_run.
  apply (run_no_ai _ _ _ (Rev1_disciplined env)); [apply no_ai_initial|].
  intros s' e Hin.
  rewrite forallb_forall in Hall. specialize (Hall e Hin).
  destruct e; cbn in *; try reflexivity; try apply andb_false_r.
  apply negb_true_iff in Hall. now rewrite Hall.
Qed.

Lemma Rev1_run_cannot_connect env evs :
  can_connect env = false ->
  snd (Rev1.session_run env evs) = [] /\ no_ai (fst (Rev1.session_run env evs)).
Proof.
  intros Hcan. unfold Rev1.session_run.
  apply (run_no_ai _ _ _ (Rev1_disciplined env)); [apply no_ai_initial|].
  intros s' e _.
  destruct e; cbn; try reflexivity; try apply andb_false_r.
  rewrite Hcan. apply andb_false_r.
Qed.

Lemma Rev4_run_no_socket bfo evs : forall s,
  no_ai s -> pending s = false \/ handshake evs <> Some true ->
  snd (run (Rev4.callbacks bfo) s evs) = [] /\
  no_ai (fst (run (Rev4.callbacks bfo) s evs)).
Proof.
  induction evs as [|e rest IH]; intros s Hn Hh; [split; [reflexivity | exact Hn]|].
  rewrite run_cons. cbn [fst snd].
  assert (Hc : connects (fun _ => false) url_accepted s e = false).
  { destruct e as [data| | |a| |k|k data|k|k]; cbn; try reflexivity.
    - destruct Hh as [-> | Hh]; [reflexivity|].
      destruct a; [now contradiction Hh | apply andb_false_r].
    - apply andb_false_r. }
  destruct (step_no_ai _ _ _ (Rev4_disciplined bfo) s e Hn Hc) as (-> & Hn1 & Hp1).
  apply IH; [exact Hn1|].
  destruct (pending (fst (step (Rev4.callbacks bfo) s e))) eqn:Hp; [|now left].
  right. specialize (Hp1 eq_refl).
  destruct Hh as [Hh | Hh]; [congruence|].
  destruct (is_settle e) eqn:He.
  - destruct Hn as (_ & _ & Hcr).
    rewrite (step_settle _ _ _ (Rev4_disciplined bfo) s e Hcr He) in Hp. discriminate.
  - destruct e; try discriminate He; exact Hh.
Qed.

(** ** C9: when the AI connection is made *)

(** C9 (as amended).  In revision 1 no AI connection exists before the
    telephony [start] frame: a run of events without a [start] frame creates
    no AI socket and does nothing at all towards the AI backend.  In
    revisions 2 and 4 the connection is started when the telephony socket is
    accepted, whether or not [start] has been seen: with the credentials
    set, the request for the signed URL is the first thing a session does,
    and the AI socket is created as soon as the URL arrives. *)
Theorem C9_ai_connection_start :
  forall (env : environment) (Buffer_from_object : jsval -> option (list nat))
         (evs : list event),
    (forallb (fun e => negb (is_start_event e)) evs = true ->
       snd (Rev1.session_run env evs) = [] /\
       sockets (fst (Rev1.session_run env evs)) = [] /\
       elevenWs (fst (Rev1.session_run env evs)) = None) /\
    (missing (ELEVENLABS_API_KEY env) = false ->
     missing (ELEVENLABS_AGENT_ID env) = false ->
       (exists rest,
          snd (Rev4.session_run env Buffer_from_object evs) = GetSignedUrl :: rest) /\
       Rev4.session_run env Buffer_from_object [SignedUrlResolved true]
       = (set_elevenWs (Some 0) (set_sockets [CONNECTING] initial),
          [GetSignedUrl; ElevenNew 0])).
Proof.
  intros env bfo evs. split.
  - intros Hall. destruct (Rev1_run_before_start env evs Hall) as (Ha & Hs & He & _).
    auto.
  - intros Hk Ha. split.
    + rewrite Rev4_session_run_eq, Rev4_accepted_eq, Hk, Ha. cbn. eauto.
    + unfold Rev4.session_run. rewrite Rev4_accepted_eq, Hk, Ha. reflexivity.
Qed.

Lemma C9_ai_connection_start_witness :
  (snd (Rev1.session_run env_ok
          [TwilioMessage (Some (JObj [("event", JStr "connected")]));
           TwilioMessage (Some (media_msg (JStr "AAA=")))]) = [] /\
   sockets (fst (Rev1.session_run env_ok
          [TwilioMessage (Some (JObj [("event", JStr "connected")]));
           TwilioMessage (Some (media_msg (JStr "AAA=")))])) = [] /\
   elevenWs (fst (Rev1.session_run env_ok
          [TwilioMessage (Some (JObj [("event", JStr "connected")]));
           TwilioMessage (Some (media_msg (JStr "AAA=")))])) = None) /\
  Rev4.session_run env_ok no_objects [SignedUrlResolved true]
  = (set_elevenWs (Some 0) (set_sockets [CONNECTING] initial),
     [GetSignedUrl; ElevenNew 0]).
Proof.
  destruct (C9_ai_connection_start env_ok no_objects
              [TwilioMessage (Some (JObj [("event", JStr "connected")]));
               TwilioMessage (Some (media_msg (JStr "AAA=")))]) as (H1 & H4).
  split; [exact (H1 eq_refl) | exact (proj2 (H4 eq_refl eq_refl))].
Defined.

(** C9 as stated fails in revisions 2 and 4: with no [start] frame
    received ([streamSid] is still [null]), the AI socket exists, is open and
    has been sent the initiation message. *)
Lemma C9_counterexample :
  let r := Rev4.session_run env_ok no_objects
             [TwilioMessage (Some (JObj [("event", JStr "connected")]));
              SignedUrlResolved true; ElevenOpen 0] in
  streamSid (fst r) = JNull /\ sockets (fst r) = [OPEN] /\
  elevenWs (fst r) = Some 0 /\
  snd r = [GetSignedUrl; ElevenNew 0; ElevenSend 0 Rev4.initMsg].
Proof. repeat split. Qed.

(** ** The telephony socket is left to the telephony side *)

Lemma control_effect_twilioWs c s s' acts :
  control_effect c s s' acts -> twilioWs s' = twilioWs s.
Proof.
  intros H; inversion H as [s1 Hs| | | s1 _ Hs | ]; subst; try reflexivity;
    destruct Hs as (_ & Ht & _); exact Ht.
Qed.

Lemma message_effect_twilioWs s s' acts :
  message_effect s s' acts -> twilioWs s' = twilioWs s.
Proof.
  intros H; inversion H as [s1 Hs| | ]; subst; try reflexivity.
  destruct Hs as (_ & Ht & _); exact Ht.
Qed.

Lemma invoke_twilioWs m s :
  (exists r s' acts, m s = (r, s', acts) /\ twilioWs s' = twilioWs s) ->
  twilioWs (fst (invoke m s)) = twilioWs s.
Proof.
  intros (r & s' & acts & Heq & Ht). unfold invoke. rewrite Heq.
  destruct r; exact Ht.
Qed.

Section Telephony.
Variables (h : handlers) (connects_on : option jsval -> bool)
          (connects_url : option bool -> bool).
Hypothesis Hd : disciplined h connects_on connects_url.

Lemma step_twilioWs s e :
  telephony_ends e = false -> twilioWs (fst (step h s e)) = twilioWs s.
Proof.
  intros He. unfold step. destruct (crashed s); [reflexivity|].
  destruct e as [data| | |a| |k|k data|k|k]; try discriminate He.
  - destruct (twilioWs s) eqn:Ht; try exact Ht.
    rewrite <- Ht. apply invoke_twilioWs.
    destruct (d_twilio _ _ _ Hd data s) as (s' & acts & Heq & Heff).
    eauto 6 using control_effect_twilioWs.
  - destruct (pending s); [|reflexivity].
    transitivity (twilioWs (set_pending false s)); [|reflexivity].
    apply invoke_twilioWs.
    destruct (d_url _ _ _ Hd (Some a) (set_pending false s)) as (s' & acts & Heq & Heff).
    eauto 6 using control_effect_twilioWs.
  - destruct (pending s); [|reflexivity].
    transitivity (twilioWs (set_pending false s)); [|reflexivity].
    apply invoke_twilioWs.
    destruct (d_url _ _ _ Hd None (set_pending false s)) as (s' & acts & Heq & Heff).
    eauto 6 using control_effect_twilioWs.
  - destruct (sockets s !! k) as [[]|]; try reflexivity.
    transitivity (twilioWs (set_sockets (<[k:=OPEN]> (sockets s)) s)); [|reflexivity].
    apply invoke_twilioWs.
    destruct (d_open _ _ _ Hd (set_sockets (<[k:=OPEN]> (sockets s)) s))
      as (r & s' & acts & Heq & Heff).
    eauto 6 using control_effect_twilioWs.
  - assert (Hgo : twilioWs (fst (invoke (onElevenMessage h data) s)) = twilioWs s).
    { apply invoke_twilioWs.
      destruct (d_message _ _ _ Hd data s) as (s' & acts & Heq & Heff).
      eauto 6 using message_effect_twilioWs. }
    destruct (sockets s !! k) as [[]|]; try reflexivity; exact Hgo.
  - assert (Hgo : twilioWs (fst (invoke (onElevenClose h)
                                   (set_sockets (<[k:=CLOSED]> (sockets s)) s)))
                  = twilioWs s).
    { unfold invoke. now rewrite (d_close _ _ _ Hd). }
    destruct (sockets s !! k) as [[]|]; try reflexivity; exact Hgo.
  - destruct (sockets s !! k) as [[]|]; reflexivity.
Qed.

(** As long as the telephony side neither closes nor fails, its socket
    stays as it is. *)
Lemma run_twilioWs evs : forall s,
  forallb (fun e => negb (telephony_ends e)) evs = true ->
  twilioWs (fst (run h s evs)) = twilioWs s.
Proof.
  induction evs as [|e rest IH]; intros s Hall; [reflexivity|].
  cbn [forallb] in Hall. apply andb_true_iff in Hall as (He & Hall).
  apply negb_true_iff in He.
  rewrite (run_cons h). cbn [fst].
  now rewrite IH, step_twilioWs.
Qed.
End Telephony.

(** ** C3: the AI side cannot be set up *)

(** C3 (as amended).  If the AI-side setup fails (the API key or the agent
    id is missing, or the request for the signed URL does not yield a URL
    that [new WebSocket] accepts), no AI socket is created and nothing is
    ever written to the telephony socket: no media frame, no clear frame.
    The server does not close the telephony socket either: [close()] is
    never called on it, and it stays open until the telephony side ends the
    call.  The same holds in revision 1 when [connectElevenLabs] cannot
    connect. *)
Theorem C3_ai_setup_failure :
  forall (env : environment) (Buffer_from_object : jsval -> option (list nat))
         (evs : list event),
    (missing (ELEVENLABS_API_KEY env) || missing (ELEVENLABS_AGENT_ID env) = true \/
     handshake evs <> Some true) ->
    let r := Rev4.session_run env Buffer_from_object evs in
    sockets (fst r) = [] /\ elevenWs (fst r) = None /\
    (snd r = [] \/ snd r = [GetSignedUrl]) /\
    (forallb (fun e => negb (telephony_ends e)) evs = true -> twilioWs (fst r) = OPEN) /\
    (can_connect env = false ->
     snd (Rev1.session_run env evs) = [] /\
     sockets (fst (Rev1.session_run env evs)) = [] /\
     elevenWs (fst (Rev1.session_run env evs)) = None).
Proof.
  intros env bfo evs Hfail r. subst r.
  assert (H1 : can_connect env = false ->
               snd (Rev1.session_run env evs) = [] /\
               sockets (fst (Rev1.session_run env evs)) = [] /\
               elevenWs (fst (Rev1.session_run env evs)) = None).
  { intros Hcan. destruct (Rev1_run_cannot_connect env evs Hcan) as (? & ? & ? & _).
    auto. }
  revert H1. generalize (Rev1.session_run env evs). intros r1 H1.
  rewrite Rev4_session_run_eq. cbn [fst snd].
  assert (Hrun : snd (run (Rev4.callbacks bfo) (fst (Rev4.accepted env)) evs) = [] /\
                 no_ai (fst (run (Rev4.callbacks bfo) (fst (Rev4.accepted env)) evs))).
  { apply Rev4_run_no_socket.
    - rewrite Rev4_accepted_eq. destruct (_ || _); repeat split.
    - rewrite Rev4_accepted_eq.
      destruct (missing (ELEVENLABS_API_KEY env) || missing (ELEVENLABS_AGENT_ID env));
        [now left|].
      destruct Hfail as [Hfail | Hfail]; [discriminate | now right]. }
  destruct Hrun as (Hacts & Hs & He & _).
  rewrite Hacts, app_nil_r.
  split; [exact Hs | split; [exact He | split; [|split; [|exact H1]]]].
  - rewrite Rev4_accepted_eq. destruct (_ || _); auto.
  - intros Hall. rewrite (run_twilioWs _ _ _ (Rev4_disciplined bfo)) by exact Hall.
    rewrite Rev4_accepted_eq. now destruct (_ || _).
Qed.

Lemma C3_ai_setup_failure_witness :
  let r := Rev4.session_run env_ok no_objects
             [TwilioMessage (Some (start_msg "MZ1" "CA1")); SignedUrlRejected;
              TwilioMessage (Some (media_msg (JStr "AAA=")))] in
  sockets (fst r) = [] /\ elevenWs (fst r) = None /\
  (snd r = [] \/ snd r = [GetSignedUrl]) /\ twilioWs (fst r) = OPEN.
Proof.
  assert (Hfail : handshake
            [TwilioMessage (Some (start_msg "MZ1" "CA1")); SignedUrlRejected;
             TwilioMessage (Some (media_msg (JStr "AAA=")))] <> Some true)
    by discriminate.
  destruct (C3_ai_setup_failure env_ok no_objects _ (or_intror Hfail))
    as (Hs & He & Ha & Ht & _).
  split; [exact Hs | split; [exact He | split; [exact Ha | exact (Ht eq_refl)]]].
Defined.

(** C3 as stated fails: after the setup has failed, by a missing API key
    or by a rejected request for the signed URL, the telephony socket is
    still open and [close()] has not been called on it, whatever the
    telephony side sends next. *)
Lemma C3_counterexample :
  let missing_key := Rev4.session_run env_no_key no_objects
        [TwilioMessage (Some (start_msg "MZ1" "CA1"));
         TwilioMessage (Some (media_msg (JStr "AAA=")))] in
  let rejected := Rev4.session_run env_ok no_objects
        [TwilioMessage (Some (start_msg "MZ1" "CA1")); SignedUrlRejected;
         TwilioMessage (Some (media_msg (JStr "AAA=")))] in
  (snd missing_key = [] /\ twilioWs (fst missing_key) = OPEN) /\
  (snd rejected = [GetSignedUrl] /\ twilioWs (fst rejected) = OPEN /\
   ~ In TwilioClose (snd rejected)).
Proof.
  repeat split. intros [H|[]]; discriminate H.
Qed.

(** ** C4: a second [start] *)

(** C4 (as amended).  A [start] frame is processed in the same way
    whenever it arrives, the second time as the first: the stored
    [streamSid] and [callSid] are overwritten with the values it carries and
    the session goes on.  No socket is closed: the telephony socket stays
    open, the AI sockets that exist keep their state, and [close()] is
    called on neither. *)
Theorem C4_start_overwrites :
  forall (env : environment) (Buffer_from_object : jsval -> option (list nat))
         (s : session) (msg sid cid : jsval),
    crashed s = false -> twilioWs s = OPEN -> is_start_frame msg sid cid ->
    step (Rev4.callbacks Buffer_from_object) s (TwilioMessage (Some msg))
    = (set_callSid cid (set_streamSid sid s), []) /\
    let r := step (Rev1.callbacks env) s (TwilioMessage (Some msg)) in
    streamSid (fst r) = sid /\ callSid (fst r) = cid /\
    twilioWs (fst r) = OPEN /\ crashed (fst r) = false /\
    (forall j r0, sockets s !! j = Some r0 -> sockets (fst r) !! j = Some r0) /\
    (forall j, closes j (snd r) = 0) /\ twilio_closes (snd r) = 0.
Proof.
  intros env bfo s msg sid cid Hc Ht (Hev & start & Hst & Hsid & Hcid).
  unfold step. rewrite Hc, Ht.
  cbn [Rev1.callbacks Rev4.callbacks onTwilioMessage].
  unfold invoke, Rev4.onTwilio, Rev1.onTwilio, Rev1.connectElevenLabs. unfold_js.
  cbn beta iota. rewrite Hev. labels. cbn beta iota.
  rewrite Hst. cbn beta iota. rewrite Hsid. cbn beta iota. rewrite Hcid.
  cbn beta iota.
  split; [reflexivity|].
  destruct (to_string_ok sid && (to_string_ok cid && true));
    [destruct (missing (ELEVENLABS_API_KEY env));
       [|destruct (missing (ELEVENLABS_AGENT_ID env));
         [|destruct (agent_url_accepted env)]]|];
    cbn; repeat split; auto.
  intros j r0 Hj. apply lookup_app_l_Some. exact Hj.
Qed.

Lemma is_start_frame_start_msg sid cid :
  is_start_frame (start_msg sid cid) (JStr sid) (JStr cid).
Proof. split; [reflexivity|]. eexists. repeat split. Qed.

Lemma C4_start_overwrites_witness :
  step (Rev4.callbacks no_objects) active
    (TwilioMessage (Some (start_msg "MZ2" "CA2")))
  = (set_callSid (JStr "CA2") (set_streamSid (JStr "MZ2") active), []).
Proof.
  exact (proj1 (C4_start_overwrites env_ok no_objects active
                  (start_msg "MZ2" "CA2") (JStr "MZ2") (JStr "CA2")
                  eq_refl eq_refl (is_start_frame_start_msg "MZ2" "CA2"))).
Defined.

(** C4 as stated fails: after a second [start] the new identifiers are
    stored, both sockets are still open, [close()] has been called on
    neither, and the next media frame is relayed as before.  In revision 1
    the second [start] also opens a second AI socket. *)
Lemma C4_counterexample :
  let r4 := Rev4.session_run env_ok no_objects
        [SignedUrlResolved true; ElevenOpen 0;
         TwilioMessage (Some (start_msg "MZ1" "CA1"));
         TwilioMessage (Some (start_msg "MZ2" "CA2"));
         TwilioMessage (Some (media_msg (JStr "AAA=")))] in
  let r1 := Rev1.session_run env_ok
        [TwilioMessage (Some (start_msg "MZ1" "CA1")); ElevenOpen 0;
         TwilioMessage (Some (start_msg "MZ2" "CA2"))] in
  (streamSid (fst r4) = JStr "MZ2" /\ callSid (fst r4) = JStr "CA2" /\
   twilioWs (fst r4) = OPEN /\ sockets (fst r4) = [OPEN] /\
   snd r4 = [GetSignedUrl; ElevenNew 0; ElevenSend 0 Rev4.initMsg;
             ElevenSend 0 (user_audio_frame (JStr "AAA="))]) /\
  (streamSid (fst r1) = JStr "MZ2" /\ twilioWs (fst r1) = OPEN /\
   sockets (fst r1) = [OPEN; CONNECTING] /\
   snd r1 = [ElevenNew 0;
             ElevenSend 0 (JObj [("type", JStr "conversation_initiation_client_data")]);
             ElevenNew 1]).
Proof. repeat split. Qed.

(** ** C6: the AI socket closes or fails during the call *)

(** C6 (as amended).  When the AI socket closes during a call, the server
    sets [elevenWs] to [null] and does nothing else; when it reports an
    error, the server only logs.  The telephony socket is not closed:
    [close()] is never called on it in any run, and its state is left as it
    was.  Telephony media frames that arrive after the AI socket has closed
    are dropped without any write. *)
Theorem C6_ai_socket_dropped :
  forall (env : environment) (Buffer_from_object : jsval -> option (list nat))
         (s : session) (k : nat),
    crashed s = false -> sockets s !! k = Some OPEN ->
    let closed := set_elevenWs None (set_sockets (<[k := CLOSED]> (sockets s)) s) in
    let failed := set_sockets (<[k := CLOSING]> (sockets s)) s in
    step (Rev1.callbacks env) s (ElevenClosed k) = (closed, []) /\
    step (Rev4.callbacks Buffer_from_object) s (ElevenClosed k) = (closed, []) /\
    step (Rev1.callbacks env) s (ElevenError k) = (failed, []) /\
    step (Rev4.callbacks Buffer_from_object) s (ElevenError k) = (failed, []) /\
    twilioWs closed = twilioWs s /\ twilioWs failed = twilioWs s /\
    (forall msg p, is_media msg p ->
       step (Rev1.callbacks env) closed (TwilioMessage (Some msg)) = (closed, []) /\
       step (Rev4.callbacks Buffer_from_object) closed (TwilioMessage (Some msg))
       = (closed, [])) /\
    (forall evs,
       twilio_closes (snd (run (Rev1.callbacks env) s evs)) = 0 /\
       twilio_closes (snd (run (Rev4.callbacks Buffer_from_object) s evs)) = 0).
Proof.
  intros env bfo s k Hc Hk closed failed.
  unfold step. rewrite Hc, Hk.
  repeat (split; [reflexivity|]).
  split.
  - intros msg p (Hev & media & Hm & Hp).
    subst closed.
    cbn [Rev1.callbacks Rev4.callbacks onTwilioMessage].
    unfold invoke, Rev1.onTwilio, Rev4.onTwilio, Rev1.onMedia, Rev4.onMedia.
    unfold_js.
    cbn [crashed twilioWs elevenWs set_elevenWs set_sockets].
    rewrite Hc, Hev. labels.
    destruct (twilioWs s); split; reflexivity.
  - intros evs. split.
    + apply (run_twilio_closes _ _ _ (Rev1_disciplined env)).
    + apply (run_twilio_closes _ _ _ (Rev4_disciplined bfo)).
Qed.

Lemma C6_ai_socket_dropped_witness :
  step (Rev1.callbacks env_ok) active (ElevenClosed 0)
  = (set_elevenWs None (set_sockets [CLOSED] active), []) /\
  step (Rev4.callbacks no_objects) active (ElevenClosed 0)
  = (set_elevenWs None (set_sockets [CLOSED] active), []).
Proof.
  destruct (C6_ai_socket_dropped env_ok no_objects active 0 eq_refl eq_refl)
    as (H1 & H4 & _).
  split; [exact H1 | exact H4].
Defined.

(** C6 as stated fails: after the AI socket has closed, or failed and then
    closed, the telephony socket is still open, [close()] has not been
    called on it, and the caller's audio is dropped. *)
Lemma C6_counterexample :
  let closed := Rev1.session_run env_ok
        [TwilioMessage (Some (start_msg "MZ1" "CA1")); ElevenOpen 0;
         ElevenClosed 0; TwilioMessage (Some (media_msg (JStr "AAA=")))] in
  let failed := Rev1.session_run env_ok
        [TwilioMessage (Some (start_msg "MZ1" "CA1")); ElevenOpen 0;
         ElevenError 0; ElevenClosed 0;
         TwilioMessage (Some (media_msg (JStr "AAA=")))] in
  let sent := [ElevenNew 0;
               ElevenSend 0 (JObj [("type", JStr "conversation_initiation_client_data")])] in
  (twilioWs (fst closed) = OPEN /\ snd closed = sent) /\
  (twilioWs (fst failed) = OPEN /\ snd failed = sent) /\
  ~ In TwilioClose sent.
Proof.
  repeat split. intros [H|[H|[]]]; discriminate H.
Qed.

(** * Further properties of the bridge *)

(** ** Which callback an action comes from *)

Lemma step_delivery h s e :
  step h s e =
  match delivery h s e with
  | Some (m, s0) => invoke m s0
  | None =>
      (if crashed s then s
       else match e with
            | TwilioError =>
                match twilioWs s with
                | CLOSED => s
                | _ => set_twilioWs CLOSING s
                end
            | ElevenError k =>
                match sockets s !! k with
                | Some CONNECTING | Some OPEN | Some CLOSING =>
                    set_sockets (<[k := CLOSING]> (sockets s)) s
                | _ => s
                end
            | _ => s
            end, [])
  end.
Proof.
  unfold step, delivery. destruct (crashed s); [reflexivity|].
  destruct e as [data| | |a| |k|k data|k|k];
    try (destruct (twilioWs s); reflexivity);
    try (destruct (pending s); reflexivity);
    destruct (sockets s !! k) as [[]|]; reflexivity.
Qed.

Lemma step_action_from h s e a :
  In a (snd (step h s e)) ->
  exists m s0, delivery h s e = Some (m, s0) /\ In a (snd (invoke m s0)).
Proof.
  rewrite step_delivery. destruct (delivery h s e) as [[m s0]|]; [eauto|].
  intros [].
Qed.

(** ** What is written to the AI socket *)

Ltac in_cases H :=
  cbn [snd In] in H;
  repeat (destruct H as [H|H]; try discriminate H); try contradiction.

Lemma close_eleven_sends s k frame :
  ~ In (ElevenSend k frame) (snd (close_eleven s)).
Proof.
  rewrite close_eleven_eq. intros H.
  destruct (elevenWs s); [destruct (is_open _)|]; in_cases H.
Qed.

Lemma Rev4_resume_sends signedUrl s k frame :
  ~ In (ElevenSend k frame) (snd (Rev4.setupElevenLabs_resume signedUrl s)).
Proof.
  unfold Rev4.setupElevenLabs_resume. unfold_js. intros H. revert H.
  exec; intros H; in_cases H.
Qed.

Lemma Rev1_onOpen_sends s k frame :
  In (ElevenSend k frame) (snd (Rev1.onOpen s)) ->
  elevenWs s = Some k /\ ready s k = OPEN /\ frame = JSON_stringify Rev1_init.
Proof.
  unfold Rev1.onOpen. unfold_js. exec; intros H; in_cases H.
  injection H as <- <-. auto.
Qed.

Lemma Rev4_onOpen_sends s k frame :
  In (ElevenSend k frame) (snd (Rev4.onOpen s)) ->
  elevenWs s = Some k /\ ready s k = OPEN /\ frame = JSON_stringify Rev4.initMsg.
Proof.
  unfold Rev4.onOpen. unfold_js. exec; intros H; in_cases H.
  injection H as <- <-. auto.
Qed.

Lemma Rev1_onTwilio_sends env data s k frame :
  In (ElevenSend k frame) (snd (Rev1.onTwilio env data s)) ->
  elevenWs s = Some k /\ ready s k = OPEN /\
  ai_frame Rev1_init Some Rev1_pong (TwilioMessage data) frame.
Proof.
  unfold Rev1.onTwilio, Rev1.onMedia, Rev1.connectElevenLabs. unfold_js.
  exec; intros H; in_cases H.
  injection H as <- <-.
  repeat match goal with
         | H : is_label _ _ = true |- _ => apply is_label_true in H; subst
         end.
  cbn [ai_frame]. eauto 10.
Qed.

Lemma Rev4_onTwilio_sends bfo data s k frame :
  In (ElevenSend k frame) (snd (Rev4.onTwilio bfo data s)) ->
  elevenWs s = Some k /\ ready s k = OPEN /\
  ai_frame Rev4.initMsg (Rev4_recode bfo) Rev4_pong (TwilioMessage data) frame.
Proof.
  unfold Rev4.onTwilio, Rev4.onMedia. unfold_js.
  exec; intros H; in_cases H.
  injection H as <- <-.
  repeat match goal with
         | H : is_label _ _ = true |- _ => apply is_label_true in H; subst
         end.
  cbn [ai_frame]. repeat split; auto.
  match goal with
  | Hm : prop _ "media" = Some ?m, Hp : prop ?m "payload" = Some ?p,
    Hb : Rev4.Buffer_from _ ?p = Some ?l |- _ =>
      exists m, p, (JStr (base64_encode l)); unfold Rev4_recode; rewrite Hb; auto
  end.
Qed.

Lemma Rev1_onMessage_sends data s k frame :
  In (ElevenSend k frame) (snd (Rev1.onMessage data s)) ->
  elevenWs s = Some k /\ ready s k = OPEN /\
  forall j, ai_frame Rev1_init Some Rev1_pong (ElevenMessage j data) frame.
Proof.
  destruct data as [msg|]; [|intros []].
  destruct (prop msg "type") as [type|] eqn:Ht;
    [|unfold Rev1.onMessage, try_catch, lift, bind, throw; cbn; rewrite Ht; intros []].
  pose proof (prop_defined _ _ _ "ping_event" Ht) as Hp.
  unfold Rev1.onMessage, Rev1.onAudio, Rev1.onPing. unfold_js.
  cbn beta iota. rewrite Ht. cbn beta iota.
  exec; intros H; in_cases H;
    injection H as <- <-;
    repeat match goal with
           | H : is_label _ _ = true |- _ => apply is_label_true in H; subst
           end;
    (split; [reflexivity|]; split; [assumption|]; intros j; cbn [ai_frame];
     split; [assumption|]; unfold Rev1_pong, ping_id;
     eexists; split; [reflexivity|];
     repeat match goal with H : truthy _ = _ |- _ => rewrite H end; reflexivity).
Qed.

Lemma Rev4_onMessage_sends data s k frame :
  In (ElevenSend k frame) (snd (Rev4.onMessage data s)) ->
  elevenWs s = Some k /\ ready s k = OPEN /\
  forall j bfo, ai_frame Rev4.initMsg (Rev4_recode bfo) Rev4_pong (ElevenMessage j data) frame.
Proof.
  destruct data as [msg|]; [|intros []].
  destruct (prop msg "type") as [type|] eqn:Ht;
    [|unfold Rev4.onMessage, try_catch, lift, bind, throw; cbn; rewrite Ht; intros []].
  pose proof (prop_defined _ _ _ "ping_event" Ht) as Hp.
  unfold Rev4.onMessage, Rev4.onAudio, Rev4.onPing. unfold_js.
  cbn beta iota. rewrite Ht. cbn beta iota.
  exec; intros H; in_cases H;
    injection H as <- <-;
    repeat match goal with
           | H : is_label _ _ = true |- _ => apply is_label_true in H; subst
           end;
    (split; [reflexivity|]; split; [assumption|]; intros j bfo; cbn [ai_frame];
     split; [assumption|]; unfold Rev4_pong, ping_id;
     eexists; split;
     [repeat match goal with H : truthy _ = _ |- _ => rewrite H end; reflexivity|];
     reflexivity).
Qed.

Lemma delivery_elevenWs h s e m s0 :
  delivery h s e = Some (m, s0) -> elevenWs s0 = elevenWs s.
Proof.
  unfold delivery. destruct (crashed s); [discriminate|].
  destruct e as [data| | |a| |k|k data|k|k];
    try (destruct (twilioWs s); intros [= <- <-]; reflexivity);
    try (destruct (pending s); intros [= <- <-]; reflexivity);
    try discriminate;
    destruct (sockets s !! k) as [[]|]; intros [= <- <-]; reflexivity.
Qed.

Lemma Rev1_step_sends env s e k frame :
  In (ElevenSend k frame) (snd (step (Rev1.callbacks env) s e)) ->
  elevenWs s = Some k /\ ai_frame Rev1_init Some Rev1_pong e frame.
Proof.
  intros Hin.
  apply step_action_from in Hin as (m & s0 & Hd & Hin).
  pose proof (delivery_elevenWs _ _ _ _ _ Hd) as He.
  apply invoke_snd_in in Hin as [Hin|Hin]; [discriminate|].
  rewrite <- He. revert Hd Hin. unfold delivery.
  destruct (crashed s); [discriminate|].
  destruct e as [data| | |a| |j|j data|j|j]; cbn [Rev1.callbacks onTwilioMessage
    onTwilioClose onSignedUrl onElevenOpen onElevenMessage onElevenClose];
    try discriminate.
  - destruct (twilioWs s); intros [= <- <-] Hin.
    apply Rev1_onTwilio_sends in Hin as (? & _ & ?). auto.
  - destruct (twilioWs s); intros [= <- <-] Hin;
      now apply close_eleven_sends in Hin.
  - destruct (pending s); intros [= <- <-] Hin. in_cases Hin.
  - destruct (pending s); intros [= <- <-] Hin. in_cases Hin.
  - destruct (sockets s !! j) as [[]|]; intros [= <- <-] Hin.
    apply Rev1_onOpen_sends in Hin as (? & _ & ?). auto.
  - destruct (sockets s !! j) as [[]|]; intros [= <- <-] Hin;
      apply Rev1_onMessage_sends in Hin as (? & _ & ?); auto.
  - destruct (sockets s !! j) as [[]|]; intros [= <- <-] Hin; in_cases Hin.
Qed.

Lemma Rev4_step_sends bfo s e k frame :
  In (ElevenSend k frame) (snd (step (Rev4.callbacks bfo) s e)) ->
  elevenWs s = Some k /\
  ai_frame Rev4.initMsg (Rev4_recode bfo) Rev4_pong e frame.
Proof.
  intros Hin.
  apply step_action_from in Hin as (m & s0 & Hd & Hin).
  pose proof (delivery_elevenWs _ _ _ _ _ Hd) as He.
  apply invoke_snd_in in Hin as [Hin|Hin]; [discriminate|].
  rewrite <- He. revert Hd Hin. unfold delivery.
  destruct (crashed s); [discriminate|].
  destruct e as [data| | |a| |j|j data|j|j]; cbn [Rev4.callbacks onTwilioMessage
    onTwilioClose onSignedUrl onElevenOpen onElevenMessage onElevenClose];
    try discriminate.
  - destruct (twilioWs s); intros [= <- <-] Hin.
    apply Rev4_onTwilio_sends in Hin as (? & _ & ?). auto.
  - destruct (twilioWs s); intros [= <- <-] Hin;
      now apply close_eleven_sends in Hin.
  - destruct (pending s); intros [= <- <-] Hin.
    now apply Rev4_resume_sends in Hin.
  - destruct (pending s); intros [= <- <-] Hin.
    now apply Rev4_resume_sends in Hin.
  - destruct (sockets s !! j) as [[]|]; intros [= <- <-] Hin.
    apply Rev4_onOpen_sends in Hin as (? & _ & ?). auto.
  - destruct (sockets s !! j) as [[]|]; intros [= <- <-] Hin;
      apply Rev4_onMessage_sends in Hin as (? & _ & ?); auto.
  - destruct (sockets s !! j) as [[]|]; intros [= <- <-] Hin; in_cases Hin.
Qed.

(** ** Revisions 2 and 4: one AI socket, no uncaught exception *)

Lemma Rev4_onTwilio_keeps bfo data s :
  elevenWs (snd (fst (Rev4.onTwilio bfo data s))) = elevenWs s.
Proof.
  unfold Rev4.onTwilio, Rev4.onMedia. unfold_js.
  exec; cbn [fst snd elevenWs set_streamSid set_callSid set_sockets]; congruence.
Qed.

Lemma close_eleven_keeps s :
  elevenWs (snd (fst (close_eleven s))) = elevenWs s.
Proof.
  rewrite close_eleven_eq.
  destruct (elevenWs s) eqn:He; [destruct (is_open _)|]; cbn; now rewrite ?He.
Qed.

Lemma news_app a b : news (a ++ b) = news a + news b.
Proof. unfold news. now rewrite List.filter_app, length_app. Qed.

Lemma control_effect_rev4_inv c s s' acts :
  control_effect c s s' acts -> elevenWs s' = elevenWs s \/ c = true ->
  rev4_inv s -> (c = true -> sockets s = [] /\ pending s = false) ->
  rev4_inv s' /\ ~ In Uncaught acts /\
  news acts + length (sockets s) = length (sockets s').
Proof.
  intros Heff Hkeep (Hc & Hinv) Hnew.
  inversion Heff as [s1 (Hs & Ht & He & Hp & Hcr) | k f He Hr | k He Hr
                     | s1 Hcon (Hs & Ht & He & Hp & Hcr) | ]; subst.
  - split; [|split]; [|intros []|now rewrite Hs].
    split; [congruence|]. now rewrite Hs, He, Hp.
  - split; [|split]; [|intros [H|[]]; discriminate H|reflexivity].
    split; assumption.
  - apply ready_OPEN in Hr.
    destruct (sockets s) as [|r [|r2 rest]] eqn:Hsock; try contradiction.
    + discriminate Hr.
    + destruct Hinv as (Hp & He').
      destruct k as [|k]; [|discriminate Hr]. cbn in Hr. injection Hr as ->.
      split; [|split]; [|intros [H|[]]; discriminate H|].
      * split; [exact Hc|]. cbn [sockets set_sockets pending elevenWs].
        rewrite ?Hsock. cbn. auto.
      * cbn [sockets set_sockets]. rewrite ?Hsock. reflexivity.
  - destruct (Hnew eq_refl) as (Hs0 & Hp0).
    split; [|split]; [|intros [H|[]]; discriminate H|].
    + split; [cbn; congruence|].
      cbn [sockets set_sockets set_elevenWs pending elevenWs]. rewrite Hs0. cbn.
      split; [congruence | reflexivity].
    + cbn [sockets set_sockets set_elevenWs news]. rewrite Hs0. reflexivity.
  - destruct Hkeep as [Hkeep | Hcon].
    + cbn in Hkeep.
      split; [|split]; [|intros []|reflexivity].
      split; [exact Hc|]. cbn [sockets set_elevenWs pending elevenWs].
      rewrite <- Hkeep in Hinv. exact Hinv.
    + destruct (Hnew Hcon) as (Hs0 & Hp0).
      split; [|split]; [|intros []|reflexivity].
      split; [exact Hc|]. cbn [sockets set_elevenWs pending elevenWs].
      now rewrite Hs0.
Qed.

Lemma message_effect_rev4_inv s s' acts :
  message_effect s s' acts -> rev4_inv s ->
  rev4_inv s' /\ ~ In Uncaught acts /\
  news acts + length (sockets s) = length (sockets s').
Proof.
  intros Heff (Hc & Hinv).
  inversion Heff as [s1 (Hs & Ht & He & Hp & Hcr) | f Hr | k f He Hr]; subst.
  - split; [|split]; [|intros []|now rewrite Hs].
    split; [congruence|]. now rewrite Hs, He, Hp.
  - split; [|split]; [|intros [H|[]]; discriminate H|reflexivity].
    split; assumption.
  - split; [|split]; [|intros [H|[]]; discriminate H|reflexivity].
    split; assumption.
Qed.

Lemma invoke_effect (P : session -> list action -> Prop) m s s' acts :
  m s = (Some tt, s', acts) -> P s' acts ->
  P (fst (invoke m s)) (snd (invoke m s)).
Proof. intros Heq HP. unfold invoke. now rewrite Heq. Qed.

Lemma Rev4_onOpen_open s k :
  elevenWs s = Some k -> ready s k = OPEN ->
  Rev4.onOpen s = (Some tt, s, [ElevenSend k (JSON_stringify Rev4.initMsg)]).
Proof.
  intros He Hr. unfold Rev4.onOpen. unfold_js. cbn beta iota.
  rewrite He. cbn beta iota. now rewrite Hr.
Qed.

Lemma Rev4_step_inv bfo s e :
  rev4_inv s ->
  rev4_inv (fst (step (Rev4.callbacks bfo) s e)) /\
  ~ In Uncaught (snd (step (Rev4.callbacks bfo) s e)) /\
  news (snd (step (Rev4.callbacks bfo) s e)) + length (sockets s)
  = length (sockets (fst (step (Rev4.callbacks bfo) s e))).
Proof.
  intros Hinv. pose proof Hinv as (Hc & Hsock).
  set (P := fun s0 (s' : session) (acts : list action) =>
              rev4_inv s' /\ ~ In Uncaught acts /\
              news acts + length (sockets s0) = length (sockets s')).
  change (P s (fst (step (Rev4.callbacks bfo) s e)) (snd (step (Rev4.callbacks bfo) s e))).
  assert (Hskip : P s s []) by (repeat split; auto).
  unfold step. rewrite Hc.
  destruct e as [data| | |a| |k|k data|k|k];
    cbn [Rev4.callbacks onTwilioMessage onTwilioClose onSignedUrl onElevenOpen
         onElevenMessage onElevenClose].
  - destruct (twilioWs s); try exact Hskip.
    destruct (Rev4_onTwilio_effect bfo data s) as (s' & acts & Heq & Heff).
    pose proof (Rev4_onTwilio_keeps bfo data s) as Hk. rewrite Heq in Hk.
    apply (invoke_effect (P s) _ _ _ _ Heq).
    apply (control_effect_rev4_inv false s s' acts Heff); auto; discriminate.
  - assert (Hgo : P s (fst (invoke close_eleven (set_twilioWs CLOSED s)))
                      (snd (invoke close_eleven (set_twilioWs CLOSED s)))).
    { destruct (close_eleven_effect (set_twilioWs CLOSED s)) as (s' & acts & Heq & Heff).
      pose proof (close_eleven_keeps (set_twilioWs CLOSED s)) as Hk. rewrite Heq in Hk.
      apply (invoke_effect (P s) _ _ _ _ Heq).
      apply (control_effect_rev4_inv false (set_twilioWs CLOSED s) s' acts Heff);
        auto; try discriminate. }
    destruct (twilioWs s); try exact Hskip; exact Hgo.
  - destruct (twilioWs s); try exact Hskip; (repeat split; auto).
  - destruct (pending s) eqn:Hp; [|exact Hskip].
    assert (Hs0 : sockets s = []).
    { destruct (sockets s) as [|r [|r2 rest]]; [reflexivity | | contradiction].
      destruct Hsock as (Hp' & _). congruence. }
    destruct (Rev4_resume_effect (Some a) (set_pending false s)) as (s' & acts & Heq & Heff).
    apply (invoke_effect (P s) _ _ _ _ Heq).
    assert (He : elevenWs s = None) by (rewrite Hs0 in Hsock; exact Hsock).
    apply (control_effect_rev4_inv _ (set_pending false s) s' acts Heff).
    + inversion Heff as [s1 Hss| | |s1 Hc1 Hss|]; subst;
        [left; apply Hss | left; reflexivity | left; reflexivity
        | right; assumption | left; cbn; now rewrite He].
    + split; [exact Hc|]. cbn [sockets set_pending]. rewrite Hs0. exact He.
    + intros _. split; [exact Hs0 | reflexivity].
  - destruct (pending s) eqn:Hp; [|exact Hskip].
    assert (Hs0 : sockets s = []).
    { destruct (sockets s) as [|r [|r2 rest]]; [reflexivity | | contradiction].
      destruct Hsock as (Hp' & _). congruence. }
    destruct (Rev4_resume_effect None (set_pending false s)) as (s' & acts & Heq & Heff).
    apply (invoke_effect (P s) _ _ _ _ Heq).
    assert (He : elevenWs s = None) by (rewrite Hs0 in Hsock; exact Hsock).
    apply (control_effect_rev4_inv _ (set_pending false s) s' acts Heff).
    + inversion Heff as [s1 Hss| | |s1 Hc1 Hss|]; subst;
        [left; apply Hss | left; reflexivity | left; reflexivity
        | right; assumption | left; cbn; now rewrite He].
    + split; [exact Hc|]. cbn [sockets set_pending]. rewrite Hs0. exact He.
    + intros _. split; [exact Hs0 | reflexivity].
  - destruct (sockets s) as [|r [|r2 rest]] eqn:Hs0; try contradiction;
      [exact Hskip|].
    destruct k as [|k]; [|exact Hskip]. cbn -[Rev4.onOpen invoke P].
    destruct r; try exact Hskip.
    destruct Hsock as (Hp & He).
    unfold invoke. rewrite (Rev4_onOpen_open _ 0) by (cbn; auto).
    unfold P. cbn. rewrite Hs0.
    repeat split; auto. intros [H|[]]; discriminate H.
  - assert (Hgo : P s (fst (invoke (Rev4.onMessage data) s))
                      (snd (invoke (Rev4.onMessage data) s))).
    { destruct (Rev4_onMessage_effect data s) as (s' & acts & Heq & Heff).
      apply (invoke_effect (P s) _ _ _ _ Heq).
      now apply message_effect_rev4_inv. }
    destruct (sockets s !! k) as [[]|]; try exact Hskip; exact Hgo.
  - destruct (sockets s) as [|r [|r2 rest]] eqn:Hs0; try contradiction;
      [exact Hskip|].
    destruct k as [|k]; [|exact Hskip]. cbn.
    destruct Hsock as (Hp & He).
    destruct r; try exact Hskip; unfold P; cbn; rewrite ?Hs0; repeat split; auto.
  - destruct (sockets s) as [|r [|r2 rest]] eqn:Hs0; try contradiction;
      [exact Hskip|].
    destruct k as [|k]; [|exact Hskip]. cbn.
    destruct Hsock as (Hp & He).
    destruct r; try exact Hskip; unfold P; cbn; rewrite ?Hs0; repeat split; auto.
Qed.

Lemma Rev4_run_inv bfo evs : forall s,
  rev4_inv s ->
  rev4_inv (fst (run (Rev4.callbacks bfo) s evs)) /\
  ~ In Uncaught (snd (run (Rev4.callbacks bfo) s evs)) /\
  news (snd (run (Rev4.callbacks bfo) s evs)) + length (sockets s)
  = length (sockets (fst (run (Rev4.callbacks bfo) s evs))).
Proof.
  induction evs as [|e rest IH]; intros s Hinv.
  - cbn. destruct Hinv. repeat split; auto.
  - rewrite run_cons. cbn [fst snd].
    destruct (Rev4_step_inv bfo s e Hinv) as (H1 & H2 & H3).
    destruct (IH _ H1) as (H4 & H5 & H6).
    split; [exact H4|]. split.
    + rewrite in_app_iff. tauto.
    + rewrite news_app. lia.
Qed.

Lemma rev4_inv_accepted env : rev4_inv (fst (Rev4.accepted env)).
Proof.
  rewrite Rev4_accepted_eq.
  destruct (missing (ELEVENLABS_API_KEY env) || missing (ELEVENLABS_AGENT_ID env));
    split; reflexivity.
Qed.

Lemma rev4_accepted_quiet env :
  ~ In Uncaught (snd (Rev4.accepted env)) /\ news (snd (Rev4.accepted env)) = 0 /\
  sockets (fst (Rev4.accepted env)) = [].
Proof.
  rewrite Rev4_accepted_eq.
  destruct (missing (ELEVENLABS_API_KEY env) || missing (ELEVENLABS_AGENT_ID env));
    cbn; (split; [|split; reflexivity]); intros H; in_cases H.
Qed.

Lemma rev4_inv_length s : rev4_inv s -> length (sockets s) <= 1.
Proof.
  intros (_ & H). destruct (sockets s) as [|r [|r2 rest]]; cbn; try lia; contradiction.
Qed.

Lemma Rev4_open_is_current bfo s j k frame :
  rev4_inv s ->
  In (ElevenSend k frame) (snd (step (Rev4.callbacks bfo) s (ElevenOpen j))) ->
  j = k.
Proof.
  intros (Hc & Hinv) Hin.
  pose proof (Rev4_step_sends _ _ _ _ _ Hin) as (He & _).
  assert (Hj : sockets s !! j = Some CONNECTING).
  { revert Hin. unfold step. rewrite Hc.
    destruct (sockets s !! j) as [[]|]; try (intros []). reflexivity. }
  destruct (sockets s) as [|r [|r2 rest]]; try contradiction; [discriminate Hj|].
  destruct j as [|j]; [|discriminate Hj]. injection Hj as ->.
  destruct Hinv as (_ & Hinv). congruence.
Qed.

(** X1.  Every message written to an AI socket goes to the socket the
    variable [elevenWs] refers to when the event is handled, and is the
    initiation message (written while the [open] event of an AI socket is
    handled), the [user_audio_chunk] of the telephony media frame being
    handled, or the pong of the ping being handled.  In revisions 2 and 4
    the socket written on an [open] event is the socket that opened, in
    every state a call can reach.  Revision 1 sends on [elevenWs] from the
    [open] callback, so no such link holds there. *)
Theorem ai_socket_frames :
  forall (env : environment) (Buffer_from_object : jsval -> option (list nat))
         (s : session) (e : event) (k : nat) (frame : jsval),
    (In (ElevenSend k frame) (snd (step (Rev1.callbacks env) s e)) ->
     elevenWs s = Some k /\ ai_frame Rev1_init Some Rev1_pong e frame) /\
    (In (ElevenSend k frame) (snd (step (Rev4.callbacks Buffer_from_object) s e)) ->
     elevenWs s = Some k /\
     ai_frame Rev4.initMsg (Rev4_recode Buffer_from_object) Rev4_pong e frame) /\
    (forall (evs : list event) (j : nat),
       In (ElevenSend k frame)
          (snd (step (Rev4.callbacks Buffer_from_object)
                  (fst (Rev4.session_run env Buffer_from_object evs)) (ElevenOpen j))) ->
       j = k).
Proof.
  intros env bfo s e k frame. split; [|split].
  - apply Rev1_step_sends.
  - apply Rev4_step_sends.
  - intros evs j. apply Rev4_open_is_current.
    rewrite Rev4_session_run_eq. cbn [fst].
    apply Rev4_run_inv, rev4_inv_accepted.
Qed.

Lemma ai_socket_frames_witness :
  ai_frame Rev4.initMsg (Rev4_recode no_objects) Rev4_pong
    (TwilioMessage (Some (media_msg (JStr "AAA="))))
    (JObj [("user_audio_chunk", JStr "AAA=")]).
Proof.
  apply (proj1 (proj2 (ai_socket_frames env_ok no_objects active
                         (TwilioMessage (Some (media_msg (JStr "AAA=")))) 0
                         (JObj [("user_audio_chunk", JStr "AAA=")])))).
  left. reflexivity.
Defined.

(** In revision 1 the [open] callback of one socket can write to another:
    after a second [start] frame [elevenWs] refers to the second socket,
    and when that one is open the [open] event of the first writes the
    initiation message to it. *)
Example rev1_open_writes_other_socket :
  snd (Rev1.session_run env_ok
         [TwilioMessage (Some (start_msg "MZ1" "CA1"));
          TwilioMessage (Some (start_msg "MZ1" "CA1"));
          ElevenOpen 1; ElevenOpen 0])
  = [ElevenNew 0; ElevenNew 1;
     ElevenSend 1 (JObj [("type", JStr "conversation_initiation_client_data")]);
     ElevenSend 1 (JObj [("type", JStr "conversation_initiation_client_data")])].
Proof. reflexivity. Qed.

(** X2. Revisions 2 and 4 create at most one AI socket per call: whatever
    the two peers and the signed-URL request do, and in whatever order, the
    run calls [new WebSocket] at most once, and the sockets of the call are
    exactly the ones it created. *)
Theorem Rev4_one_ai_socket env bfo evs :
  news (snd (Rev4.session_run env bfo evs))
  = length (sockets (fst (Rev4.session_run env bfo evs))) /\
  news (snd (Rev4.session_run env bfo evs)) <= 1.
Proof.
  rewrite Rev4_session_run_eq. cbn [fst snd].
  destruct (Rev4_run_inv bfo evs _ (rev4_inv_accepted env)) as (H1 & _ & H3).
  destruct (rev4_accepted_quiet env) as (_ & Ha & Hs).
  apply rev4_inv_length in H1.
  rewrite news_app, Ha. rewrite Hs in H3. cbn [length] in H3. lia.
Qed.

(** X3. In revisions 2 and 4 no sequence of events makes a callback of a
    call throw out of its handler, so none crashes the process: the
    unguarded [elevenWs.send] of the [open] callback always finds [elevenWs]
    referring to the socket that has just opened, and every other use of
    the AI socket is guarded or inside a [try]. *)
Theorem Rev4_never_crashes env bfo evs :
  crashed (fst (Rev4.session_run env bfo evs)) = false /\
  ~ In Uncaught (snd (Rev4.session_run env bfo evs)).
Proof.
  rewrite Rev4_session_run_eq. cbn [fst snd].
  destruct (Rev4_run_inv bfo evs _ (rev4_inv_accepted env)) as ((H1 & _) & H2 & _).
  destruct (rev4_accepted_quiet env) as (Ha & _).
  split; [exact H1|]. rewrite in_app_iff. tauto.
Qed.

(** ** Revisions 2 and 4: the initiation message comes first *)

Lemma control_effect_sockets c s s' acts :
  control_effect c s s' acts -> rev4_inv s -> (c = true -> sockets s = []) ->
  (forall k f, In (ElevenSend k f) acts -> sockets s = [OPEN]) /\
  (sockets s' = sockets s \/ (sockets s = [] /\ sockets s' = [CONNECTING]) \/
   (exists r, sockets s = [r] /\ sockets s' = [CLOSING])).
Proof.
  intros Heff (Hc & Hinv) Hnew.
  assert (Hopen : forall k, elevenWs s = Some k -> ready s k = OPEN -> sockets s = [OPEN]).
  { intros k He Hr. unfold ready in Hr.
    destruct (sockets s) as [|r [|r2 rest]]; try contradiction.
    - rewrite He in Hinv. discriminate.
    - destruct Hinv as (_ & Hinv). rewrite He in Hinv.
      destruct r; inversion Hinv; subst; cbn in Hr; congruence. }
  destruct Heff as [s1 Hss| k f He Hr | k He Hr |s1 Hc1 Hss|].
  - split; [intros k f []|]. left. apply Hss.
  - split; [intros; eauto|]. now left.
  - pose proof (Hopen k He Hr) as Hs. split; [intros k0 f [H|[]]; discriminate H|].
    right. right. exists OPEN. split; [exact Hs|]. cbn. rewrite Hs.
    rewrite Hs in Hinv. destruct Hinv as (_ & Hinv). rewrite He in Hinv.
    now inversion Hinv.
  - split; [intros k0 f [H|[]]; discriminate H|].
    right. left. cbn. rewrite (Hnew Hc1). split; reflexivity.
  - split; [intros k f []|]. now left.
Qed.

Lemma message_effect_sockets s s' acts :
  message_effect s s' acts -> rev4_inv s ->
  (forall k f, In (ElevenSend k f) acts -> sockets s = [OPEN]) /\
  sockets s' = sockets s.
Proof.
  intros Heff (Hc & Hinv).
  destruct Heff as [s1 Hss | f Hr | k f He Hr].
  - split; [intros k f []|]. apply Hss.
  - split; [intros k f0 [H|[]]; discriminate H|reflexivity].
  - split; [|reflexivity]. intros _ _ _. unfold ready in Hr.
    destruct (sockets s) as [|r [|r2 rest]]; try contradiction.
    + rewrite He in Hinv. discriminate.
    + destruct Hinv as (_ & Hinv). rewrite He in Hinv.
      destruct r; inversion Hinv; subst; cbn in Hr; congruence.
Qed.

Lemma Rev4_frame_not_init bfo e frame :
  ai_frame Rev4.initMsg (Rev4_recode bfo) Rev4_pong e frame ->
  (forall k, e <> ElevenOpen k) ->
  frame <> JSON_stringify Rev4.initMsg.
Proof.
  intros Hf Hne. destruct e as [[msg|]| | |a| |k|k [msg|]|k|k]; cbn in Hf; try contradiction.
  - destruct Hf as (_ & media & payload & sent & _ & _ & Hr & ->).
    unfold Rev4_recode in Hr. destruct (Rev4.Buffer_from bfo payload); [|discriminate].
    injection Hr as <-. discriminate.
  - now destruct (Hne k).
  - destruct Hf as (_ & reply & Hr & ->). unfold Rev4_pong in Hr.
    destruct (truthy (ping_id msg)); [|discriminate]. injection Hr as <-.
    cbn. destruct (JSON_stringify (ping_id msg)); discriminate.
Qed.

Lemma Rev4_step_sockets bfo s e :
  rev4_inv s ->
  (e = ElevenOpen 0 /\ sockets s = [CONNECTING] /\
   sockets (fst (step (Rev4.callbacks bfo) s e)) = [OPEN] /\
   snd (step (Rev4.callbacks bfo) s e) = [ElevenSend 0 (JSON_stringify Rev4.initMsg)]) \/
  ((forall k f, In (ElevenSend k f) (snd (step (Rev4.callbacks bfo) s e)) ->
      sockets s = [OPEN] /\ f <> JSON_stringify Rev4.initMsg) /\
   (sockets (fst (step (Rev4.callbacks bfo) s e)) = sockets s \/
    (sockets s = [] /\ sockets (fst (step (Rev4.callbacks bfo) s e)) = [CONNECTING]) \/
    (exists r r', sockets s = [r] /\ sockets (fst (step (Rev4.callbacks bfo) s e)) = [r'] /\
                  (r' = CLOSING \/ r' = CLOSED)))).
Proof.
  intros Hinv. pose proof Hinv as (Hc & Hsock).
  set (Q := fun s0 (s' : session) (acts : list action) =>
              (forall k f, In (ElevenSend k f) acts -> sockets s0 = [OPEN]) /\
              (sockets s' = sockets s0 \/
               (sockets s0 = [] /\ sockets s' = [CONNECTING]) \/
               (exists r r', sockets s0 = [r] /\ sockets s' = [r'] /\
                             (r' = CLOSING \/ r' = CLOSED)))).
  assert (Hctl : forall c s1 s' acts,
             control_effect c s1 s' acts -> rev4_inv s1 -> sockets s1 = sockets s ->
             (c = true -> sockets s1 = []) -> Q s s' acts).
  { intros c s1 s' acts Heff Hi1 Hs1 Hn.
    destruct (control_effect_sockets _ _ _ _ Heff Hi1 Hn) as (H1 & H2).
    rewrite Hs1 in H1, H2. split; [exact H1|].
    destruct H2 as [H2|[H2|(r & H2 & H3)]]; auto.
    right. right. exists r, CLOSING. auto. }
  assert (Hskip : Q s s []).
  { split; [intros k f []|now left]. }
  assert (HQ : (forall j, e <> ElevenOpen j) ->
               Q s (fst (step (Rev4.callbacks bfo) s e))
                   (snd (step (Rev4.callbacks bfo) s e)) ->
               (forall k f, In (ElevenSend k f) (snd (step (Rev4.callbacks bfo) s e)) ->
                  sockets s = [OPEN] /\ f <> JSON_stringify Rev4.initMsg) /\
               (sockets (fst (step (Rev4.callbacks bfo) s e)) = sockets s \/
                (sockets s = [] /\
                 sockets (fst (step (Rev4.callbacks bfo) s e)) = [CONNECTING]) \/
                (exists r r', sockets s = [r] /\
                   sockets (fst (step (Rev4.callbacks bfo) s e)) = [r'] /\
                   (r' = CLOSING \/ r' = CLOSED)))).
  { intros Hne (H1 & H2). split; [|exact H2].
    intros k f Hin. split; [eauto|].
    apply Rev4_step_sends in Hin as (_ & Hf).
    eapply Rev4_frame_not_init; eauto. }
  assert (Hfresh : pending s = true -> sockets s = []).
  { intros Hp. destruct (sockets s) as [|r [|r2 rest]]; [reflexivity | | contradiction].
    destruct Hsock as (Hp' & _). congruence. }
  destruct e as [data| | |a| |k|k data|k|k];
    try (right; apply HQ; [intros j; discriminate|]);
    unfold step; rewrite Hc;
    cbn [Rev4.callbacks onTwilioMessage onTwilioClose onSignedUrl onElevenOpen
         onElevenMessage onElevenClose].
  - destruct (twilioWs s); try exact Hskip.
    destruct (Rev4_onTwilio_effect bfo data s) as (s' & acts & Heq & Heff).
    apply (invoke_effect (Q s) _ _ _ _ Heq).
    apply (Hctl false s s' acts Heff); auto; discriminate.
  - assert (Hgo : Q s (fst (invoke close_eleven (set_twilioWs CLOSED s)))
                      (snd (invoke close_eleven (set_twilioWs CLOSED s)))).
    { destruct (close_eleven_effect (set_twilioWs CLOSED s)) as (s' & acts & Heq & Heff).
      apply (invoke_effect (Q s) _ _ _ _ Heq).
      apply (Hctl false (set_twilioWs CLOSED s) s' acts Heff); auto; discriminate. }
    destruct (twilioWs s); try exact Hskip; exact Hgo.
  - destruct (twilioWs s); try exact Hskip; (split; [intros k f []|now left]).
  - destruct (pending s) eqn:Hp; [|exact Hskip].
    destruct (Rev4_resume_effect (Some a) (set_pending false s)) as (s' & acts & Heq & Heff).
    apply (invoke_effect (Q s) _ _ _ _ Heq).
    apply (Hctl _ (set_pending false s) s' acts Heff);
      [ | reflexivity | intros _; exact (Hfresh eq_refl) ].
    split; [exact Hc|]. cbn [sockets set_pending elevenWs].
    rewrite (Hfresh eq_refl) in Hsock |- *. exact Hsock.
  - destruct (pending s) eqn:Hp; [|exact Hskip].
    destruct (Rev4_resume_effect None (set_pending false s)) as (s' & acts & Heq & Heff).
    apply (invoke_effect (Q s) _ _ _ _ Heq).
    apply (Hctl _ (set_pending false s) s' acts Heff);
      [ | reflexivity | intros _; exact (Hfresh eq_refl) ].
    split; [exact Hc|]. cbn [sockets set_pending elevenWs].
    rewrite (Hfresh eq_refl) in Hsock |- *. exact Hsock.
  - destruct (sockets s) as [|r [|r2 rest]] eqn:Hs0; try contradiction.
    { right. split; [intros k0 f []|now left]. }
    destruct k as [|k].
    2:{ right. split; [intros k0 f []|now left]. }
    cbn -[Rev4.onOpen invoke].
    destruct r; try (right; split; [intros k0 f []|now left]).
    left. destruct Hsock as (Hp & He).
    unfold invoke. rewrite (Rev4_onOpen_open _ 0) by (cbn; auto).
    cbn. rewrite ?Hs0. auto.
  - assert (Hgo : Q s (fst (invoke (Rev4.onMessage data) s))
                      (snd (invoke (Rev4.onMessage data) s))).
    { destruct (Rev4_onMessage_effect data s) as (s' & acts & Heq & Heff).
      apply (invoke_effect (Q s) _ _ _ _ Heq).
      destruct (message_effect_sockets _ _ _ Heff Hinv) as (H1 & H2).
      split; [exact H1|now left]. }
    destruct (sockets s !! k) as [[]|]; try exact Hskip; exact Hgo.
  - destruct (sockets s) as [|r [|r2 rest]] eqn:Hs0; try contradiction;
      [exact Hskip|].
    destruct k as [|k]; [|exact Hskip]. cbn.
    destruct r; try exact Hskip; (split; [intros k0 f Hin; in_cases Hin|]);
      right; right; eexists _, CLOSED; cbn; rewrite ?Hs0; auto.
  - destruct (sockets s) as [|r [|r2 rest]] eqn:Hs0; try contradiction;
      [exact Hskip|].
    destruct k as [|k]; [|exact Hskip]. cbn.
    destruct r; try exact Hskip; (split; [intros k0 f Hin; in_cases Hin|]);
      right; right; eexists _, CLOSING; cbn; rewrite ?Hs0; auto.
Qed.

Lemma eleven_sends_app a b : eleven_sends (a ++ b) = eleven_sends a ++ eleven_sends b.
Proof. apply List.filter_app. Qed.

Lemma eleven_sends_In a acts : In a (eleven_sends acts) -> In a acts.
Proof. unfold eleven_sends. rewrite List.filter_In. tauto. Qed.

Lemma eleven_sends_none acts :
  (forall k f, ~ In (ElevenSend k f) acts) -> eleven_sends acts = [].
Proof.
  induction acts as [|a rest IH]; intros H; [reflexivity|].
  assert (Hrest : eleven_sends rest = []).
  { apply IH. intros k f Hin. apply (H k f). now right. }
  destruct a as [t| | |k|k f|k|]; try exact Hrest.
  destruct (H k f). now left.
Qed.

(** once the AI socket has left [CONNECTING], the initiation message is
    not written *)
Lemma Rev4_run_opened bfo evs : forall s r,
  rev4_inv s -> sockets s = [r] -> r <> CONNECTING ->
  forall k f, In (ElevenSend k f) (snd (run (Rev4.callbacks bfo) s evs)) ->
              f <> JSON_stringify Rev4.initMsg.
Proof.
  induction evs as [|e rest IH]; intros s r Hinv Hs Hr k f Hin; [destruct Hin|].
  rewrite run_cons in Hin. cbn [snd] in Hin. apply in_app_iff in Hin.
  destruct (Rev4_step_inv bfo s e Hinv) as (Hinv' & _).
  destruct (Rev4_step_sockets bfo s e Hinv) as [(_ & Hc & _)|(Hsend & Hmove)].
  { rewrite Hs in Hc. congruence. }
  destruct Hin as [Hin|Hin]; [now apply Hsend in Hin|].
  destruct Hmove as [Hm|[(Hm & _)|(r0 & r' & _ & Hm & Hr')]].
  - rewrite Hs in Hm. exact (IH _ r Hinv' Hm Hr k f Hin).
  - rewrite Hs in Hm. discriminate.
  - apply (IH _ r' Hinv' Hm) with (k := k); [|exact Hin].
    destruct Hr' as [-> | ->]; discriminate.
Qed.

Lemma Rev4_run_init_first bfo evs : forall s,
  rev4_inv s -> sockets s <> [OPEN] ->
  init_first (snd (run (Rev4.callbacks bfo) s evs)).
Proof.
  induction evs as [|e rest IH]; intros s Hinv Hs; [exact I|].
  rewrite run_cons. cbn [snd]. unfold init_first. rewrite eleven_sends_app.
  destruct (Rev4_step_inv bfo s e Hinv) as (Hinv' & _).
  destruct (Rev4_step_sockets bfo s e Hinv) as [(_ & _ & Ho & ->)|(Hsend & Hmove)].
  - cbn. split; [reflexivity|]. intros k Hin. apply eleven_sends_In in Hin.
    now apply (Rev4_run_opened bfo rest _ OPEN Hinv' Ho) in Hin.
  - rewrite eleven_sends_none; [|intros k f Hin; now apply Hsend in Hin].
    apply IH; [exact Hinv'|].
    destruct Hmove as [Hm|[(_ & Hm)|(r0 & r' & _ & Hm & [-> | ->])]];
      rewrite Hm; try discriminate. exact Hs.
Qed.

(** X4. In revisions 2 and 4 the first message a call writes to the AI
    socket is the initiation message, and the call writes it once: no audio
    and no pong goes out before it, and nothing written after it equals
    it. *)
Theorem Rev4_init_message_first env bfo evs :
  init_first (snd (Rev4.session_run env bfo evs)).
Proof.
  rewrite Rev4_session_run_eq. cbn [snd].
  destruct (rev4_accepted_quiet env) as (_ & _ & Hs).
  pose proof (Rev4_run_init_first bfo evs _ (rev4_inv_accepted env)) as H.
  rewrite Hs in H. specialize (H ltac:(discriminate)).
  unfold init_first in *. rewrite eleven_sends_app.
  replace (eleven_sends (snd (Rev4.accepted env))) with (@nil action); [exact H|].
  rewrite Rev4_accepted_eq.
  destruct (missing (ELEVENLABS_API_KEY env) || missing (ELEVENLABS_AGENT_ID env));
    reflexivity.
Qed.

(** ** Nothing is written to an AI socket after [close()] *)

Lemma closes_In k acts : In (ElevenClose k) acts -> 1 <= closes k acts.
Proof.
  intros Hin. unfold closes.
  assert (H : In (ElevenClose k) (List.filter (is_close k) acts)).
  { apply List.filter_In. split; [exact Hin|]. cbn. apply Nat.eqb_refl. }
  destruct (List.filter (is_close k) acts); [destruct H | cbn; lia].
Qed.

Lemma control_effect_send_open c s s' acts k f :
  control_effect c s s' acts -> In (ElevenSend k f) acts ->
  sockets s !! k = Some OPEN /\ forall j, ~ In (ElevenClose j) acts.
Proof.
  intros Heff Hin. destruct Heff as [s1 Hss| j g He Hr | j He Hr |s1 Hc1 Hss|];
    in_cases Hin.
  injection Hin as -> ->. split; [now apply ready_OPEN|].
  intros j0 [H|[]]; discriminate H.
Qed.

Lemma message_effect_send_open s s' acts k f :
  message_effect s s' acts -> In (ElevenSend k f) acts ->
  sockets s !! k = Some OPEN /\ forall j, ~ In (ElevenClose j) acts.
Proof.
  intros Heff Hin. destruct Heff as [s1 Hss | g Hr | j g He Hr]; in_cases Hin.
  injection Hin as -> ->. split; [now apply ready_OPEN|].
  intros j0 [H|[]]; discriminate H.
Qed.

Lemma step_shape_send_open c s s' acts k f :
  step_shape c s s' acts -> In (ElevenSend k f) acts ->
  ~ past s k /\ forall j, ~ In (ElevenClose j) acts.
Proof.
  intros H Hin.
  destruct H as [s0 s1 a Hpre Heff | j s1 a Hj Heff | j s1 a Hj Heff].
  - destruct (control_effect_send_open _ _ _ _ _ _ Heff Hin) as (Ho & Hnc).
    split; [|exact Hnc]. intros Hp. apply (past_pre_step _ _ _ Hpre) in Hp.
    destruct Hp; congruence.
  - apply in_app_iff in Hin as [Hin|Hin]; [|in_cases Hin].
    destruct (control_effect_send_open _ _ _ _ _ _ Heff Hin) as (Ho & Hnc).
    split.
    + intros Hp. cbn [sockets set_sockets] in Ho.
      destruct (decide (j = k)) as [->|Hne].
      * destruct Hp; congruence.
      * rewrite list_lookup_insert_ne in Ho by exact Hne. destruct Hp; congruence.
    + intros j0 Hc. apply in_app_iff in Hc as [Hc|Hc]; [now apply Hnc in Hc|].
      in_cases Hc.
  - destruct (message_effect_send_open _ _ _ _ _ Heff Hin) as (Ho & Hnc).
    split; [|exact Hnc]. intros Hp. destruct Hp; congruence.
Qed.

Section AfterClose.
Variables (h : handlers) (connects_on : option jsval -> bool)
          (connects_url : option bool -> bool).
Hypothesis Hd : disciplined h connects_on connects_url.

Lemma run_past_no_send evs : forall s k f,
  past s k -> ~ In (ElevenSend k f) (snd (run h s evs)).
Proof.
  induction evs as [|e rest IH]; intros s k f Hp Hin; [destruct Hin|].
  rewrite run_cons in Hin. cbn [snd] in Hin.
  pose proof (step_has_shape _ _ _ Hd s e) as Hshape. cbn zeta in Hshape.
  apply in_app_iff in Hin as [Hin|Hin].
  - now destruct (step_shape_send_open _ _ _ _ _ _ Hshape Hin) as (Hnp & _).
  - destruct (step_shape_closes _ _ _ _ k Hshape) as (_ & _ & H3).
    destruct (H3 Hp) as (Hp' & _). exact (IH _ _ _ Hp' Hin).
Qed.

Lemma run_no_send_after_close evs : forall s pre post k f,
  snd (run h s evs) = pre ++ ElevenClose k :: post ->
  ~ In (ElevenSend k f) post.
Proof.
  induction evs as [|e rest IH]; intros s pre post k f Heq Hin.
  - destruct pre; discriminate Heq.
  - rewrite run_cons in Heq. cbn [snd] in Heq.
    pose proof (step_has_shape _ _ _ Hd s e) as Hshape. cbn zeta in Hshape.
    apply app_eq_app in Heq as (l & [(H1 & H2)|(H1 & H2)]).
    + destruct l as [|a l].
      * cbn in H2. symmetry in H2. exact (IH _ [] _ _ _ H2 Hin).
      * injection H2 as <- ->.
        assert (Hc : In (ElevenClose k) (snd (step h s e))).
        { rewrite H1. apply in_app_iff. right. now left. }
        destruct (step_shape_closes _ _ _ _ k Hshape) as (Hle & Hpast & _).
        pose proof (closes_In _ _ Hc) as Hge.
        assert (Hp : past (fst (step h s e)) k) by (apply Hpast; lia).
        apply in_app_iff in Hin as [Hin|Hin].
        -- assert (Hs : In (ElevenSend k f) (snd (step h s e))).
           { rewrite H1. apply in_app_iff. right. now right. }
           destruct (step_shape_send_open _ _ _ _ _ _ Hshape Hs) as (_ & Hnc).
           exact (Hnc _ Hc).
        -- exact (run_past_no_send _ _ _ _ Hp Hin).
    + exact (IH _ _ _ _ _ H2 Hin).
Qed.
End AfterClose.

(** X5. Once [close()] has been called on an AI socket, nothing more is
    written to that socket, in every revision and from every state: in the
    trace of any run, no [send] on socket [k] follows a [close()] on
    socket [k]. *)
Theorem no_write_after_close :
  forall (env : environment) (Buffer_from_object : jsval -> option (list nat))
         (s : session) (evs : list event) (pre post : list action)
         (k : nat) (frame : jsval),
    (snd (run (Rev1.callbacks env) s evs) = pre ++ ElevenClose k :: post ->
     ~ In (ElevenSend k frame) post) /\
    (snd (run (Rev4.callbacks Buffer_from_object) s evs) = pre ++ ElevenClose k :: post ->
     ~ In (ElevenSend k frame) post).
Proof.
  intros env bfo s evs pre post k frame. split.
  - eapply run_no_send_after_close, Rev1_disciplined.
  - eapply run_no_send_after_close, Rev4_disciplined.
Qed.

Lemma no_write_after_close_witness :
  ~ In (ElevenSend 0 (pong_frame (JNum 7))) [TwilioSend (clear_frame (JStr "MZ1"))].
Proof.
  apply (proj2 (no_write_after_close env_ok no_objects active
                  [TwilioMessage (Some stop_msg);
                   ElevenMessage 0 (Some (ping_msg (JNum 7)));
                   ElevenMessage 0 (Some interruption_msg)]
                  [] [TwilioSend (clear_frame (JStr "MZ1"))] 0 (pong_frame (JNum 7)))).
  reflexivity.
Defined.

(** ** When the telephony socket is written *)

Lemma invoke_streamSid m s :
  streamSid (fst (invoke m s)) = streamSid (snd (fst (m s))).
Proof. unfold invoke. now destruct (m s) as [[[u|] s1] acts]. Qed.

Lemma close_eleven_streamSid s : streamSid (snd (fst (close_eleven s))) = streamSid s.
Proof.
  rewrite close_eleven_eq.
  destruct (elevenWs s); [destruct (is_open _)|]; reflexivity.
Qed.

Lemma Rev1_onMessage_streamSid data s :
  streamSid (snd (fst (Rev1.onMessage data s))) = streamSid s.
Proof.
  unfold Rev1.onMessage, Rev1.onAudio, Rev1.onPing. unfold_js.
  exec; reflexivity.
Qed.

Lemma Rev4_onMessage_streamSid data s :
  streamSid (snd (fst (Rev4.onMessage data s))) = streamSid s.
Proof.
  unfold Rev4.onMessage, Rev4.onAudio, Rev4.onPing. unfold_js.
  exec; reflexivity.
Qed.

Lemma Rev1_onOpen_streamSid s : streamSid (snd (fst (Rev1.onOpen s))) = streamSid s.
Proof. unfold Rev1.onOpen. unfold_js. exec; reflexivity. Qed.

Lemma Rev4_onOpen_streamSid s : streamSid (snd (fst (Rev4.onOpen s))) = streamSid s.
Proof. unfold Rev4.onOpen. unfold_js. exec; reflexivity. Qed.

Lemma Rev4_resume_streamSid signedUrl s :
  streamSid (snd (fst (Rev4.setupElevenLabs_resume signedUrl s))) = streamSid s.
Proof. unfold Rev4.setupElevenLabs_resume. unfold_js. exec; reflexivity. Qed.

Lemma Rev1_onTwilio_streamSid env data s :
  is_start data = false ->
  streamSid (snd (fst (Rev1.onTwilio env data s))) = streamSid s.
Proof.
  intros Hns. destruct data as [msg|]; [|reflexivity].
  cbn [is_start] in Hns. unfold opt_chain in Hns.
  unfold Rev1.onTwilio, Rev1.onMedia. unfold_js.
  destruct (prop msg "event") as [ev|] eqn:Hev; [|reflexivity].
  cbn beta iota in Hns |- *. rewrite ?Hev. cbn beta iota.
  destruct (is_label ev "connected"); [reflexivity|]. rewrite Hns.
  exec; reflexivity.
Qed.

Lemma Rev4_onTwilio_streamSid bfo data s :
  is_start data = false ->
  streamSid (snd (fst (Rev4.onTwilio bfo data s))) = streamSid s.
Proof.
  intros Hns. destruct data as [msg|]; [|reflexivity].
  cbn [is_start] in Hns. unfold opt_chain in Hns.
  unfold Rev4.onTwilio, Rev4.onMedia. unfold_js.
  destruct (prop msg "event") as [ev|] eqn:Hev; [|reflexivity].
  cbn beta iota in Hns |- *. rewrite ?Hev. cbn beta iota.
  destruct (is_label ev "connected"); [reflexivity|]. rewrite Hns.
  exec; reflexivity.
Qed.

Lemma Rev1_step_streamSid env s e :
  is_start_event e = false ->
  streamSid (fst (step (Rev1.callbacks env) s e)) = streamSid s.
Proof.
  intros Hns. unfold step. destruct (crashed s); [reflexivity|].
  destruct e as [data| | |a| |k|k data|k|k];
    cbn [Rev1.callbacks onTwilioMessage onTwilioClose onSignedUrl onElevenOpen
         onElevenMessage onElevenClose].
  - destruct (twilioWs s); try reflexivity.
    rewrite invoke_streamSid. now apply Rev1_onTwilio_streamSid.
  - destruct (twilioWs s); try reflexivity;
      rewrite invoke_streamSid; exact (close_eleven_streamSid (set_twilioWs CLOSED s)).
  - destruct (twilioWs s); reflexivity.
  - destruct (pending s); reflexivity.
  - destruct (pending s); reflexivity.
  - destruct (sockets s !! k) as [[]|]; try reflexivity.
    rewrite invoke_streamSid.
    exact (Rev1_onOpen_streamSid (set_sockets (<[k := OPEN]> (sockets s)) s)).
  - destruct (sockets s !! k) as [[]|]; try reflexivity;
      rewrite invoke_streamSid; apply Rev1_onMessage_streamSid.
  - destruct (sockets s !! k) as [[]|]; reflexivity.
  - destruct (sockets s !! k) as [[]|]; reflexivity.
Qed.

Lemma Rev4_step_streamSid bfo s e :
  is_start_event e = false ->
  streamSid (fst (step (Rev4.callbacks bfo) s e)) = streamSid s.
Proof.
  intros Hns. unfold step. destruct (crashed s); [reflexivity|].
  destruct e as [data| | |a| |k|k data|k|k];
    cbn [Rev4.callbacks onTwilioMessage onTwilioClose onSignedUrl onElevenOpen
         onElevenMessage onElevenClose].
  - destruct (twilioWs s); try reflexivity.
    rewrite invoke_streamSid. now apply Rev4_onTwilio_streamSid.
  - destruct (twilioWs s); try reflexivity;
      rewrite invoke_streamSid; exact (close_eleven_streamSid (set_twilioWs CLOSED s)).
  - destruct (twilioWs s); reflexivity.
  - destruct (pending s); [|reflexivity].
    rewrite invoke_streamSid.
    exact (Rev4_resume_streamSid _ (set_pending false s)).
  - destruct (pending s); [|reflexivity].
    rewrite invoke_streamSid.
    exact (Rev4_resume_streamSid _ (set_pending false s)).
  - destruct (sockets s !! k) as [[]|]; try reflexivity.
    rewrite invoke_streamSid.
    exact (Rev4_onOpen_streamSid (set_sockets (<[k := OPEN]> (sockets s)) s)).
  - destruct (sockets s !! k) as [[]|]; try reflexivity;
      rewrite invoke_streamSid; apply Rev4_onMessage_streamSid.
  - destruct (sockets s !! k) as [[]|]; reflexivity.
  - destruct (sockets s !! k) as [[]|]; reflexivity.
Qed.

Section TelephonyWrites.
Variables (h : handlers) (connects_on : option jsval -> bool)
          (connects_url : option bool -> bool).
Hypothesis Hd : disciplined h connects_on connects_url.
Hypothesis Hsid : forall s e,
  is_start_event e = false -> streamSid (fst (step h s e)) = streamSid s.

Lemma step_send_ready s e frame :
  In (TwilioSend frame) (snd (step h s e)) -> twilio_ready s = true.
Proof.
  intros Hin.
  apply (step_twilio_send _ _ _ Hd) in Hin as (k & data & -> & Hin).
  destruct (d_message _ _ _ Hd data s) as (s' & acts & Heq & Heff).
  rewrite Heq in Hin. cbn [snd] in Hin.
  destruct Heff as [s1 Hss | g Hr | j g He Hr]; in_cases Hin. exact Hr.
Qed.

Lemma step_not_open s e :
  twilioWs s <> OPEN -> twilioWs (fst (step h s e)) <> OPEN.
Proof.
  intros Hne. destruct (telephony_ends e) eqn:He.
  - unfold step. destruct (crashed s); [exact Hne|].
    destruct e; try discriminate He.
    + assert (Hgo : twilioWs (fst (invoke (onTwilioClose h) (set_twilioWs CLOSED s)))
                    <> OPEN).
      { rewrite invoke_twilioWs; [discriminate|].
        destruct (d_twilio_close _ _ _ Hd (set_twilioWs CLOSED s))
          as (s' & acts & Heq & Heff).
        eauto 6 using control_effect_twilioWs. }
      destruct (twilioWs s) eqn:Ht; try exact Hgo. cbn. congruence.
    + destruct (twilioWs s) eqn:Ht; cbn; congruence.
  - now rewrite (step_twilioWs _ _ _ Hd).
Qed.

Lemma run_closed_quiet evs : forall s frame,
  twilioWs s <> OPEN -> ~ In (TwilioSend frame) (snd (run h s evs)).
Proof.
  induction evs as [|e rest IH]; intros s frame Hne Hin; [destruct Hin|].
  rewrite run_cons in Hin. cbn [snd] in Hin. apply in_app_iff in Hin as [Hin|Hin].
  - apply step_send_ready in Hin. unfold twilio_ready in Hin.
    apply andb_true_iff in Hin as (_ & Hin). destruct (twilioWs s); try discriminate.
    now apply Hne.
  - exact (IH _ _ (step_not_open s e Hne) Hin).
Qed.

Lemma run_unstarted_quiet evs : forall s frame,
  truthy (streamSid s) = false ->
  forallb (fun e => negb (is_start_event e)) evs = true ->
  ~ In (TwilioSend frame) (snd (run h s evs)).
Proof.
  induction evs as [|e rest IH]; intros s frame Hsid0 Hall Hin; [destruct Hin|].
  cbn [forallb] in Hall. apply andb_true_iff in Hall as (He & Hall).
  apply negb_true_iff in He.
  rewrite run_cons in Hin. cbn [snd] in Hin. apply in_app_iff in Hin as [Hin|Hin].
  - apply step_send_ready in Hin. unfold twilio_ready in Hin.
    rewrite Hsid0 in Hin. discriminate.
  - apply (IH (fst (step h s e)) frame); auto. now rewrite Hsid.
Qed.
End TelephonyWrites.

(** X6. Nothing is written to the telephony socket before a [start] frame
    has given [streamSid] a truthy value, and nothing once that socket has
    left the [OPEN] state, whatever else happens: in a run without [start]
    frames from a state where [streamSid] is falsy, and in any run from a
    state where the telephony socket is not open, the trace has no
    [twilioWs.send]. *)
Theorem telephony_write_window :
  forall (env : environment) (Buffer_from_object : jsval -> option (list nat))
         (s : session) (evs : list event) (frame : jsval),
    (truthy (streamSid s) = false /\
     forallb (fun e => negb (is_start_event e)) evs = true) \/
    twilioWs s <> OPEN ->
    ~ In (TwilioSend frame) (snd (run (Rev1.callbacks env) s evs)) /\
    ~ In (TwilioSend frame) (snd (run (Rev4.callbacks Buffer_from_object) s evs)).
Proof.
  intros env bfo s evs frame [(Hsid & Hall)|Hne]; split.
  - eapply run_unstarted_quiet; eauto using Rev1_disciplined, Rev1_step_streamSid.
  - eapply run_unstarted_quiet; eauto using Rev4_disciplined, Rev4_step_streamSid.
  - eapply run_closed_quiet; eauto using Rev1_disciplined.
  - eapply run_closed_quiet; eauto using Rev4_disciplined.
Qed.

Lemma telephony_write_window_witness :
  ~ In (TwilioSend (media_frame JNull (JStr "BBB=")))
       (snd (run (Rev4.callbacks no_objects)
               (set_elevenWs (Some 0) (set_sockets [OPEN] initial))
               [ElevenMessage 0 (Some (audio_msg (JStr "BBB=")));
                TwilioMessage (Some (media_msg (JStr "AAA=")))])).
Proof.
  apply (telephony_write_window env_ok no_objects
           (set_elevenWs (Some 0) (set_sockets [OPEN] initial))
           [ElevenMessage 0 (Some (audio_msg (JStr "BBB=")));
            TwilioMessage (Some (media_msg (JStr "AAA=")))]
           (media_frame JNull (JStr "BBB="))).
  left. split; reflexivity.
Defined.

(** ** Frames outside the protocol *)

(** X7. A frame that is not JSON, that is [null], or whose [event] (on the
    telephony socket) or [type] (on the AI socket) is none of the labels the
    [switch] acts on, changes no variable and causes no write and no
    [close()], in any state: the [try] around each [message] callback
    swallows the parse and property errors. *)
Theorem unhandled_frames_ignored :
  forall (env : environment) (Buffer_from_object : jsval -> option (list nat))
         (s : session) (k : nat) (data : option jsval),
    (unhandled "event" twilio_case data = true ->
     step (Rev1.callbacks env) s (TwilioMessage data) = (s, []) /\
     step (Rev4.callbacks Buffer_from_object) s (TwilioMessage data) = (s, [])) /\
    (unhandled "type" Rev1_case data = true ->
     step (Rev1.callbacks env) s (ElevenMessage k data) = (s, [])) /\
    (unhandled "type" Rev4_case data = true ->
     step (Rev4.callbacks Buffer_from_object) s (ElevenMessage k data) = (s, [])).
Proof.
  intros env bfo s k data. unfold step.
  destruct (crashed s); [repeat split; reflexivity|].
  cbn [Rev1.callbacks Rev4.callbacks onTwilioMessage onElevenMessage].
  split; [|split]; intros Hun.
  - destruct (twilioWs s); try (split; reflexivity).
    unfold invoke, Rev1.onTwilio, Rev4.onTwilio. unfold_js.
    destruct data as [msg|]; [|split; reflexivity].
    cbn [unhandled] in Hun. cbn beta iota.
    destruct (prop msg "event") as [ev|]; [|split; reflexivity].
    apply negb_true_iff in Hun. unfold twilio_case in Hun.
    apply orb_false_iff in Hun as (Hun & Hstop).
    apply orb_false_iff in Hun as (Hstart & Hmedia).
    cbn beta iota. rewrite Hstart, Hmedia, Hstop.
    destruct (is_label ev "connected"); split; reflexivity.
  - destruct (sockets s !! k) as [[]|]; try reflexivity;
      unfold invoke, Rev1.onMessage; unfold_js;
      (destruct data as [msg|]; [|reflexivity]);
      cbn [unhandled] in Hun; cbn beta iota;
      (destruct (prop msg "type") as [type|]; [|reflexivity]);
      apply negb_true_iff in Hun; unfold Rev1_case, Rev4_case in Hun;
      apply orb_false_iff in Hun as (Hmeta & Hun);
      apply orb_false_iff in Hun as (Hun & Hping);
      apply orb_false_iff in Hun as (Haudio & Hint);
      cbn beta iota; rewrite Hmeta, Haudio, Hint, Hping;
      destruct (forallb to_string_ok [type]); reflexivity.
  - destruct (sockets s !! k) as [[]|]; try reflexivity;
      unfold invoke, Rev4.onMessage; unfold_js;
      (destruct data as [msg|]; [|reflexivity]);
      cbn [unhandled] in Hun; cbn beta iota;
      (destruct (prop msg "type") as [type|]; [|reflexivity]);
      apply negb_true_iff in Hun; unfold Rev4_case in Hun;
      apply orb_false_iff in Hun as (Hun & Hping);
      apply orb_false_iff in Hun as (Haudio & Hint);
      cbn beta iota; rewrite Haudio, Hint, Hping; reflexivity.
Qed.

Lemma unhandled_frames_ignored_witness :
  step (Rev1.callbacks env_ok) active
    (TwilioMessage (Some (JObj [("event", JStr "mark")]))) = (active, []) /\
  step (Rev4.callbacks no_objects) active
    (TwilioMessage (Some (JObj [("event", JStr "mark")]))) = (active, []).
Proof.
  apply (proj1 (unhandled_frames_ignored env_ok no_objects active 0
                  (Some (JObj [("event", JStr "mark")])))).
  reflexivity.
Defined.

(** ** AI audio, in order *)

Lemma run_audio (h : handlers) (f : string -> action) s k msgs chunks :
  (forall msg c, is_audio_chunk msg c ->
     step h s (ElevenMessage k (Some msg)) = (s, [f c])) ->
  Forall2 is_audio_chunk msgs chunks ->
  run h s (List.map (fun msg => ElevenMessage k (Some msg)) msgs)
  = (s, List.map f chunks).
Proof.
  intros Hstep HF. induction HF as [|msg c msgs chunks Hm _ IH]; [reflexivity|].
  cbn [List.map run]. rewrite (Hstep _ _ Hm), IH. reflexivity.
Qed.

(** X8. While [streamSid] is known (truthy) and the telephony socket is
    open, a sequence of AI audio events that each carry a non-empty string
    chunk is written to the telephony socket as one frame per event, in the
    order received: the text of [{event: "media", streamSid, media:
    {payload: chunk}}] with the chunk as received and the current
    [streamSid]; the session does not change. *)
Theorem audio_relay_in_order :
  forall (env : environment) (Buffer_from_object : jsval -> option (list nat))
         (s : session) (k : nat) (msgs : list jsval) (chunks : list string),
    crashed s = false -> delivers s k ->
    truthy (streamSid s) = true -> twilioWs s = OPEN ->
    Forall2 is_audio_chunk msgs chunks ->
    let events := List.map (fun msg => ElevenMessage k (Some msg)) msgs in
    let frames :=
      List.map (fun c => TwilioSend (JSON_stringify (media_frame (streamSid s) (JStr c))))
        chunks in
    run (Rev1.callbacks env) s events = (s, frames) /\
    run (Rev4.callbacks Buffer_from_object) s events = (s, frames).
Proof.
  intros env bfo s k msgs chunks Hc Hd Hsid Ht HF events frames.
  assert (Hready : twilio_ready s = true).
  { unfold twilio_ready. now rewrite Hsid, Ht. }
  split; apply run_audio; try exact HF; intros msg c Hm;
    rewrite eleven_message_step by assumption;
    cbn [Rev1.callbacks Rev4.callbacks onElevenMessage];
    destruct (selected_chunk _ _ Hm) as (H1 & H4);
    pose proof Hm as (Htype & Hcne & _).
  - rewrite Rev1_audio_message by exact Htype.
    now rewrite Hready, H1, nonempty_string_JStr by exact Hcne.
  - rewrite Rev4_audio_message by exact Htype.
    now rewrite Hready, H4, truthy_nonempty by exact Hcne.
Qed.

Lemma audio_relay_in_order_witness :
  run (Rev4.callbacks no_objects) active
    [ElevenMessage 0 (Some (audio_msg (JStr "BBB=")));
     ElevenMessage 0 (Some (audio_event_msg (JStr "CCC=")))]
  = (active,
     [TwilioSend (JObj [("event", JStr "media"); ("streamSid", JStr "MZ1");
                        ("media", JObj [("payload", JStr "BBB=")])]);
      TwilioSend (JObj [("event", JStr "media"); ("streamSid", JStr "MZ1");
                        ("media", JObj [("payload", JStr "CCC=")])])]).
Proof.
  assert (HB : "BBB=" <> "") by discriminate.
  assert (HC : "CCC=" <> "") by discriminate.
  assert (HF : Forall2 is_audio_chunk
                 [audio_msg (JStr "BBB="); audio_event_msg (JStr "CCC=")]
                 ["BBB="; "CCC="]).
  { constructor; [now apply is_audio_chunk_audio_msg|].
    constructor; [|constructor].
    split; [reflexivity|]. split; [exact HC|]. right. split; reflexivity. }
  exact (proj2 (audio_relay_in_order env_ok no_objects active 0 _ _
                  eq_refl (or_introl eq_refl) eq_refl eq_refl HF)).
Defined.

(** ** The payload revisions 2 and 4 send *)







(** * The HTTP side *)

(** ** The log buffer *)

Lemma log_window now msg logBuffer :
  length logBuffer <= Http.MAX_LOGS ->
  Http.log now msg logBuffer
  = drop (length logBuffer + 1 - Http.MAX_LOGS)
         (logBuffer ++ [(now ++ " " ++ msg)%string]).
Proof.
  intros Hlen. unfold Http.log. cbv zeta. rewrite length_app. cbn [length].
  destruct (Nat.ltb_spec Http.MAX_LOGS (length logBuffer + 1)) as [Hgt|Hle].
  - replace (length logBuffer + 1 - Http.MAX_LOGS) with 1 by lia.
    now destruct (logBuffer ++ _).
  - replace (length logBuffer + 1 - Http.MAX_LOGS) with 0 by lia. reflexivity.
Qed.

Lemma logged_window calls : forall logBuffer,
  length logBuffer <= Http.MAX_LOGS ->
  let lines :=
    logBuffer ++ List.map (fun call => (fst call ++ " " ++ snd call)%string) calls in
  Http.logged calls logBuffer = drop (length lines - Http.MAX_LOGS) lines.
Proof.
  induction calls as [|[now msg] calls IH]; intros buf Hlen; cbv zeta.
  - cbn. rewrite app_nil_r. now replace (length buf - Http.MAX_LOGS) with 0 by lia.
  - cbn [Http.logged List.fold_left List.map fst snd].
    change (List.fold_left _ calls ?b) with (Http.logged calls b).
    rewrite log_window by exact Hlen.
    set (line := (now ++ " " ++ msg)%string).
    set (rest := List.map _ calls).
    assert (Hl : length (drop (length buf + 1 - Http.MAX_LOGS) (buf ++ [line]))
                 <= Http.MAX_LOGS).
    { rewrite length_drop, length_app. cbn [length]. lia. }
    rewrite (IH _ Hl). cbv zeta. fold rest.
    rewrite !length_app, length_drop, length_app. cbn [length].
    destruct (Nat.le_gt_cases (length buf + 1) Http.MAX_LOGS) as [Hle|Hgt].
    + replace (length buf + 1 - Http.MAX_LOGS) with 0 by lia.
      rewrite drop_0, <- app_assoc. cbn [app]. f_equal. lia.
    + replace (length buf + 1 - Http.MAX_LOGS) with 1 by lia.
      destruct buf as [|b buf]; [cbn in Hgt; unfold Http.MAX_LOGS in Hgt; lia|].
      cbn [app drop length] in *. rewrite drop_0, <- app_assoc. cbn [app].
      replace (S (length buf) + S (length rest) - Http.MAX_LOGS)
        with (S (S (length buf) + 1 - 1 + length rest - Http.MAX_LOGS)) by lia.
      reflexivity.
Qed.

Lemma log_keeps_last_lines_aux (calls : list (string * string)) :
  Http.logged calls []
  = drop (length calls - Http.MAX_LOGS)
         (List.map (fun call => (fst call ++ " " ++ snd call)%string) calls) /\
  length (Http.logged calls []) = Nat.min (length calls) Http.MAX_LOGS.
Proof.
  assert (H : Http.logged calls []
              = drop (length calls - Http.MAX_LOGS)
                  (List.map (fun call => (fst call ++ " " ++ snd call)%string) calls)).
  { rewrite logged_window by (cbn; lia). cbv zeta. cbn [app].
    now rewrite length_map. }
  split; [exact H|].
  rewrite H, length_drop, length_map. lia.
Qed.

(** X10. The log buffer holds the last [MAX_LOGS] = 200 lines logged, in
    the order logged: after any series of calls of [log] on the empty buffer
    it is the list of all the lines, each the time, a space and the message,
    without its first [n - 200] elements when [n] lines were logged; so it
    never grows beyond 200 lines and never loses one of the last 200. *)
Theorem log_keeps_last_lines :
  forall calls : list (string * string),
    let lines := List.map (fun call => (fst call ++ " " ++ snd call)%string) calls in
    Http.logged calls [] = drop (length calls - Http.MAX_LOGS) lines /\
    length (Http.logged calls []) = Nat.min (length calls) Http.MAX_LOGS.
Proof.
  intros calls lines. subst lines. apply log_keeps_last_lines_aux.
Qed.

Lemma append_empty (x y : string) : (x ++ y)%string = "" -> x = "".
Proof. destruct x; [reflexivity | discriminate]. Qed.

Lemma Array_join_empty sep x rest : Http.Array_join sep (x :: rest) = "" -> x = "".
Proof.
  destruct rest as [|y rest]; cbn [Http.Array_join]; [auto|]. apply append_empty.
Qed.

Lemma line_not_empty now msg : (now ++ " " ++ msg)%string <> "".
Proof. intros H. destruct now; discriminate H. Qed.

(** X11. [GET /debug] prints the buffer, one line per logged line, the
    lines joined by a newline; the text [(no logs yet)] is sent when
    nothing has been logged and only then, since a logged line is never
    empty. *)
Theorem debug_prints_buffer :
  forall calls : list (string * string),
    let lines := List.map (fun call => (fst call ++ " " ++ snd call)%string) calls in
    Http.debug (Http.logged calls [])
    = Http.Send 200 "text/plain"
        (match calls with
         | [] => "(no logs yet)"
         | _ => Http.Array_join Http.newline (drop (length calls - Http.MAX_LOGS) lines)
         end).
Proof.
  intros calls lines.
  destruct (log_keeps_last_lines_aux calls) as (Hw & Hlen). fold lines in Hw.
  destruct calls as [|c calls]; [reflexivity|].
  unfold Http.debug. rewrite <- Hw.
  destruct (Http.logged (c :: calls) []) as [|x rest] eqn:Hlog.
  { cbn [length] in Hlen. unfold Http.MAX_LOGS in Hlen. lia. }
  destruct (String.eqb_spec (Http.Array_join Http.newline (x :: rest)) "") as [He|Hne];
    [|reflexivity].
  apply Array_join_empty in He. subst x.
  assert (Hin : In "" lines).
  { apply list_elem_of_In.
    eapply (subseteq_drop (length (c :: calls) - Http.MAX_LOGS)).
    rewrite <- Hw. apply elem_of_cons. now left. }
  apply in_map_iff in Hin as ([now msg] & Hline & _).
  now apply line_not_empty in Hline.
Qed.

(** ** Authentication *)

Lemma bytes_eqb_eq a : forall b, Http.bytes_eqb a b = true <-> a = b.
Proof.
  induction a as [|x a IH]; intros [|y b]; cbn [Http.bytes_eqb];
    try (split; [discriminate | discriminate]); [tauto|].
  rewrite andb_true_iff, IH. split.
  - intros (Hx & ->). apply Ascii.eqb_eq in Hx. now subst.
  - intros [= -> ->]. split; [apply Ascii.eqb_refl | reflexivity].
Qed.

Lemma list_ascii_of_string_inj a b :
  list_ascii_of_string a = list_ascii_of_string b -> a = b.
Proof.
  intros H. rewrite <- (string_of_list_ascii_of_string a),
              <- (string_of_list_ascii_of_string b). now rewrite H.
Qed.

Lemma bytes_eqb_length a b : Http.bytes_eqb a b = true -> length a = length b.
Proof. intros H. apply bytes_eqb_eq in H. now subst. Qed.

Lemma safeEqual_buffers Buffer_from a b :
  Http.safeEqual Buffer_from (JStr a) (JStr b)
  = Some (Http.bytes_eqb (Buffer_from a) (Buffer_from b)).
Proof.
  unfold Http.safeEqual, Http.timingSafeEqual. cbv zeta.
  destruct (Nat.eqb_spec (length (Buffer_from a)) (length (Buffer_from b))) as [He|Hne];
    cbn [negb]; [reflexivity|].
  f_equal. symmetry. apply not_true_iff_false. intros H.
  now apply bytes_eqb_length in H.
Qed.

Lemma safeEqual_strings a b :
  Http.safeEqual Http.Buffer_from_text (JStr a) (JStr b) = Some (String.eqb a b).
Proof.
  rewrite safeEqual_buffers. f_equal. unfold Http.Buffer_from_text.
  destruct (String.eqb_spec a b) as [->|Hne].
  - now apply bytes_eqb_eq.
  - apply not_true_iff_false. rewrite bytes_eqb_eq.
    intros H. now apply list_ascii_of_string_inj in H.
Qed.

(** X12. [safeEqual(a, b)] never throws, although [crypto.timingSafeEqual]
    does on buffers of different lengths, and it answers [true] exactly when
    both arguments are strings to which [Buffer.from] gives the same bytes;
    for any other arguments it answers [false].  So it is the equality of
    strings as far as [Buffer.from] tells strings apart, and no further:
    whenever [Buffer.from] tells any two strings apart, [safeEqual] is true
    of the same string only. *)
Theorem safeEqual_exact :
  forall (Buffer_from : string -> list ascii) (a b : jsval),
    exists answer,
      Http.safeEqual Buffer_from a b = Some answer /\
      (answer = true <->
       exists x y, a = JStr x /\ b = JStr y /\ Buffer_from x = Buffer_from y) /\
      ((forall x y, Buffer_from x = Buffer_from y -> x = y) ->
       (answer = true <-> exists s, a = JStr s /\ b = JStr s)).
Proof.
  intros Buffer_from a b.
  assert (Hno : forall answer, answer = false ->
            (forall x y, a = JStr x -> b = JStr y -> False) ->
            (answer = true <->
             exists x y, a = JStr x /\ b = JStr y /\ Buffer_from x = Buffer_from y) /\
            ((forall x y, Buffer_from x = Buffer_from y -> x = y) ->
             (answer = true <-> exists s, a = JStr s /\ b = JStr s))).
  { intros answer -> H. split; [|intros _]; (split; [discriminate|]).
    - intros (x & y & Ha & Hb & _). now destruct (H x y).
    - intros (s & Ha & Hb). now destruct (H s s). }
  destruct a as [| | | |x| |];
    try (exists false; split; [reflexivity|]; apply Hno; [reflexivity|];
         intros x y; discriminate).
  destruct b as [| | | |y| |];
    try (exists false; split; [reflexivity|]; apply Hno; [reflexivity|];
         intros x0 y0 _; discriminate).
  exists (Http.bytes_eqb (Buffer_from x) (Buffer_from y)).
  split; [apply safeEqual_buffers|]. rewrite bytes_eqb_eq. split; [|intros Hinj]; split.
  - intros H. now exists x, y.
  - intros (x0 & y0 & [= ->] & [= ->] & H). exact H.
  - intros H. apply Hinj in H. subst y. now exists x.
  - intros (s & [= ->] & [= ->]). reflexivity.
Qed.

Lemma safeEqual_exact_witness :
  exists answer,
    Http.safeEqual Http.Buffer_from_text (JStr "s3cret") (JStr "s3cret") = Some answer /\
    (answer = true <-> exists s, JStr "s3cret" = JStr s /\ JStr "s3cret" = JStr s).
Proof.
  destruct (safeEqual_exact Http.Buffer_from_text (JStr "s3cret") (JStr "s3cret"))
    as (answer & H1 & _ & H3).
  exists answer. split; [exact H1|].
  apply H3. intros x y H. now apply list_ascii_of_string_inj in H.
Defined.

Lemma requireAuth_eq cfg req :
  Http.requireAuth cfg req =
  Some (if String.eqb (Http.path req) "/voice" then Http.next
        else if missing (Http.VOICE_API_KEY cfg) then
          Http.reply (Http.Json 503 (JObj [("error", JStr "Server not configured")]))
        else
          match Http.provided req, Http.VOICE_API_KEY cfg with
          | JStr token, Some key =>
              if String.eqb token key then Http.next
              else Http.reply (Http.Json 401 (JObj [("error", JStr "Unauthorized")]))
          | _, _ => Http.reply (Http.Json 401 (JObj [("error", JStr "Unauthorized")]))
          end).
Proof.
  unfold Http.requireAuth.
  destruct (String.eqb (Http.path req) "/voice"); [reflexivity|].
  destruct (Http.VOICE_API_KEY cfg) as [key|] eqn:Hkey; cbn [missing]; [|reflexivity].
  destruct (String.eqb_spec key "") as [->|Hne]; [reflexivity|].
  assert (Hp : exists v, Http.provided req = v /\
                         (v = JUndefined \/ exists s, v = JStr s)).
  { eexists. split; [reflexivity|]. unfold Http.provided, js_or, Http.header.
    destruct (Http.x_api_key req) as [k|]; cbn [truthy];
      [destruct (negb (String.eqb k ""))|];
      destruct (Http.authorization req); eauto. }
  destruct Hp as (v & -> & [-> | (s & ->)]); [reflexivity|].
  cbn [Http.header]. rewrite safeEqual_strings. cbn [truthy].
  destruct (String.eqb_spec s key) as [->|Hd].
  - destruct (String.eqb_spec key ""); [contradiction | reflexivity].
  - now destruct (negb (String.eqb s "")).
Qed.

(** X13. [requireAuth] never throws, and it lets a request through in two
    cases only: the path is [/voice], or [VOICE_API_KEY] is set to a
    non-empty string and the credential the request presents is that very
    string.  When the key is not set, every other request gets 503,
    whatever it presents; otherwise every other request gets 401. *)
Theorem requireAuth_decides :
  forall (cfg : Http.settings) (req : Http.request),
    exists v,
      Http.requireAuth cfg req = Some v /\
      (v = Http.next <->
       Http.path req = "/voice" \/
       exists key, Http.VOICE_API_KEY cfg = Some key /\ key <> "" /\
                   Http.provided req = JStr key) /\
      (v = Http.next \/
       (missing (Http.VOICE_API_KEY cfg) = true /\
        v = Http.reply (Http.Json 503 (JObj [("error", JStr "Server not configured")]))) \/
       (missing (Http.VOICE_API_KEY cfg) = false /\
        v = Http.reply (Http.Json 401 (JObj [("error", JStr "Unauthorized")])))).
Proof.
  intros cfg req. eexists. split; [apply requireAuth_eq|].
  destruct (String.eqb_spec (Http.path req) "/voice") as [Hp|Hp].
  { split; [|now left]. split; auto. }
  destruct (Http.VOICE_API_KEY cfg) as [key|] eqn:Hkey; cbn [missing].
  2:{ split; [|right; left; auto].
      split; [discriminate|]. intros [?|(key & [=] & _)]. contradiction. }
  destruct (String.eqb_spec key "") as [->|Hne].
  { split; [|right; left; auto].
    split; [discriminate|]. intros [?|(key & [= <-] & Hk & _)]; contradiction. }
  assert (H401 : forall v, (forall s, v = JStr s -> s <> key) ->
            Http.reply (Http.Json 401 (JObj [("error", JStr "Unauthorized")])) = Http.next <->
            Http.path req = "/voice" \/
            exists key0, Some key = Some key0 /\ key0 <> "" /\ v = JStr key0).
  { intros v Hv. split; [discriminate|].
    intros [?|(key0 & [= <-] & _ & Heq)]; [contradiction|]. now destruct (Hv key). }
  destruct (Http.provided req) as [| | | |s| |];
    try (split; [apply H401; intros s; discriminate | right; right; auto]).
  destruct (String.eqb_spec s key) as [->|Hd].
  - split; [|now left]. split; [|reflexivity]. intros _. right. exists key. auto.
  - split; [|right; right; auto]. apply H401. now intros s0 [= <-].
Qed.

(** X14. With [VOICE_API_KEY] set, a request to a path other than [/voice]
    is judged on one header: on [x-api-key] when it is not empty, whatever
    [Authorization] says, and otherwise on [Authorization] with its
    [Bearer] prefix removed; a request with neither gets 401. *)
Theorem requireAuth_header_precedence :
  forall (cfg : Http.settings) (req : Http.request) (key : string),
    Http.VOICE_API_KEY cfg = Some key -> key <> "" -> Http.path req <> "/voice" ->
    (forall k, Http.x_api_key req = Some k -> k <> "" ->
       (Http.requireAuth cfg req = Some Http.next <-> k = key)) /\
    (missing (Http.x_api_key req) = true ->
     forall a, Http.authorization req = Some a ->
       (Http.requireAuth cfg req = Some Http.next <-> Http.strip_bearer a = key)) /\
    (missing (Http.x_api_key req) = true -> Http.authorization req = None ->
     Http.requireAuth cfg req
     = Some (Http.reply (Http.Json 401 (JObj [("error", JStr "Unauthorized")])))).
Proof.
  intros cfg req key Hkey Hne Hpath.
  rewrite requireAuth_eq, Hkey. cbn [missing].
  destruct (String.eqb_spec (Http.path req) "/voice"); [contradiction|].
  destruct (String.eqb_spec key ""); [contradiction|].
  unfold Http.provided, js_or, Http.header.
  split; [|split].
  - intros k -> Hk. cbn [truthy].
    destruct (String.eqb_spec k ""); [contradiction|]. cbn [negb].
    destruct (String.eqb_spec k key); split; congruence.
  - intros Hx a ->.
    assert (Hf : truthy (match Http.x_api_key req with
                         | Some s => JStr s
                         | None => JUndefined
                         end) = false).
    { destruct (Http.x_api_key req) as [k|]; [|reflexivity].
      cbn in Hx |- *. now rewrite Hx. }
    rewrite Hf.
    destruct (String.eqb_spec (Http.strip_bearer a) key); split; congruence.
  - intros Hx ->.
    destruct (Http.x_api_key req) as [k|]; [|reflexivity].
    cbn in Hx |- *. now rewrite Hx.
Qed.

Lemma requireAuth_header_precedence_witness :
  Http.requireAuth
    (Http.mkSettings None None env_ok None None (Some "s3cret") None)
    (Http.mkRequest "/call" "/call" (Some "wrong") (Some "Bearer s3cret")
       None None (Some "voice.example.com") (JObj []))
  = Some Http.next <-> "wrong" = "s3cret".
Proof.
  assert (Hk : "s3cret" <> "") by discriminate.
  assert (Hp : "/call" <> "/voice") by discriminate.
  assert (Hw : "wrong" <> "") by discriminate.
  exact (proj1 (requireAuth_header_precedence
                  (Http.mkSettings None None env_ok None None (Some "s3cret") None)
                  (Http.mkRequest "/call" "/call" (Some "wrong") (Some "Bearer s3cret")
                     None None (Some "voice.example.com") (JObj []))
                  "s3cret" eq_refl Hk Hp) "wrong" eq_refl Hw).
Defined.

(** ** The [Bearer] prefix *)

Lemma string_length_ind (P : string -> Prop) :
  (forall s, (forall t, String.length t < String.length s -> P t) -> P s) ->
  forall s, P s.
Proof.
  intros H s.
  assert (Hn : forall n t, String.length t < n -> P t).
  { induction n as [|n IH]; intros t Ht; [lia|].
    apply H. intros u Hu. apply IH. lia. }
  apply (Hn (S (String.length s))). lia.
Qed.

Ltac split_test :=
  match goal with
  | |- context [if ?b then _ else _] =>
      lazymatch b with
      | context [if _ then _ else _] => fail
      | _ => destruct b eqn:?
      end
  | H : context [if ?b then _ else _] |- _ =>
      lazymatch b with
      | context [if _ then _ else _] => fail
      | _ => destruct b eqn:?
      end
  end.

Lemma skip_spaces_split s :
  exists w, s = (w ++ Http.skip_spaces s)%string /\ spaces w.
Proof.
  unfold spaces. induction s as [s IH] using string_length_ind.
  destruct s as [|c1 r1]; [now exists ""|].
  cbn [Http.skip_spaces]. cbv zeta. split_test.
  { destruct (IH r1) as (w & Hw & Hs); [cbn; lia|].
    exists (String c1 w). cbn [append Http.skip_spaces]. cbv zeta.
    rewrite Heqb. split; [now f_equal | exact Hs]. }
  destruct r1 as [|c2 r2]; [now exists ""|]. split_test.
  { destruct (IH r2) as (w & Hw & Hs); [cbn; lia|].
    exists (String c1 (String c2 w)). cbn [append Http.skip_spaces]. cbv zeta.
    rewrite Heqb, Heqb0. split; [now do 2 f_equal | exact Hs]. }
  destruct r2 as [|c3 r3]; [now exists ""|]. split_test.
  { destruct (IH r3) as (w & Hw & Hs); [cbn; lia|].
    exists (String c1 (String c2 (String c3 w))). cbn [append Http.skip_spaces]. cbv zeta.
    rewrite Heqb, Heqb0, Heqb1. split; [now do 3 f_equal | exact Hs]. }
  now exists "".
Qed.

Lemma skip_spaces_app w : forall t,
  spaces w -> Http.skip_spaces (w ++ t) = Http.skip_spaces t.
Proof.
  unfold spaces. induction w as [w IH] using string_length_ind. intros t Hw.
  destruct w as [|c1 r1]; [reflexivity|].
  cbn [append Http.skip_spaces] in Hw |- *. cbv zeta in Hw |- *.
  destruct (_ || _)%bool eqn:H1 in Hw |- *.
  { apply IH; [cbn; lia | exact Hw]. }
  destruct r1 as [|c2 r2]; [discriminate Hw|].
  cbn [append] in Hw |- *.
  destruct (_ && _)%bool eqn:H2 in Hw |- *.
  { apply IH; [cbn; lia | exact Hw]. }
  destruct r2 as [|c3 r3]; [discriminate Hw|].
  cbn [append] in Hw |- *.
  destruct (_ || _)%bool eqn:H3 in Hw |- *; [|discriminate Hw].
  apply IH; [cbn; lia | exact Hw].
Qed.

Lemma letter_i_lower l c :
  97 <= nat_of_ascii l <= 122 ->
  Http.letter_i l c = true <-> lower_char c = l.
Proof.
  intros Hl. unfold Http.letter_i, lower_char. cbv zeta.
  pose proof (nat_ascii_bounded c) as Hc.
  rewrite orb_true_iff, Ascii.eqb_eq, Nat.eqb_eq.
  destruct ((65 <=? nat_of_ascii c) && (nat_of_ascii c <=? 90))%nat eqn:Hup.
  - apply andb_true_iff in Hup as (H1 & H2).
    apply Nat.leb_le in H1. apply Nat.leb_le in H2. split.
    + intros [->|Heq]; [lia|]. now rewrite Heq, ascii_nat_embedding.
    + intros <-. right. rewrite nat_ascii_embedding; lia.
  - split; [|now left]. intros [Heq|Heq]; [exact Heq|].
    apply andb_false_iff in Hup as [Hup|Hup]; apply Nat.leb_gt in Hup; lia.
Qed.

Lemma string_length_app (a b : string) :
  String.length (a ++ b) = String.length a + String.length b.
Proof. induction a as [|c a IH]; cbn; [reflexivity | now rewrite IH]. Qed.

Lemma bearer_letters scheme :
  lower scheme = "bearer" <->
  exists b e a r e' r',
    scheme = String b (String e (String a (String r (String e' (String r' ""))))) /\
    (Http.letter_i "b" b && Http.letter_i "e" e && Http.letter_i "a" a &&
     Http.letter_i "r" r && Http.letter_i "e" e' && Http.letter_i "r" r')%bool = true.
Proof.
  assert (Hb : 97 <= nat_of_ascii "b" <= 122) by (vm_compute; lia).
  assert (He : 97 <= nat_of_ascii "e" <= 122) by (vm_compute; lia).
  assert (Ha : 97 <= nat_of_ascii "a" <= 122) by (vm_compute; lia).
  assert (Hr : 97 <= nat_of_ascii "r" <= 122) by (vm_compute; lia).
  split.
  - intros H.
    destruct scheme as [|b [|e [|a [|r [|e' [|r' [|x rest]]]]]]]; try discriminate H.
    cbn [lower] in H. injection H as H1 H2 H3 H4 H5 H6.
    exists b, e, a, r, e', r'. split; [reflexivity|].
    rewrite !andb_true_iff. rewrite !letter_i_lower by assumption. tauto.
  - intros (b & e & a & r & e' & r' & -> & H).
    rewrite !andb_true_iff in H. rewrite !letter_i_lower in H by assumption.
    destruct H as (((((H1 & H2) & H3) & H4) & H5) & H6).
    cbn [lower]. now rewrite H1, H2, H3, H4, H5, H6.
Qed.

(** X15. What [replace(/^Bearer\s+/i, "")] removes from an [Authorization]
    header: a header made of the word [Bearer] in any mix of capitals, one
    or more white-space characters and a token that does not begin with
    white space is turned into the token; and a header that the function
    changes is always of that form, the result being what follows the white
    space. *)
Theorem strip_bearer_semantics :
  (forall scheme w token : string,
     lower scheme = "bearer" -> w <> "" -> spaces w ->
     Http.skip_spaces token = token ->
     Http.strip_bearer (scheme ++ w ++ token) = token) /\
  (forall a : string,
     Http.strip_bearer a = a \/
     exists scheme w,
       a = (scheme ++ w ++ Http.strip_bearer a)%string /\
       lower scheme = "bearer" /\ w <> "" /\ spaces w).
Proof.
  split.
  - intros scheme w token Hs Hw Hsp Htok.
    apply bearer_letters in Hs as (b & e & a & r & e' & r' & -> & Hl).
    cbn [append]. unfold Http.strip_bearer. rewrite Hl. cbv zeta.
    rewrite (skip_spaces_app w token Hsp), Htok, string_length_app.
    destruct w as [|c w]; [contradiction|]. cbn [String.length].
    destruct (Nat.ltb_spec (String.length token)
                (S (String.length w) + String.length token)); [reflexivity | lia].
  - intros a.
    destruct a as [|b [|e [|a [|r [|e' [|r' rest]]]]]]; try (left; reflexivity).
    unfold Http.strip_bearer.
    destruct (Http.letter_i "b" b && Http.letter_i "e" e && Http.letter_i "a" a &&
              Http.letter_i "r" r && Http.letter_i "e" e' && Http.letter_i "r" r')%bool
      eqn:Hl; [|left; reflexivity].
    cbv zeta.
    destruct (Nat.ltb_spec (String.length (Http.skip_spaces rest)) (String.length rest))
      as [Hlt|Hge]; [|left; reflexivity].
    right. destruct (skip_spaces_split rest) as (w & Hw & Hsp).
    exists (String b (String e (String a (String r (String e' (String r' "")))))), w.
    split; [cbn [append]; now rewrite <- Hw|]. split; [|split; [|exact Hsp]].
    + apply bearer_letters. eauto 10.
    + intros ->. cbn [append] in Hw. rewrite <- Hw in Hlt. lia.
Qed.

Lemma strip_bearer_semantics_witness :
  Http.strip_bearer ("bEaRer" ++ String (ascii_of_nat 9) " " ++ "s3cret") = "s3cret".
Proof.
  apply (proj1 strip_bearer_semantics "bEaRer" (String (ascii_of_nat 9) " ") "s3cret");
    [reflexivity | discriminate | reflexivity | reflexivity].
Defined.

(** ** [/voice] *)






Section VoiceRoute.
Variable validateRequest : string -> string -> string -> jsval -> bool.

(** X17. The Twilio signature guards [POST /voice] only when
    [TWILIO_TOKEN] is set.  With the token set, the route runs the handler
    only for a request that carries a non-empty [X-Twilio-Signature] which
    [twilio.validateRequest] accepts for the URL the server rebuilds from
    [X-Forwarded-Proto] (or [https]), [ALLOWED_HOST] (or the [Host] header)
    and the original URL, with the parsed body; every other request gets
    403.  With the token not set, no signature is asked for and every
    request reaches the handler. *)
Theorem voice_route_signature :
  forall (cfg : Http.settings) (req : Http.request),
    (missing (Http.TWILIO_TOKEN cfg) = true ->
     Http.voice_route validateRequest cfg req = Http.voice cfg req) /\
    (forall token, Http.TWILIO_TOKEN cfg = Some token -> token <> "" ->
       let host :=
         if missing (Http.ALLOWED_HOST cfg)
         then match Http.host req with
              | Some h => h
              | None => "undefined"
              end
         else Http.or_else (Http.ALLOWED_HOST cfg) "" in
       let url :=
         (Http.or_else (Http.x_forwarded_proto req) "https" ++ "://" ++ host
            ++ Http.originalUrl req)%string in
       (Http.voice_route validateRequest cfg req = Http.voice cfg req /\
        exists signature,
          Http.x_twilio_signature req = Some signature /\ signature <> "" /\
          validateRequest token signature url (js_or (Http.body req) (JObj [])) = true) \/
       (Http.voice_route validateRequest cfg req = Http.Send 403 "text/html" "Forbidden" /\
        forall signature,
          Http.x_twilio_signature req = Some signature -> signature <> "" ->
          validateRequest token signature url (js_or (Http.body req) (JObj [])) = false)).
Proof.
  intros cfg req. split.
  - unfold Http.voice_route, Http.validateTwilioRequest.
    intros Hm. destruct (Http.TWILIO_TOKEN cfg) as [token|]; [|reflexivity].
    cbn [missing] in Hm. now rewrite Hm.
  - intros token Ht Hne host url.
    unfold Http.voice_route, Http.validateTwilioRequest. rewrite Ht.
    destruct (String.eqb_spec token ""); [contradiction|].
    destruct (Http.x_twilio_signature req) as [sig|].
    2:{ right. split; [reflexivity|]. intros s [=]. }
    destruct (String.eqb_spec sig "") as [->|Hs].
    { right. split; [reflexivity|]. now intros s [= <-]. }
    replace (if negb (missing (Http.ALLOWED_HOST cfg))
             then Http.or_else (Http.ALLOWED_HOST cfg) ""
             else match Http.host req with
                  | Some h => h
                  | None => "undefined"
                  end) with host
      by (subst host; now destruct (missing (Http.ALLOWED_HOST cfg))).
    fold url.
    destruct (validateRequest token sig url (js_or (Http.body req) (JObj []))) eqn:Hv;
      cbn [negb].
    + left. split; [reflexivity|]. exists sig. auto.
    + right. split; [reflexivity|]. now intros s [= <-].
Qed.
End VoiceRoute.

Lemma voice_route_signature_witness :
  Http.voice_route (fun _ _ _ _ => false)
    (Http.mkSettings None None env_ok None None None None)
    (Http.mkRequest "/voice" "/voice" None None None None (Some "voice.example.com") JUndefined)
  = Http.voice (Http.mkSettings None None env_ok None None None None)
      (Http.mkRequest "/voice" "/voice" None None None None (Some "voice.example.com")
         JUndefined).
Proof.
  apply (proj1 (voice_route_signature (fun _ _ _ _ => false)
                  (Http.mkSettings None None env_ok None None None None)
                  (Http.mkRequest "/voice" "/voice" None None None None
                     (Some "voice.example.com") JUndefined))).
  reflexivity.
Defined.

(** ** [/call] *)

Lemma e164_length text : Http.e164 text = true -> 8 <= String.length text <= 16.
Proof.
  unfold Http.e164. destruct text as [|plus [|d rest]]; try discriminate.
  rewrite !andb_true_iff, !Nat.leb_le. cbn [String.length]. lia.
Qed.

Lemma missing_false x : missing x = false -> exists s, x = Some s /\ s <> "".
Proof.
  destruct x as [s|]; [|discriminate]. cbn. intros H. exists s. split; [reflexivity|].
  now apply String.eqb_neq.
Qed.

Lemma or_else_Some s fallback : s <> "" -> Http.or_else (Some s) fallback = s.
Proof. intros H. cbn. apply String.eqb_neq in H. now rewrite H. Qed.

Section CallRoute.
Variable calls_create : string -> string -> jsval -> string -> string -> option string.

Lemma call_creates cfg req to from url r :
  Http.call calls_create cfg req = Http.creates to from url r ->
  missing (Http.TWILIO_SID cfg) = false /\ missing (Http.TWILIO_TOKEN cfg) = false /\
  Http.TWILIO_NUMBER cfg = Some from /\ from <> "" /\
  to = js_or (opt_chain (Http.body req) "to") (Http.header (Http.CALL_TO cfg)) /\
  truthy to = true /\
  (exists text, Http.ToString to = Some text /\ Http.e164 text = true) /\
  (exists host, Http.getValidatedHost cfg req = Some host /\ host <> "" /\
                url = ("https://" ++ host ++ "/voice")%string) /\
  (r = Http.Json 500 (JObj [("error", JStr "Failed to create call")]) \/
   exists sid, r = Http.Json 200 (JObj [("ok", JBool true); ("callSid", JStr sid)])).
Proof.
  unfold Http.call.
  destruct (missing (Http.TWILIO_SID cfg)) eqn:Hsid; [discriminate|].
  destruct (missing (Http.TWILIO_TOKEN cfg)) eqn:Htok; [discriminate|].
  cbn [orb].
  destruct (missing (Http.TWILIO_NUMBER cfg)) eqn:Hnum; [discriminate|].
  cbv zeta.
  set (to0 := js_or (opt_chain (Http.body req) "to") (Http.header (Http.CALL_TO cfg))).
  destruct (truthy to0) eqn:Htr; cbn [negb]; [|discriminate].
  destruct (Http.ToString to0) as [text|] eqn:Htext; [|discriminate].
  destruct (Http.e164 text) eqn:He; cbn [negb]; [|discriminate].
  destruct (missing (Http.getValidatedHost cfg req)) eqn:Hh; [discriminate|].
  apply missing_false in Hnum as (number & Hnum & Hnne).
  apply missing_false in Hh as (host & Hh & Hhne).
  rewrite Hnum, Hh, !or_else_Some by assumption.
  intros H.
  assert (Hargs : to = to0 /\ from = number /\ url = ("https://" ++ host ++ "/voice")%string /\
                  (r = Http.Json 500 (JObj [("error", JStr "Failed to create call")]) \/
                   exists sid,
                     r = Http.Json 200 (JObj [("ok", JBool true); ("callSid", JStr sid)]))).
  { destruct (calls_create _ _ _ _ _) as [sid|]; injection H as <- <- <- <-; eauto 6. }
  destruct Hargs as (-> & -> & -> & Hr).
  repeat (split; [first [reflexivity | assumption]|]).
  split; [eauto|]. split; [eauto|]. exact Hr.
Qed.

Lemma call_throws cfg req :
  Http.call calls_create cfg req = Http.throws <->
  missing (Http.TWILIO_SID cfg) = false /\ missing (Http.TWILIO_TOKEN cfg) = false /\
  missing (Http.TWILIO_NUMBER cfg) = false /\
  let to := js_or (opt_chain (Http.body req) "to") (Http.header (Http.CALL_TO cfg)) in
  truthy to = true /\ Http.ToString to = None.
Proof.
  unfold Http.call.
  destruct (missing (Http.TWILIO_SID cfg)); [split; [discriminate | intros (? & _); discriminate]|].
  destruct (missing (Http.TWILIO_TOKEN cfg));
    [split; [discriminate | intros (_ & ? & _); discriminate]|].
  cbn [orb].
  destruct (missing (Http.TWILIO_NUMBER cfg));
    [split; [discriminate | intros (_ & _ & ? & _); discriminate]|].
  cbv zeta.
  set (to0 := js_or (opt_chain (Http.body req) "to") (Http.header (Http.CALL_TO cfg))).
  destruct (truthy to0); cbn [negb];
    [|split; [discriminate | intros (_ & _ & _ & ? & _); discriminate]].
  destruct (Http.ToString to0) as [text|]; [|tauto].
  split; [|intros (_ & _ & _ & _ & ?); discriminate].
  destruct (Http.e164 text); cbn [negb]; [|discriminate].
  destruct (missing (Http.getValidatedHost cfg req)); [discriminate|].
  destruct (calls_create _ _ _ _ _); discriminate.
Qed.

(** X18. [POST /call] asks Twilio for a call only when every check has
    passed: the request is authorised, [TWILIO_SID], [TWILIO_TOKEN] and
    [TWILIO_NUMBER] are set, the number called is [body.to] when that is
    truthy and [CALL_TO] otherwise, its text matches the E.164 pattern (a
    plus sign and 7 to 15 digits), and the call-back URL is
    [https://<validated host>/voice]; the answer is then 200 with the [sid]
    or 500.  The handler throws, without an answer, exactly when the checks
    on the settings pass and the number is a truthy value that has no
    string form (an object with a property [toString]). *)
Theorem call_only_after_validation :
  forall (cfg : Http.settings) (req : Http.request),
    (forall to from url r,
       Http.call_route calls_create cfg req = Some (Http.creates to from url r) ->
       Http.requireAuth cfg req = Some Http.next /\
       missing (Http.TWILIO_SID cfg) = false /\ missing (Http.TWILIO_TOKEN cfg) = false /\
       Http.TWILIO_NUMBER cfg = Some from /\ from <> "" /\
       to = js_or (opt_chain (Http.body req) "to") (Http.header (Http.CALL_TO cfg)) /\
       (exists text, Http.ToString to = Some text /\ Http.e164 text = true /\
                     8 <= String.length text <= 16) /\
       (exists host, Http.getValidatedHost cfg req = Some host /\ host <> "" /\
                     url = ("https://" ++ host ++ "/voice")%string) /\
       (r = Http.Json 500 (JObj [("error", JStr "Failed to create call")]) \/
        exists sid, r = Http.Json 200 (JObj [("ok", JBool true); ("callSid", JStr sid)]))) /\
    (Http.call_route calls_create cfg req = Some Http.throws <->
     Http.requireAuth cfg req = Some Http.next /\
     missing (Http.TWILIO_SID cfg) = false /\ missing (Http.TWILIO_TOKEN cfg) = false /\
     missing (Http.TWILIO_NUMBER cfg) = false /\
     let to := js_or (opt_chain (Http.body req) "to") (Http.header (Http.CALL_TO cfg)) in
     truthy to = true /\ Http.ToString to = None).
Proof.
  intros cfg req. unfold Http.call_route, Http.behind_auth.
  destruct (Http.requireAuth cfg req) as [[|resp]|] eqn:Hauth.
  - split.
    + intros to from url r [= H].
      destruct (call_creates _ _ _ _ _ _ H)
        as (H1 & H2 & H3 & H4 & H5 & _ & (text & Ht & He) & H7 & H8).
      repeat (split; [first [reflexivity | assumption]|]).
      split; [|split; assumption].
      exists text. auto using e164_length.
    + rewrite <- call_throws. split; [intros [= H]; auto | intros (_ & ->); reflexivity].
  - split; [discriminate|]. split; [discriminate | intros ([=] & _)].
  - split; [discriminate|]. split; [discriminate | intros ([=] & _)].
Qed.
End CallRoute.

Lemma call_only_after_validation_witness :
  Http.call_route (fun _ _ _ _ _ => None)
    (Http.mkSettings (Some "AC1") (Some "token") env_ok None (Some "+15855492907")
       (Some "s3cret") None)
    (Http.mkRequest "/call" "/call" (Some "s3cret") None None None
       (Some "voice.example.com") (JObj [("to", JObj [("toString", JNum 1)])]))
  = Some Http.throws.
Proof.
  apply (proj2 (call_only_after_validation (fun _ _ _ _ _ => None)
                  (Http.mkSettings (Some "AC1") (Some "token") env_ok None
                     (Some "+15855492907") (Some "s3cret") None)
                  (Http.mkRequest "/call" "/call" (Some "s3cret") None None None
                     (Some "voice.example.com")
                     (JObj [("to", JObj [("toString", JNum 1)])])))).
  repeat split; reflexivity.
Defined.

(** ** [/] *)

(** X19. The health check of revision 4 tells which settings are present
    and nothing more: two servers whose settings are set or missing alike
    answer [GET /] with the same body, whatever the values are. *)
Theorem health_shows_presence_only :
  forall cfg cfg' : Http.settings,
    missing (Http.TWILIO_SID cfg) = missing (Http.TWILIO_SID cfg') ->
    missing (Http.TWILIO_TOKEN cfg) = missing (Http.TWILIO_TOKEN cfg') ->
    missing (Http.TWILIO_NUMBER cfg) = missing (Http.TWILIO_NUMBER cfg') ->
    missing (ELEVENLABS_API_KEY (Http.eleven cfg))
    = missing (ELEVENLABS_API_KEY (Http.eleven cfg')) ->
    missing (ELEVENLABS_AGENT_ID (Http.eleven cfg))
    = missing (ELEVENLABS_AGENT_ID (Http.eleven cfg')) ->
    missing (Http.CALL_TO cfg) = missing (Http.CALL_TO cfg') ->
    Http.health cfg = Http.health cfg'.
Proof.
  intros cfg cfg' H1 H2 H3 H4 H5 H6.
  unfold Http.health, Http.set_or_MISSING.
  now rewrite H1, H2, H3, H4, H5, H6.
Qed.

Lemma health_shows_presence_only_witness :
  Http.health (Http.mkSettings (Some "AC1") (Some "token") env_ok None
                 (Some "+15855492907") (Some "s3cret") None)
  = Http.health (Http.mkSettings (Some "AC2") (Some "other") env_ok None
                   (Some "+14155551234") None (Some "voice.example.com")).
Proof.
  apply health_shows_presence_only; reflexivity.
Defined.

(** ** The URL of [getSignedUrl] *)

Lemma hex_digit_unreserved n : n < 16 -> Http.unreserved (Http.hex_digit n) = true.
Proof.
  intros Hn. do 16 (destruct n as [|n]; [reflexivity|]). lia.
Qed.

Lemma hex_digit_inj m n :
  m < 16 -> n < 16 -> Http.hex_digit m = Http.hex_digit n -> m = n.
Proof.
  intros Hm Hn.
  do 16 (destruct m as [|m];
         [do 16 (destruct n as [|n]; [vm_compute; congruence|]); lia|]).
  lia.
Qed.

Lemma percent_inj c c' : Http.percent c = Http.percent c' -> c = c'.
Proof.
  unfold Http.percent. cbv zeta.
  pose proof (nat_ascii_bounded c) as Hc. pose proof (nat_ascii_bounded c') as Hc'.
  assert (Hq : nat_of_ascii c / 16 < 16 /\ nat_of_ascii c mod 16 < 16) by lia.
  assert (Hq' : nat_of_ascii c' / 16 < 16 /\ nat_of_ascii c' mod 16 < 16) by lia.
  assert (Hn : nat_of_ascii c / 16 = nat_of_ascii c' / 16 ->
               nat_of_ascii c mod 16 = nat_of_ascii c' mod 16 ->
               nat_of_ascii c = nat_of_ascii c') by lia.
  revert Hq Hq' Hn.
  generalize (nat_of_ascii c / 16), (nat_of_ascii c mod 16),
             (nat_of_ascii c' / 16), (nat_of_ascii c' mod 16).
  intros q r q' r' (Hq & Hr) (Hq' & Hr') Hn [= H1 H2].
  apply hex_digit_inj in H1; [|assumption|assumption].
  apply hex_digit_inj in H2; [|assumption|assumption].
  rewrite <- (ascii_nat_embedding c), <- (ascii_nat_embedding c'). f_equal. auto.
Qed.

Lemma list_ascii_of_string_app (a b : string) :
  list_ascii_of_string (a ++ b) = list_ascii_of_string a ++ list_ascii_of_string b.
Proof. induction a as [|c a IH]; cbn; [reflexivity | now rewrite IH]. Qed.

Lemma encodeURIComponent_chars s c :
  In c (list_ascii_of_string (Http.encodeURIComponent s)) ->
  Http.unreserved c = true \/ c = "%"%char.
Proof.
  induction s as [|x s IH]; [intros []|].
  cbn [Http.encodeURIComponent]. rewrite list_ascii_of_string_app, in_app_iff.
  intros [Hin|Hin]; [|now apply IH].
  destruct (Http.unreserved x) eqn:Hx.
  - destruct Hin as [<-|[]]. now left.
  - pose proof (nat_ascii_bounded x) as Hb.
    destruct Hin as [<-|[<-|[<-|[]]]]; [now right | left | left];
      apply hex_digit_unreserved; lia.
Qed.

Lemma encodeURIComponent_inj a : forall b,
  Http.encodeURIComponent a = Http.encodeURIComponent b -> a = b.
Proof.
  induction a as [|x a IH]; intros [|y b]; cbn [Http.encodeURIComponent].
  - reflexivity.
  - destruct (Http.unreserved y); discriminate.
  - destruct (Http.unreserved x); discriminate.
  - destruct (Http.unreserved x) eqn:Hx, (Http.unreserved y) eqn:Hy;
      cbn [append Http.percent]; cbv zeta.
    + intros [= -> H]. f_equal. now apply IH.
    + intros [= -> _]. discriminate Hx.
    + intros [= <- _]. discriminate Hy.
    + fold (Http.percent x). fold (Http.percent y). intros H.
      assert (Hp : Http.percent x = Http.percent y /\
                   Http.encodeURIComponent a = Http.encodeURIComponent b).
      { revert H. unfold Http.percent. cbv zeta.
        generalize (Http.hex_digit (nat_of_ascii x / 16)),
                   (Http.hex_digit (nat_of_ascii x mod 16)),
                   (Http.hex_digit (nat_of_ascii y / 16)),
                   (Http.hex_digit (nat_of_ascii y mod 16)).
        intros h1 h2 h3 h4 [= -> -> H]. auto. }
      destruct Hp as (Hp & Hrest).
      apply percent_inj in Hp. subst y. f_equal. now apply IH.
Qed.

(** X20. The URL [getSignedUrl] fetches in revision 4 is the fixed
    endpoint with one query parameter, whatever [ELEVENLABS_AGENT_ID]
    holds: what [encodeURIComponent] appends is made of unreserved
    characters and percent signs only, so it has no [&], [=], [#], [?], [/],
    [+] or space, and two different agent ids never give the same URL. *)
Theorem signed_url_request_encoded :
  forall (cfg : Http.settings) (id : string),
    ELEVENLABS_AGENT_ID (Http.eleven cfg) = Some id ->
    exists query,
      Http.signed_url_request cfg
      = ("https://api.elevenlabs.io/v1/convai/conversation/get_signed_url?agent_id="
           ++ query)%string /\
      (forall c, In c (list_ascii_of_string query) ->
         c <> "&"%char /\ c <> "="%char /\ c <> "#"%char /\ c <> "?"%char /\
         c <> "/"%char /\ c <> "+"%char /\ c <> " "%char) /\
      (forall (cfg' : Http.settings) (id' : string),
         ELEVENLABS_AGENT_ID (Http.eleven cfg') = Some id' ->
         Http.signed_url_request cfg' = Http.signed_url_request cfg -> id' = id).
Proof.
  intros cfg id Hid. exists (Http.encodeURIComponent id).
  unfold Http.signed_url_request. rewrite Hid. split; [reflexivity|]. split.
  - intros c Hc. apply encodeURIComponent_chars in Hc as [Hc| ->].
    + repeat split; intros ->; discriminate Hc.
    + repeat split; discriminate.
  - intros cfg' id' Hid'. rewrite Hid'.
    intros H. apply encodeURIComponent_inj.
    remember (Http.encodeURIComponent id') as x.
    remember (Http.encodeURIComponent id) as y.
    cbn in H. now injection H.
Qed.

Lemma signed_url_request_encoded_witness :
  exists query,
    Http.signed_url_request
      (Http.mkSettings None None (mkEnv (Some "key") (Some "a&b=c d") true)
         None None None None)
    = ("https://api.elevenlabs.io/v1/convai/conversation/get_signed_url?agent_id="
         ++ query)%string /\
    forall c, In c (list_ascii_of_string query) ->
      c <> "&"%char /\ c <> "="%char /\ c <> "#"%char /\ c <> "?"%char /\
      c <> "/"%char /\ c <> "+"%char /\ c <> " "%char.
Proof.
  destruct (signed_url_request_encoded
              (Http.mkSettings None None (mkEnv (Some "key") (Some "a&b=c d") true)
                 None None None None)
              "a&b=c d" eq_refl) as (query & H1 & H2 & _).
  exists query. split; [exact H1 | exact H2].
Defined.

(** * The handshake of revisions 2 and 4 *)

Lemma invoke_pending m s :
  (exists r s' acts, m s = (r, s', acts) /\ pending s' = pending s) ->
  pending (fst (invoke m s)) = pending s.
Proof.
  intros (r & s' & acts & Heq & Hp). unfold invoke. rewrite Heq.
  destruct r; exact Hp.
Qed.

Lemma message_effect_pending s s' acts :
  message_effect s s' acts -> pending s' = pending s.
Proof. intros [s1 Hss| |]; [apply Hss | reflexivity | reflexivity]. Qed.

Section Pending.
Variables (h : handlers) (connects_on : option jsval -> bool)
          (connects_url : option bool -> bool).
Hypothesis Hd : disciplined h connects_on connects_url.

Lemma step_pending s e :
  is_settle e = false -> pending (fst (step h s e)) = pending s.
Proof.
  intros He. unfold step. destruct (crashed s); [reflexivity|].
  destruct e as [data| | |a| |k|k data|k|k]; try discriminate He.
  - destruct (twilioWs s); try reflexivity.
    apply invoke_pending.
    destruct (d_twilio _ _ _ Hd data s) as (s' & acts & Heq & Heff).
    eauto 6 using control_effect_pending.
  - assert (Hgo : pending (fst (invoke (onTwilioClose h) (set_twilioWs CLOSED s)))
                  = pending s).
    { transitivity (pending (set_twilioWs CLOSED s)); [|reflexivity].
      apply invoke_pending.
      destruct (d_twilio_close _ _ _ Hd (set_twilioWs CLOSED s))
        as (s' & acts & Heq & Heff).
      eauto 6 using control_effect_pending. }
    destruct (twilioWs s); try reflexivity; exact Hgo.
  - destruct (twilioWs s); reflexivity.
  - destruct (sockets s !! k) as [[]|]; try reflexivity.
    transitivity (pending (set_sockets (<[k:=OPEN]> (sockets s)) s)); [|reflexivity].
    apply invoke_pending.
    destruct (d_open _ _ _ Hd (set_sockets (<[k:=OPEN]> (sockets s)) s))
      as (r & s' & acts & Heq & Heff).
    eauto 6 using control_effect_pending.
  - assert (Hgo : pending (fst (invoke (onElevenMessage h data) s)) = pending s).
    { apply invoke_pending.
      destruct (d_message _ _ _ Hd data s) as (s' & acts & Heq & Heff).
      eauto 6 using message_effect_pending. }
    destruct (sockets s !! k) as [[]|]; try reflexivity; exact Hgo.
  - assert (Hgo : pending (fst (invoke (onElevenClose h)
                                  (set_sockets (<[k:=CLOSED]> (sockets s)) s)))
                  = pending s).
    { unfold invoke. now rewrite (d_close _ _ _ Hd). }
    destruct (sockets s !! k) as [[]|]; try reflexivity; exact Hgo.
  - destruct (sockets s !! k) as [[]|]; reflexivity.
Qed.

Lemma run_pending evs : forall s,
  forallb (fun e => negb (is_settle e)) evs = true ->
  pending (fst (run h s evs)) = pending s.
Proof.
  induction evs as [|e rest IH]; intros s Hall; [reflexivity|].
  cbn [forallb] in Hall. apply andb_true_iff in Hall as (He & Hall).
  apply negb_true_iff in He.
  rewrite run_cons. cbn [fst]. now rewrite IH, step_pending.
Qed.
End Pending.

Lemma run_app h a : forall b s,
  run h s (a ++ b)
  = (fst (run h (fst (run h s a)) b),
     snd (run h s a) ++ snd (run h (fst (run h s a)) b)).
Proof.
  induction a as [|e a IH]; intros b s.
  - cbn [app run fst snd]. now destruct (run h s b).
  - cbn [app]. rewrite !run_cons, IH. cbn [fst snd]. now rewrite app_assoc.
Qed.

Lemma handshake_unsettled evs :
  forallb (fun e => negb (is_settle e)) evs = true -> handshake evs = None.
Proof.
  induction evs as [|e rest IH]; [reflexivity|].
  cbn [forallb]. rewrite andb_true_iff. intros (He & Hall).
  destruct e; try discriminate He; cbn [handshake]; auto.
Qed.

Lemma Rev4_settle_accepted bfo s :
  no_ai s -> pending s = true ->
  step (Rev4.callbacks bfo) s (SignedUrlResolved true)
  = (set_elevenWs (Some 0) (set_sockets [CONNECTING] (set_pending false s)),
     [ElevenNew 0]).
Proof.
  intros (Hs & He & Hc) Hp. unfold step. rewrite Hc, Hp.
  cbn [Rev4.callbacks onSignedUrl].
  unfold invoke, Rev4.setupElevenLabs_resume. unfold_js.
  cbn [sockets set_pending fst snd]. rewrite Hs. reflexivity.
Qed.

(** X21. When a call of revisions 2 and 4 gets its AI socket.  The socket
    is created if and only if both ElevenLabs settings are present and
    [getSignedUrl] returns a value that [new WebSocket] accepts as URL; it
    returns one only if [fetch] resolves, the response is [ok], its body is
    JSON other than [null], and then the value is the [signed_url] property
    of the body.  Nothing the telephony side does before or after the
    request settles changes this: not even its closing stops the socket
    from being created. *)
Theorem ai_socket_iff_signed_url :
  forall (env : environment) (Buffer_from_object : jsval -> option (list nat))
         (response : option fetched) (accepts : jsval -> bool)
         (before after : list event),
    forallb (fun e => negb (is_settle e)) before = true ->
    news (snd (Rev4.session_run env Buffer_from_object
                 (before ++ settlement response accepts :: after))) = 1
    <->
    missing (ELEVENLABS_API_KEY env) = false /\
    missing (ELEVENLABS_AGENT_ID env) = false /\
    exists r data,
      response = Some r /\ response_ok r = true /\ response_json r = Some data /\
      exists signedUrl, prop data "signed_url" = Some signedUrl /\
                        accepts signedUrl = true.
Proof.
  intros env bfo response accepts before after Hbefore.
  rewrite Rev4_session_run_eq. cbn [snd]. rewrite news_app, run_app. cbn [snd].
  rewrite news_app, Rev4_accepted_eq.
  destruct (missing (ELEVENLABS_API_KEY env) || missing (ELEVENLABS_AGENT_ID env))
    eqn:Hmiss; cbn [fst snd].
  - destruct (Rev4_run_no_socket bfo before initial no_ai_initial (or_introl eq_refl))
      as (Hb & Hn).
    assert (Hp : pending (fst (run (Rev4.callbacks bfo) initial before)) = false).
    { now rewrite (run_pending _ _ _ (Rev4_disciplined bfo)). }
    destruct (Rev4_run_no_socket bfo (settlement response accepts :: after) _ Hn
                (or_introl Hp)) as (Ha & _).
    rewrite Hb, Ha. split; [discriminate|].
    intros (H1 & H2 & _). rewrite H1, H2 in Hmiss. discriminate.
  - apply orb_false_iff in Hmiss as (Hk & Hi).
    assert (Hn0 : no_ai (set_pending true initial)) by (repeat split).
    assert (Hh0 : handshake before <> Some true)
      by (rewrite (handshake_unsettled _ Hbefore); discriminate).
    destruct (Rev4_run_no_socket bfo before _ Hn0 (or_intror Hh0)) as (Hb & Hn).
    assert (Hp : pending (fst (run (Rev4.callbacks bfo) (set_pending true initial) before))
                 = true).
    { now rewrite (run_pending _ _ _ (Rev4_disciplined bfo)). }
    rewrite Hb. set (s1 := fst (run (Rev4.callbacks bfo) (set_pending true initial) before))
      in *.
    assert (Hquiet : handshake (settlement response accepts :: after) <> Some true ->
                     news (snd (run (Rev4.callbacks bfo) s1
                                  (settlement response accepts :: after))) = 0).
    { intros Hh.
      destruct (Rev4_run_no_socket bfo _ s1 Hn (or_intror Hh)) as (-> & _). reflexivity. }
    unfold settlement, getSignedUrl in *.
    destruct response as [r|].
    2:{ rewrite Hquiet by (cbn; discriminate).
        split; [discriminate | intros (_ & _ & r & data & [=] & _)]. }
    destruct (response_ok r) eqn:Hok; cbn [negb] in *.
    2:{ rewrite Hquiet by (cbn; discriminate).
        split; [discriminate|].
        intros (_ & _ & r' & data & [= <-] & Hok' & _). congruence. }
    destruct (response_json r) as [data|] eqn:Hjson.
    2:{ rewrite Hquiet by (cbn; discriminate).
        split; [discriminate|].
        intros (_ & _ & r' & data & [= <-] & _ & Hj & _). congruence. }
    destruct (prop data "signed_url") as [url|] eqn:Hurl.
    2:{ rewrite Hquiet by (cbn; discriminate).
        split; [discriminate|].
        intros (_ & _ & r' & data' & [= <-] & _ & Hj & url & Hu & _). congruence. }
    destruct (accepts url) eqn:Hacc.
    2:{ rewrite Hquiet by (cbn; discriminate).
        split; [discriminate|].
        intros (_ & _ & r' & data' & [= <-] & _ & Hj & url' & Hu & Ha). congruence. }
    clear Hquiet. rewrite run_cons. cbn [snd].
    rewrite (Rev4_settle_accepted bfo s1 Hn Hp). cbn [fst snd].
    set (s2 := set_elevenWs (Some 0) (set_sockets [CONNECTING] (set_pending false s1))).
    assert (Hinv : rev4_inv s2).
    { destruct Hn as (_ & _ & Hc). split; [exact Hc|]. cbn. auto. }
    destruct (Rev4_run_inv bfo after s2 Hinv) as (Hinv' & _ & Hnews).
    apply rev4_inv_length in Hinv'. cbn [sockets s2 set_elevenWs set_sockets length] in Hnews.
    rewrite news_app. cbn [news List.filter is_new length app].
    split; [|lia]. intros _. split; [exact Hk|]. split; [exact Hi|].
    exists r, data. repeat split; auto. exists url. auto.
Qed.

Lemma ai_socket_iff_signed_url_witness :
  news (snd (Rev4.session_run env_ok no_objects
               ([TwilioClosed] ++
                settlement
                  (Some (mkFetched true
                           (Some (JObj [("signed_url", JStr "wss://api.elevenlabs.io/c")]))))
                  (fun _ => true) :: [TwilioMessage (Some stop_msg)]))) = 1.
Proof.
  apply (proj2 (ai_socket_iff_signed_url env_ok no_objects
                  (Some (mkFetched true
                           (Some (JObj [("signed_url", JStr "wss://api.elevenlabs.io/c")]))))
                  (fun _ => true) [TwilioClosed] [TwilioMessage (Some stop_msg)] eq_refl)).
  split; [reflexivity|]. split; [reflexivity|].
  eexists _, _. split; [reflexivity|]. split; [reflexivity|]. split; [reflexivity|].
  eexists. split; reflexivity.
Defined.
